(** * NinjaBot: the phase-based game engine of [ninja_bot.ninja_hunt]

    A shallow embedding of [ninja_bot/settings.py], [ninja_bot/ninja_hunt/game.py]
    and [ninja_bot/ninja_hunt/cog.py].

    Conventions of the embedding:
    - Python [int] is [Z]; a Python [float] is the rational that the IEEE 754
      double denotes, and an operation on floats gives the exact result
      rounded to the nearest double, ties to even ([round64]); the exponent
      range is not bounded (the seconds, points and probabilities of the game
      are far from overflow and underflow);
    - [datetime.datetime.utcnow()] is an explicit argument [now], an instant
      in seconds; the pause of the sleeping phase, which is handed to the
      timer of the event loop, is kept exact;
    - [random.randint] and [random.random()] take their outcome from an explicit
      argument, so that every theorem quantifies over all outcomes;
    - a raised exception is the [Raise] constructor of [result];
    - a Python [dict] whose iteration order matters is an association list that
      keeps insertion order ([dict_get], [dict_set]); the Redis caches are [gmap]s;
    - [await]ed collaborators (Discord, Redis) are represented by their outcome;
    - the game and the calls of the listeners are tasks of one event loop: a
      task gives way only at an [await], and what can happen while it waits
      there (a reaction, the end of a member fetch, a stop request) is
      explicit. *)

From Stdlib Require Import ZArith QArith Qround Qminmax Qpower Lia Lqa List Permutation Sorted.
From Stdlib Require DecimalString.
From Stdlib Require Floats Uint63.
From stdpp Require Import gmap strings list.

Local Open Scope Z_scope.

(* ===================================================================== *)
(** * Python primitives                                                   *)
(* ===================================================================== *)

(** The exceptions that the modelled code can raise. *)
Inductive exn : Type :=
| ValueError          (* random.randint on an empty range *)
| ZeroDivisionError   (* true division by zero *)
| InvalidStateError   (* Future.set_result on a future that is done *)
| NinjaError          (* game.NinjaError *)
| AttributeError      (* an attribute of None is read *)
| DiscordException    (* any discord.DiscordException *)
| CancelledError.     (* asyncio.CancelledError, which is no Exception *)

Inductive result (A : Type) : Type :=
| Ok (a : A)
| Raise (e : exn).
Arguments Ok {A} a.
Arguments Raise {A} e.

(** [result] is the error monad; stdpp's [x ← r; k] sequences two steps and
    stops at the first exception. *)
Global Instance result_ret : MRet result := λ A a, Ok a.
Global Instance result_bind : MBind result := λ A B k r,
  match r with
  | Ok a => k a
  | Raise e => Raise e
  end.

(** ** Floats

    The integer nearest to [t]; a tie goes to the even neighbour. *)
Definition round_half_even (t : Q) : Z :=
  let f := Qfloor t in
  match (t - inject_Z f ?= 1 # 2)%Q with
  | Lt => f
  | Gt => f + 1
  | Eq => if Z.even f then f else f + 1
  end.

(** The binary exponent of a positive rational: the [k] with
    [2^k <= x < 2^(k+1)]. *)
Definition Qlog2 (x : Q) : Z :=
  let k := Z.log2 (Qnum x) - Z.log2 (Zpos (Qden x)) in
  if Qle_bool (2 ^ k) x then k else k - 1.

(** A positive rational rounded to 53 significant bits. *)
Definition round64_pos (x : Q) : Q :=
  let s := Qlog2 x - 52 in
  (inject_Z (round_half_even (x / 2 ^ s)) * 2 ^ s)%Q.

(** The double nearest to [x] (round to nearest, ties to even). *)
Definition round64 (x : Q) : Q :=
  match (x ?= 0)%Q with
  | Eq => 0
  | Gt => round64_pos x
  | Lt => - round64_pos (- x)
  end.

(** The doubles of the kernel, with which [round64] is compared further
    down: the rational that a finite double denotes, and the double of an
    integer below [2^63]. *)
Definition float_value (f : PrimFloat.float) : option Q :=
  match FloatOps.Prim2SF f with
  | SpecFloat.S754_zero _ => Some 0%Q
  | SpecFloat.S754_finite negative m e =>
      Some ((if negative then -1 else 1) * inject_Z (Zpos m) * 2 ^ e)%Q
  | _ => None
  end.

Definition float_of_Z (n : Z) : PrimFloat.float :=
  PrimFloat.of_uint63 (Uint63.of_Z n).

(** [float(n)]: what an operation between an [int] and a [float] makes of
    the [int]. *)
Definition py_float (n : Z) : Q := round64 (inject_Z n).

(** [a - b] and [a * b] on floats. *)
Definition py_sub (a b : Q) : Q := round64 (a - b).
Definition py_mul (a b : Q) : Q := round64 (a * b).

(** [int(x)] on a float: truncation toward zero. *)
Definition py_int (q : Q) : Z := Z.quot (Qnum q) (Zpos (Qden q)).

(** [a / b] (true division) on two floats, or on two ints, for which Python
    gives the correctly rounded quotient of the integers: it raises
    [ZeroDivisionError] when [b] is zero. *)
Definition py_truediv (a b : Q) : result Q :=
  if Qeq_bool b 0 then Raise ZeroDivisionError else Ok (round64 (a / b)).

(** [(later - earlier).total_seconds()]: the difference of two instants in
    seconds, as a float. *)
Definition total_seconds (difference : Q) : Q := round64 difference.

(** [max(a, b)] and [min(a, b)] with two arguments: the first one wins ties. *)
Definition py_max_Q (a b : Q) : Q := if Qle_bool b a then a else b.
Definition py_min_Q (a b : Q) : Q := if Qle_bool a b then a else b.
Definition py_max_Z (a b : Z) : Z := if b <=? a then a else b.

(** [random.randint(a, b)] is [randrange(a, b + 1)]: with [width = b + 1 - a],
    it returns [a + _randbelow(width)] when [width > 0] and raises
    [ValueError] otherwise.  The outcome of [_randbelow(width)] is
    [entropy mod width]: as [entropy] ranges over [Z] this is every value of
    [[0, width)]. *)
Definition randint (a b : Z) (entropy : Z) : result Z :=
  let width := b + 1 - a in
  if 0 <? width then Ok (a + entropy mod width) else Raise ValueError.

(** ** Insertion-ordered dictionaries keyed by integers *)

Section Dict.
Context {V : Type}.

Fixpoint dict_get (k : Z) (d : list (Z * V)) : option V :=
  match d with
  | [] => None
  | (k', v) :: d' => if decide (k = k') then Some v else dict_get k d'
  end.

(** [d[k] = v]: an existing key keeps its position, a new key is appended. *)
Fixpoint dict_set (k : Z) (v : V) (d : list (Z * V)) : list (Z * V) :=
  match d with
  | [] => [(k, v)]
  | (k', v') :: d' =>
      if decide (k = k') then (k, v) :: d' else (k', v') :: dict_set k v d'
  end.

(** [k in d] *)
Definition dict_mem (k : Z) (d : list (Z * V)) : bool :=
  match dict_get k d with Some _ => true | None => false end.

Definition dict_keys (d : list (Z * V)) : list Z := map fst d.
End Dict.

(* ===================================================================== *)
(** * settings.py                                                         *)
(* ===================================================================== *)

(** [AllowDenyElement = Union[str, int]]. *)
Inductive AllowDenyElement : Type :=
| EInt (z : Z)
| EStr (s : string).

Global Instance AllowDenyElement_eq_dec : EqDecision AllowDenyElement.
Proof. solve_decision. Defined.

(** [AllowDenySet._set]: a Python set, represented by a list of its elements
    (only membership and equality with [set("*")] are ever observed). *)
Record AllowDenySet : Type := { _set : list AllowDenyElement }.

(** [self._set == set("*")]: the set has exactly the one element ["*"]. *)
Definition wildcard_set (s : AllowDenySet) : bool :=
  match _set s with
  | [] => false
  | _ => forallb (fun e => bool_decide (e = EStr "*")) (_set s)
  end.

(** A snowflake handed to [__contains__]: an [int], or [None] (a channel
    without category has [category_id = None]). *)
Definition snowflake_elem (x : option Z) : option AllowDenyElement :=
  option_map EInt x.

(** [AllowDenySet.__contains__] *)
Definition contains (s : AllowDenySet) (snowflake_id : option Z) : bool :=
  if wildcard_set s then true
  else match snowflake_elem snowflake_id with
       | Some e => bool_decide (e ∈ _set s)
       | None => false
       end.

Record AllowDenyGroup : Type := { allow : AllowDenySet; deny : AllowDenySet }.

(** The defaults of [AllowDenyGroup]: [allow = {"*"}], [deny = {}]. *)
Definition AllowDenyGroup_default : AllowDenyGroup :=
  {| allow := {| _set := [EStr "*"] |}; deny := {| _set := [] |} |}.

Record Permissions : Type :=
  { categories : AllowDenyGroup; channels : AllowDenyGroup }.

Record Guild : Type := { guild_id : Z; emoji_id : Z }.

Record Game : Type := {
  public_only : bool;
  cooldown : Z;
  max_time_jitter : Z;
  probability_multiplier : Z;
  max_points : Z;
  reaction_timeout : Z;
  auto_start : bool
}.

Record Settings : Type := {
  permissions : Permissions;
  game : Game;
  guild : Guild
}.

(* ===================================================================== *)
(** * Discord objects, as far as the game reads them                      *)
(* ===================================================================== *)

(** [discord.Message]: [message.guild] is [None] outside a guild;
    [everyone_read_messages] and [everyone_send_messages] are the two fields
    of [message.channel.permissions_for(default_user)], the permissions of a
    member that has only the guild's default role. *)
Record Message : Type := {
  message_id : Z;
  message_guild : option Z;
  author_bot : bool;
  channel_id : Z;
  category_id : option Z;
  everyone_read_messages : bool;
  everyone_send_messages : bool
}.

(** [discord.Member], identified by its id. *)
Record Member : Type := { member_ident : Z }.

(** [discord.RawReactionActionEvent]; [reaction_emoji_id] is
    [getattr(reaction.emoji, "id", None)], which is [None] for a unicode
    emoji. *)
Record RawReactionActionEvent : Type := {
  user_id : Z;
  reaction_message_id : Z;
  reaction_emoji_id : option Z;
  member : option Member
}.

(** [asyncio.Future]: the value of a resolved future is a Python value that is
    either [None] or a message. *)
Inductive Future : Type :=
| FPending
| FResult (v : option Message)
| FCancelled.

(** [Future.set_result] *)
Definition set_result (f : Future) (v : option Message) : result Future :=
  match f with
  | FPending => Ok (FResult v)
  | _ => Raise InvalidStateError
  end.

(** [asyncio.Task], as far as [done()] and [cancel()] observe it. *)
Inductive Task : Type := TaskPending | TaskDone | TaskCancelled.

Definition task_done (t : Task) : bool :=
  match t with TaskPending => false | _ => true end.

Definition task_cancel (t : Task) : Task :=
  match t with TaskPending => TaskCancelled | _ => t end.

(** What [await self._future] does when [run] is resumed: it evaluates to the
    result of the future, or [asyncio.CancelledError] is raised there. *)
Inductive awaited : Type :=
| AwaitResult (v : option Message)
| AwaitCancelled.

(* ===================================================================== *)
(** * game.py                                                             *)
(* ===================================================================== *)

(** [ReactionPoints = namedtuple("ReactionPoints", "member points")] *)
Record ReactionPoints : Type := { rp_member : Member; points : Z }.

(** The attributes set by [NinjaPhase.__init__]. *)
Record NinjaPhase : Type := {
  _future : Future;
  _cancelled : bool;
  _finished : bool;
  _timestamp : Q
}.

Definition NinjaPhase_init (now : Q) : NinjaPhase :=
  {| _future := FPending; _cancelled := false; _finished := false;
     _timestamp := now |}.

Definition set_cancelled (b : NinjaPhase) : NinjaPhase :=
  {| _future := _future b; _cancelled := true; _finished := _finished b;
     _timestamp := _timestamp b |}.

Definition set_finished (b : NinjaPhase) : NinjaPhase :=
  {| _future := _future b; _cancelled := _cancelled b; _finished := true;
     _timestamp := _timestamp b |}.

Definition set_future (f : Future) (b : NinjaPhase) : NinjaPhase :=
  {| _future := f; _cancelled := _cancelled b; _finished := _finished b;
     _timestamp := _timestamp b |}.

(** [NinjaPhase.active] *)
Definition active (b : NinjaPhase) : bool :=
  negb (_finished b) && negb (_cancelled b).

Record SleepingPhase : Type := {
  sleeping_base : NinjaPhase;
  _sleep_duration : Z;
  sleeping_task : Task
}.

Record HuntingPhase : Type := {
  hunting_base : NinjaPhase;
  (** the next value of [itertools.count(1)] *)
  _probability : Z
}.

Record ReactionPhase : Type := {
  reaction_base : NinjaPhase;
  bot_user_id : Z;
  _message : Message;
  _fallback_emoji : option Z;
  _new_emoji : option Z;
  reaction_task : Task;
  _rewarded_users : list (Z * ReactionPoints);
  _used_emoji : option Z
}.

Section Game.
Variable settings : Settings.

(** The module-level constants of game.py. *)
Definition COOLDOWN : Z := cooldown (game settings).
Definition MAX_TIME_JITTER : Z := max_time_jitter (game settings).
Definition MAX_POINTS : Z := max_points (game settings).
Definition TIMEOUT : Z := reaction_timeout (game settings).
Definition SECONDS_PER_POINT : result Q :=
  py_truediv (inject_Z TIMEOUT) (inject_Z MAX_POINTS).
Definition P_MULTIPLIER : Z := probability_multiplier (game settings).

(** ** SleepingPhase *)

(** [SleepingPhase.__init__]: the base attributes, then the duration, then
    the sleep task; an exception of [random.randint] leaves no phase and no
    task behind. *)
Definition SleepingPhase_init (entropy : Z) (now : Q) : result SleepingPhase :=
  let base := NinjaPhase_init now in
  jitter ← randint 1 MAX_TIME_JITTER entropy;
  mret {| sleeping_base := base;
          _sleep_duration := COOLDOWN + jitter;
          sleeping_task := TaskPending |}.

(** [SleepingPhase.time_remaining]: the pause that [sleep] hands to
    [asyncio.sleep], in exact arithmetic. *)
Definition SleepingPhase_time_remaining (p : SleepingPhase) (now : Q) : Q :=
  let time_passed := (now - _timestamp (sleeping_base p))%Q in
  py_max_Q (inject_Z (_sleep_duration p) - time_passed)%Q 0.


(** [SleepingPhase.sleep] after the [asyncio.sleep]:
    [self._future.set_result(None)], and the task is done. *)
Definition SleepingPhase_wake (p : SleepingPhase) : SleepingPhase * result unit :=
  match set_result (_future (sleeping_base p)) None with
  | Ok f => ({| sleeping_base := set_future f (sleeping_base p);
                _sleep_duration := _sleep_duration p;
                sleeping_task := TaskDone |}, Ok ())
  | Raise e => ({| sleeping_base := sleeping_base p;
                   _sleep_duration := _sleep_duration p;
                   sleeping_task := TaskDone |}, Raise e)
  end.

(** [SleepingPhase._cancel] *)
Definition SleepingPhase_cancel (p : SleepingPhase) : SleepingPhase :=
  {| sleeping_base := set_cancelled (sleeping_base p);
     _sleep_duration := _sleep_duration p;
     sleeping_task := task_cancel (sleeping_task p) |}.

(** [NinjaPhase._finish], inherited by [SleepingPhase] *)
Definition SleepingPhase_finish (p : SleepingPhase) : SleepingPhase :=
  {| sleeping_base := set_finished (sleeping_base p);
     _sleep_duration := _sleep_duration p;
     sleeping_task := sleeping_task p |}.

(** [SleepingPhase.__aexit__] *)
Definition SleepingPhase_aexit (p : SleepingPhase) : SleepingPhase :=
  {| sleeping_base := sleeping_base p;
     _sleep_duration := _sleep_duration p;
     sleeping_task :=
       if negb (task_done (sleeping_task p)) then task_cancel (sleeping_task p)
       else sleeping_task p |}.

(** ** HuntingPhase *)

Definition HuntingPhase_init (now : Q) : HuntingPhase :=
  {| hunting_base := NinjaPhase_init now; _probability := 1 |}.

(** [HuntingPhase._ignored_message] *)
Definition _ignored_message (message : Message) : bool :=
  if negb (bool_decide (message_guild message = Some (guild_id (guild settings))))
  then true
  else if author_bot message then true
  else if public_only (game settings)
            && (negb (everyone_read_messages message)
                || negb (everyone_send_messages message))
  then true
  else if contains (deny (channels (permissions settings)))
                   (Some (channel_id message))
  then true
  else if contains (allow (channels (permissions settings)))
                   (Some (channel_id message))
  then false
  else if contains (deny (categories (permissions settings)))
                   (category_id message)
  then true
  else if contains (allow (categories (permissions settings)))
                   (category_id message)
  then false
  else true.

(** [HuntingPhase.ninja_probability]: [next(self._probability)] advances the
    counter; the value is [min(p / 100, 1.0)], where [p / 100] is the
    quotient of two ints as a float. *)
Definition ninja_probability (h : HuntingPhase) : Q * HuntingPhase :=
  let p := _probability h in
  (py_min_Q (round64 (inject_Z p / 100)) 1,
   {| hunting_base := hunting_base h; _probability := p + 1 |}).

(** [HuntingPhase.hunt_for_messages]; [draw] is the value of
    [random.random()], which lies in [[0, 1)]. *)
Definition hunt_for_messages (h : HuntingPhase) (message : Message) (draw : Q)
  : HuntingPhase * result unit :=
  if negb (active (hunting_base h)) || _ignored_message message then (h, Ok ())
  else
    let '(p, h1) := ninja_probability h in
    if negb (Qle_bool draw (py_mul (py_float P_MULTIPLIER) p)) then (h1, Ok ())
    else
      match set_result (_future (hunting_base h1)) (Some message) with
      | Ok f => ({| hunting_base := set_future f (hunting_base h1);
                    _probability := _probability h1 |}, Ok ())
      | Raise e => (h1, Raise e)
      end.

(** [HuntingPhase._cancel] *)
Definition HuntingPhase_cancel (h : HuntingPhase) : HuntingPhase :=
  {| hunting_base := set_cancelled (hunting_base h);
     _probability := _probability h |}.

(** [HuntingPhase._finish] *)
Definition HuntingPhase_finish (h : HuntingPhase) : HuntingPhase :=
  {| hunting_base := set_finished (hunting_base h);
     _probability := _probability h |}.

(** ** ReactionPhase *)

Definition ReactionPhase_init (bot_user : Z) (message : Message)
    (fallback_emoji : option Z) (now : Q) : ReactionPhase :=
  {| reaction_base := NinjaPhase_init now;
     bot_user_id := bot_user;
     _message := message;
     _fallback_emoji := fallback_emoji;
     _new_emoji := None;
     reaction_task := TaskPending;
     _rewarded_users := [];
     _used_emoji := None |}.

Definition with_reaction_base (b : NinjaPhase) (p : ReactionPhase) : ReactionPhase :=
  {| reaction_base := b; bot_user_id := bot_user_id p; _message := _message p;
     _fallback_emoji := _fallback_emoji p; _new_emoji := _new_emoji p;
     reaction_task := reaction_task p; _rewarded_users := _rewarded_users p;
     _used_emoji := _used_emoji p |}.

Definition with_reaction_task (t : Task) (p : ReactionPhase) : ReactionPhase :=
  {| reaction_base := reaction_base p; bot_user_id := bot_user_id p;
     _message := _message p; _fallback_emoji := _fallback_emoji p;
     _new_emoji := _new_emoji p; reaction_task := t;
     _rewarded_users := _rewarded_users p; _used_emoji := _used_emoji p |}.

Definition with_new_emoji (e : option Z) (p : ReactionPhase) : ReactionPhase :=
  {| reaction_base := reaction_base p; bot_user_id := bot_user_id p;
     _message := _message p; _fallback_emoji := _fallback_emoji p;
     _new_emoji := e; reaction_task := reaction_task p;
     _rewarded_users := _rewarded_users p; _used_emoji := _used_emoji p |}.

Definition with_used_emoji (e : option Z) (p : ReactionPhase) : ReactionPhase :=
  {| reaction_base := reaction_base p; bot_user_id := bot_user_id p;
     _message := _message p; _fallback_emoji := _fallback_emoji p;
     _new_emoji := _new_emoji p; reaction_task := reaction_task p;
     _rewarded_users := _rewarded_users p; _used_emoji := e |}.

Definition with_rewarded_users (d : list (Z * ReactionPoints)) (p : ReactionPhase)
  : ReactionPhase :=
  {| reaction_base := reaction_base p; bot_user_id := bot_user_id p;
     _message := _message p; _fallback_emoji := _fallback_emoji p;
     _new_emoji := _new_emoji p; reaction_task := reaction_task p;
     _rewarded_users := d; _used_emoji := _used_emoji p |}.

(** [ReactionPhase._prepare_ninja_emoji]; [created] is what
    [safe_discord_action(create_custom_emoji(...))] evaluates to: the new
    emoji, or [None] when Discord refused. *)
Definition _prepare_ninja_emoji (p : ReactionPhase) (created : option Z)
  : ReactionPhase * result Z :=
  let p1 := with_new_emoji created p in
  match _new_emoji p1 with
  | Some e => (p1, Ok e)
  | None =>
      match _fallback_emoji p1 with
      | None => (p1, Raise NinjaError)
      | Some e => (p1, Ok e)
      end
  end.

(** [ReactionPhase.__aenter__]; [reacted] tells whether
    [message.add_reaction] succeeded. *)
Definition ReactionPhase_aenter (p : ReactionPhase) (created : option Z)
    (reacted : bool) : ReactionPhase * result unit :=
  match _prepare_ninja_emoji p created with
  | (p1, Raise e) => (p1, Raise e)
  | (p1, Ok e) =>
      let p2 := with_used_emoji (Some e) p1 in
      if reacted then (p2, Ok ()) else (p2, Raise DiscordException)
  end.

(** [ReactionPhase.time_remaining] *)
Definition ReactionPhase_time_remaining (p : ReactionPhase) (now : Q) : Q :=
  let time_passed := total_seconds (now - _timestamp (reaction_base p)) in
  py_max_Q (py_sub (py_float TIMEOUT) time_passed) 0.

(** [ReactionPhase.reaction_wait] after its [asyncio.sleep] *)
Definition reaction_wait (p : ReactionPhase) : ReactionPhase * result unit :=
  match set_result (_future (reaction_base p)) None with
  | Ok f => (with_reaction_task TaskDone
               (with_reaction_base (set_future f (reaction_base p)) p), Ok ())
  | Raise e => (with_reaction_task TaskDone p, Raise e)
  end.

(** [ReactionPhase.awarded_points] *)
Definition awarded_points (p : ReactionPhase) : list (Z * ReactionPoints) :=
  _rewarded_users p.

(** [ReactionPhase._cancel] *)
Definition ReactionPhase_cancel (p : ReactionPhase) : ReactionPhase :=
  with_reaction_base (set_cancelled (reaction_base p))
    (with_reaction_task (task_cancel (reaction_task p)) p).

(** [NinjaPhase._finish], inherited by [ReactionPhase] *)
Definition ReactionPhase_finish (p : ReactionPhase) : ReactionPhase :=
  with_reaction_base (set_finished (reaction_base p)) p.

(** [ReactionPhase._relevant_reaction] *)
Definition _relevant_reaction (p : ReactionPhase)
    (reaction : RawReactionActionEvent) : bool :=
  if negb (active (reaction_base p)) || bool_decide (_used_emoji p = None)
  then false
  else if bool_decide (user_id reaction = bot_user_id p) then false
  else if negb (bool_decide (reaction_message_id reaction
                             = message_id (_message p))) then false
  else if bool_decide (reaction_emoji_id reaction = None) then false
  else if negb (bool_decide (reaction_emoji_id reaction = _used_emoji p))
  then false
  else if dict_mem (user_id reaction) (_rewarded_users p) then false
  else true.

(** [ReactionPhase._calculate_win_points], evaluated at the instant [now] *)
Definition _calculate_win_points (p : ReactionPhase) (now : Q) : result Z :=
  seconds_per_point ← SECONDS_PER_POINT;
  lost ← py_truediv (py_sub (py_float TIMEOUT) (ReactionPhase_time_remaining p now))
                    seconds_per_point;
  let lost_points := py_int lost in
  mret (py_max_Z (MAX_POINTS - lost_points) 1).

(** The last statement of [_listen_for_reactions], executed at [now]:
    [self._rewarded_users[user_id] = ReactionPoints(member=member,
    points=self._calculate_win_points())]. *)
Definition reward (p : ReactionPhase) (user : Z) (m : Member) (now : Q)
  : ReactionPhase * result unit :=
  match _calculate_win_points p now with
  | Ok pts =>
      (with_rewarded_users
         (dict_set user {| rp_member := m; points := pts |} (_rewarded_users p))
         p, Ok ())
  | Raise e => (p, Raise e)
  end.

(** How a call of the listener goes on after its start: it returns or
    raises, or it is suspended in [await guild.fetch_member(user_id)]. *)
Inductive listener_outcome : Type :=
| Returned (r : result unit)
| Fetching (user : Z).

(** [ReactionPhase._listen_for_reactions] from its start at [now], up to its
    end or up to [await fetch_member]: an event that carries its member is
    rewarded at once; for one without member the listener is suspended. *)
Definition _listen_for_reactions (p : ReactionPhase)
    (raw_reaction : RawReactionActionEvent) (now : Q)
  : ReactionPhase * listener_outcome :=
  if negb (_relevant_reaction p raw_reaction) then (p, Returned (Ok ()))
  else
    match member raw_reaction with
    | Some m =>
        let '(p', r) := reward p (user_id raw_reaction) m now in
        (p', Returned r)
    | None => (p, Fetching (user_id raw_reaction))
    end.

(** [ReactionPhase._listen_for_reactions] from [await fetch_member] on, when
    the fetch for [user] ends with [fetched] at [now]: the member is rewarded
    with the points of that instant; the conditions of
    [_relevant_reaction] are not looked at again. *)
Definition _listen_for_reactions_resumed (p : ReactionPhase) (user : Z)
    (fetched : result Member) (now : Q) : ReactionPhase * result unit :=
  match fetched with
  | Ok m => reward p user m now
  | Raise e => (p, Raise e)
  end.

(** ** The abstract class [NinjaPhase] and its three subclasses *)

(** The methods that [NinjaPhase.run] calls on [self]; [_cancel] is
    abstract, [_finish] is inherited or overridden. *)
Class NinjaPhaseMethods (P : Type) : Type := {
  phase_base : P -> NinjaPhase;
  _cancel : P -> P;
  _finish : P -> P
}.

Global Instance SleepingPhase_methods : NinjaPhaseMethods SleepingPhase :=
  {| phase_base := sleeping_base;
     _cancel := SleepingPhase_cancel;
     _finish := SleepingPhase_finish |}.

Global Instance HuntingPhase_methods : NinjaPhaseMethods HuntingPhase :=
  {| phase_base := hunting_base;
     _cancel := HuntingPhase_cancel;
     _finish := HuntingPhase_finish |}.

Global Instance ReactionPhase_methods : NinjaPhaseMethods ReactionPhase :=
  {| phase_base := reaction_base;
     _cancel := ReactionPhase_cancel;
     _finish := ReactionPhase_finish |}.

(** A phase of any of the three classes; a method call dispatches on the
    class of the object. *)
Inductive Phase : Type :=
| PSleeping (p : SleepingPhase)
| PHunting (p : HuntingPhase)
| PReaction (p : ReactionPhase).

Global Instance Phase_methods : NinjaPhaseMethods Phase :=
  {| phase_base := fun p =>
       match p with
       | PSleeping s => phase_base s
       | PHunting h => phase_base h
       | PReaction r => phase_base r
       end;
     _cancel := fun p =>
       match p with
       | PSleeping s => PSleeping (_cancel s)
       | PHunting h => PHunting (_cancel h)
       | PReaction r => PReaction (_cancel r)
       end;
     _finish := fun p =>
       match p with
       | PSleeping s => PSleeping (_finish s)
       | PHunting h => PHunting (_finish h)
       | PReaction r => PReaction (_finish r)
       end |}.

(** [NinjaPhase.cancelled], [NinjaPhase.finished], [NinjaPhase.active] *)
Definition cancelled `{NinjaPhaseMethods P} (p : P) : bool :=
  _cancelled (phase_base p).
Definition finished `{NinjaPhaseMethods P} (p : P) : bool :=
  _finished (phase_base p).
Definition phase_active `{NinjaPhaseMethods P} (p : P) : bool :=
  active (phase_base p).

(** [NinjaPhase.run]:
    [try: return await self._future]
    [except asyncio.CancelledError: self._cancel()]
    [finally: self._finish()].
    The value is the result of the future, or [None] after a cancellation. *)
Definition run `{NinjaPhaseMethods P} (p : P) (a : awaited) : P * option Message :=
  match a with
  | AwaitResult v => (_finish p, v)
  | AwaitCancelled => (_finish (_cancel p), None)
  end.

(** Everything that changes a phase after its construction. *)
Inductive phase_step : Phase -> Phase -> Prop :=
| step_run p a :
    phase_step p (fst (run p a))
| step_wake s :
    phase_step (PSleeping s) (PSleeping (fst (SleepingPhase_wake s)))
| step_sleeping_aexit s :
    phase_step (PSleeping s) (PSleeping (SleepingPhase_aexit s))
| step_hunt h message draw :
    phase_step (PHunting h) (PHunting (fst (hunt_for_messages h message draw)))
| step_aenter r created reacted :
    phase_step (PReaction r) (PReaction (fst (ReactionPhase_aenter r created reacted)))
| step_reaction_wait r :
    phase_step (PReaction r) (PReaction (fst (reaction_wait r)))
| step_listen r raw now :
    phase_step (PReaction r) (PReaction (fst (_listen_for_reactions r raw now)))
| step_listen_resumed r user fetched now :
    phase_step (PReaction r)
               (PReaction (fst (_listen_for_reactions_resumed r user fetched now))).

(** What happens to the listener of a reaction phase, in order: a reaction
    is dispatched to it at [now], or the [fetch_member] of a suspended call
    for [user] ends with [fetched] at [now]. *)
Inductive reaction_event : Type :=
| ReactionAdded (raw : RawReactionActionEvent) (now : Q)
| MemberFetched (user : Z) (fetched : result Member) (now : Q).

(** A reaction phase together with the calls of its listener that are
    suspended in [fetch_member], each by the user it fetches. *)
Record listening : Type := {
  listening_phase : ReactionPhase;
  fetching : list Z
}.

(** One suspended call less. *)
Fixpoint resume_one (user : Z) (suspended : list Z) : list Z :=
  match suspended with
  | [] => []
  | u :: suspended' =>
      if decide (u = user) then suspended' else u :: resume_one user suspended'
  end.

(** One event.  Each call of the listener is a task of its own: between its
    start and its end only its [await fetch_member] lets other events in; an
    exception that it raises is logged by the dispatcher.  A fetch can end
    only for a call that is suspended. *)
Definition listen (st : listening) (ev : reaction_event) : listening :=
  match ev with
  | ReactionAdded raw now =>
      match _listen_for_reactions (listening_phase st) raw now with
      | (p, Returned _) => {| listening_phase := p; fetching := fetching st |}
      | (p, Fetching user) =>
          {| listening_phase := p; fetching := fetching st ++ [user] |}
      end
  | MemberFetched user fetched now =>
      if bool_decide (user ∈ fetching st) then
        {| listening_phase :=
             fst (_listen_for_reactions_resumed (listening_phase st) user
                    fetched now);
           fetching := resume_one user (fetching st) |}
      else st
  end.

(** The events of a round, one after the other. *)
Definition listen_all (events : list reaction_event) (st : listening) : listening :=
  fold_left listen events st.

(** A reaction phase with no call of its listener suspended. *)
Definition listening_to (p : ReactionPhase) : listening :=
  {| listening_phase := p; fetching := [] |}.

(** The messages seen during a hunt, each with its [random.random()]. *)
Definition hunt_all (messages : list (Message * Q)) (h : HuntingPhase)
  : HuntingPhase :=
  fold_left (fun q m => fst (hunt_for_messages q m.1 m.2)) messages h.

End Game.

(* ===================================================================== *)
(** * cog.py                                                              *)
(* ===================================================================== *)

(** [LeaderboardEntry = namedtuple("LeaderboardEntry", ("rank", "score", "tied"))] *)
Record LeaderboardEntry : Type := { rank : Z; score : Z; tied : bool }.

(** ** The leaderboard *)

(** [sorted(scores.items(), key=itemgetter(1), reverse=True)]: a stable sort,
    descending by score; entries of equal score keep their order. *)
Fixpoint insert_desc (x : Z * Z) (l : list (Z * Z)) : list (Z * Z) :=
  match l with
  | [] => [x]
  | y :: l' => if x.2 <? y.2 then y :: insert_desc x l' else x :: y :: l'
  end.

Definition sorted_desc (items : list (Z * Z)) : list (Z * Z) :=
  foldr insert_desc [] items.

(** [itertools.groupby(sorted_scores, key=itemgetter(1))]: the maximal runs
    of consecutive entries with the same score, each with its key. *)
Fixpoint groupby (l : list (Z * Z)) : list (Z * list (Z * Z)) :=
  match l with
  | [] => []
  | x :: l' =>
      match groupby l' with
      | (k, g) :: gs =>
          if decide (x.2 = k) then (k, x :: g) :: gs
          else (x.2, [x]) :: (k, g) :: gs
      | [] => [(x.2, [x])]
      end
  end.

(** [len(group)] *)
Definition len {A : Type} (l : list A) : Z := Z.of_nat (length l).

(** The body of [for member in group: ...] *)
Definition rank_group (rank : Z) (group : list (Z * Z))
    (leaderboard : list (Z * LeaderboardEntry)) : list (Z * LeaderboardEntry) :=
  fold_left
    (fun lb (member : Z * Z) =>
       let '(member_id, score) := member in
       let tied := 1 <? len group in
       dict_set member_id {| rank := rank; score := score; tied := tied |} lb)
    group leaderboard.

(** [NinjaHunt._get_sorted_leaderboard], on the dictionary that
    [scoreboard.to_dict()] returned. *)
Definition _get_sorted_leaderboard (scores : list (Z * Z))
  : list (Z * LeaderboardEntry) :=
  match scores with
  | [] => []
  | _ =>
      let sorted_scores := sorted_desc scores in
      let grouped_scores := groupby sorted_scores in
      fst (fold_left
             (fun (st : list (Z * LeaderboardEntry) * Z) (kg : Z * list (Z * Z)) =>
                let '(leaderboard, rank) := st in
                let group := kg.2 in
                (rank_group rank group leaderboard, rank + len group))
             grouped_scores ([], 1))
  end.

(** The ranking as the specification words it: every member of a group gets
    the current rank counter and [tied = (group size > 1)], and the counter
    advances by the size of the group. *)
Fixpoint assign_ranks (counter : Z) (groups : list (list (Z * Z)))
  : list (Z * LeaderboardEntry) :=
  match groups with
  | [] => []
  | g :: gs =>
      map (fun m : Z * Z =>
             (m.1, {| rank := counter; score := m.2;
                      tied := bool_decide (1 < len g) |})) g
      ++ assign_ranks (counter + len g) gs
  end.

Definition leaderboard_spec (scores : list (Z * Z)) : list (Z * LeaderboardEntry) :=
  assign_ranks 1 (map snd (groupby (sorted_desc scores))).

(** The number of entries whose score satisfies [P]. *)
Definition count_scores (P : Z -> bool) (scores : list (Z * Z)) : Z :=
  len (filter (fun e : Z * Z => P e.2 = true) scores).

(** ** The cog and its Redis caches *)

Inductive GameState : Type := NOT_RUNNING | SLEEPING | HUNTING | ACTIVE_REACTION.

(** The state of [NinjaHunt] that the game and the score commands read or
    write: the flags, the [scoreboard] and [blocked_users] caches and the
    ["running"] key of the [config] cache.  ([settings.permissions] and the
    allow/deny keys of [config] are written by the permission commands and by
    [_sync_allowdeny] only, and [stats] is never used.) *)
Record NinjaHunt : Type := {
  _running : bool;
  _state : GameState;
  cog_fallback_emoji : option Z;
  scoreboard : gmap Z Z;
  blocked_users : gmap Z string;
  config_running : option bool
}.

Definition with_scoreboard (sb : gmap Z Z) (c : NinjaHunt) : NinjaHunt :=
  {| _running := _running c; _state := _state c;
     cog_fallback_emoji := cog_fallback_emoji c; scoreboard := sb;
     blocked_users := blocked_users c; config_running := config_running c |}.

Definition with_blocked_users (b : gmap Z string) (c : NinjaHunt) : NinjaHunt :=
  {| _running := _running c; _state := _state c;
     cog_fallback_emoji := cog_fallback_emoji c; scoreboard := scoreboard c;
     blocked_users := b; config_running := config_running c |}.

Definition with_state (g : GameState) (c : NinjaHunt) : NinjaHunt :=
  {| _running := _running c; _state := g;
     cog_fallback_emoji := cog_fallback_emoji c; scoreboard := scoreboard c;
     blocked_users := blocked_users c; config_running := config_running c |}.

Definition with_running (r : bool) (c : NinjaHunt) : NinjaHunt :=
  {| _running := r; _state := _state c;
     cog_fallback_emoji := cog_fallback_emoji c; scoreboard := scoreboard c;
     blocked_users := blocked_users c; config_running := config_running c |}.

Definition with_config_running (r : option bool) (c : NinjaHunt) : NinjaHunt :=
  {| _running := _running c; _state := _state c;
     cog_fallback_emoji := cog_fallback_emoji c; scoreboard := scoreboard c;
     blocked_users := blocked_users c; config_running := r |}.

Definition with_fallback_emoji (e : option Z) (c : NinjaHunt) : NinjaHunt :=
  {| _running := _running c; _state := _state c;
     cog_fallback_emoji := e; scoreboard := scoreboard c;
     blocked_users := blocked_users c; config_running := config_running c |}.

(** [RedisCache.increment(key, amount)] of the collaborating store: the value
    under [key] grows by [amount]; a key without value counts as 0. *)
Definition RedisCache_increment (key amount : Z) (cache : gmap Z Z) : gmap Z Z :=
  <[key := default 0 (cache !! key) + amount]> cache.

(** [NinjaHunt._process_scores] *)
Definition _process_scores (scores : list (Z * ReactionPoints)) (c : NinjaHunt)
  : NinjaHunt :=
  fold_left
    (fun c' (item : Z * ReactionPoints) =>
       let '(member_id, score) := item in
       with_scoreboard
         (RedisCache_increment member_id (points score) (scoreboard c')) c')
    scores c.

(** [NinjaHunt._filter_blocked_users] *)
Definition _filter_blocked_users (scores : list (Z * ReactionPoints))
    (c : NinjaHunt) : list (Z * ReactionPoints) :=
  let blocked := blocked_users c in
  filter (fun item : Z * ReactionPoints => blocked !! item.1 = None) scores.

(** [NinjaHunt._process_results]; [_send_embed] posts to Discord and changes
    nothing of the cog. *)
Definition _process_results (scores : list (Z * ReactionPoints)) (c : NinjaHunt)
  : NinjaHunt :=
  let scores := _filter_blocked_users scores c in
  _process_scores scores c.

(** ** The commands *)

(** How the confirmation dialog of [game_clear] ends. *)
Inductive confirmation : Type :=
| ReactedConfirm
| ReactedDeny
| ReactedOther
| TimedOut.

(** The commands of the cog, each with what it reads from its context;
    [game_done] is [self._game.done()] at the time of the command. *)
Inductive command : Type :=
| CmdHelp
| CmdNinja
| CmdPersonalScore (author : Z)
| CmdLeaderboard
| CmdAdmin
| CmdBlock (user : Z)
| CmdUnblock (user : Z)
| CmdBlocked
| CmdGame (game_done : bool)
| CmdGameStatus (game_done : bool)
| CmdGameStop (game_done : bool)
| CmdGameStart (game_done : bool)
| CmdGameClear (answer : confirmation)
| CmdPermissions
| CmdPermissionsAdd (list_type snowflake : string)
| CmdPermissionsRemove (list_type snowflake : string)
| CmdPermissionsList (list_type : string).

(** [NinjaHunt.block] *)
Definition block (user : Z) (c : NinjaHunt) : NinjaHunt :=
  let c1 := with_blocked_users (<[user := EmptyString]> (blocked_users c)) c in
  with_scoreboard (delete user (scoreboard c1)) c1.

(** [NinjaHunt.unblock] *)
Definition unblock (user : Z) (c : NinjaHunt) : NinjaHunt :=
  with_blocked_users (delete user (blocked_users c)) c.

(** [NinjaHunt.game_stop] *)
Definition game_stop (game_done : bool) (c : NinjaHunt) : NinjaHunt :=
  if negb (_running c) && game_done then c
  else
    let c1 := with_running false c in
    let c2 := with_config_running (Some false) c1 in
    with_state NOT_RUNNING c2.

(** [NinjaHunt.game_start] *)
Definition game_start (game_done : bool) (c : NinjaHunt) : NinjaHunt :=
  if _running c && negb game_done then c
  else
    let c1 := with_running true c in
    with_config_running (Some true) c1.

(** [NinjaHunt.game_clear] *)
Definition game_clear (answer : confirmation) (c : NinjaHunt) : NinjaHunt :=
  match answer with
  | TimedOut => c
  | ReactedDeny => c
  | ReactedConfirm => with_scoreboard ∅ c
  | ReactedOther => c
  end.

(** One command, on the state of the cog.  The informational commands only
    send messages; the permission commands write [settings.permissions] and
    the allow/deny keys of [config]. *)
Definition run_command (cmd : command) (c : NinjaHunt) : NinjaHunt :=
  match cmd with
  | CmdBlock user => block user c
  | CmdUnblock user => unblock user c
  | CmdGameStop game_done => game_stop game_done c
  | CmdGameStart game_done => game_start game_done c
  | CmdGameClear answer => game_clear answer c
  | CmdHelp | CmdNinja | CmdPersonalScore _ | CmdLeaderboard | CmdAdmin
  | CmdBlocked | CmdGame _ | CmdGameStatus _
  | CmdPermissions | CmdPermissionsAdd _ _ | CmdPermissionsRemove _ _
  | CmdPermissionsList _ => c
  end.

(** [NinjaHunt.cog_unload] *)
Definition cog_unload (c : NinjaHunt) : NinjaHunt := with_state NOT_RUNNING c.

(** [NinjaHunt.on_guild_ready], as far as the cog state above goes. *)
Definition on_guild_ready (fallback : option Z) (c : NinjaHunt) : NinjaHunt :=
  with_fallback_emoji fallback c.

(** ** The game loop *)

(** Whether [$admin game stop] is executed while the game task is suspended
    at an [await]: it clears [_running] and cancels the game task, so that
    [asyncio.CancelledError] is raised at that [await].  In [run()] of a
    phase, which waits in [await self._future], the exception is caught;
    anywhere else it ends the game task. *)
Inductive disturbance : Type := Undisturbed | StopRequested.

(** Where a stop request finds the game task in [_process_results]: not at
    all; in [blocked_users.to_dict()]; in a [scoreboard.increment], after
    [applied] increments have taken effect; or in [summary_channel.send]. *)
Inductive results_disturbance : Type :=
| ResultsUndisturbed
| StopWhileFiltering
| StopWhileScoring (applied : nat)
| StopWhileSending.

(** What the world contributes to one pass of [_game_loop]. *)
Record round_env : Type := {
  env_entropy : Z;
  env_sleep_start : Q;
  (** a stop request during [run()] of the sleeping phase *)
  env_sleeping : disturbance;
  (** a stop request during [_sync_allowdeny] *)
  env_syncing : disturbance;
  (** whether [_sync_allowdeny] returns or raises *)
  env_sync_allowdeny : result unit;
  env_hunt_start : Q;
  (** the message that the hunt selects, or [None] when a stop request
      cancels [run()] of the hunting phase *)
  env_hunting : option Message;
  env_bot_user : Z;
  env_reaction_start : Q;
  (** a stop request during [__aenter__] of the reaction phase *)
  env_entering : disturbance;
  env_created_emoji : option Z;
  env_reacted : bool;
  (** what happens to the listener until [run()] returns *)
  env_reactions : list reaction_event;
  (** a stop request during [run()] of the reaction phase *)
  env_reaction : disturbance;
  (** what happens to the listener between the return of [run()] and the
      reading of the scores in [_filter_blocked_users] *)
  env_late_reactions : list reaction_event;
  (** a stop request during [__aexit__] of the reaction phase *)
  env_exiting : disturbance;
  env_processing : results_disturbance
}.

Section Cog.
Variable settings : Settings.

(** [async with SleepingPhase() as sleeping_phase: await sleeping_phase.run()] *)
Definition sleeping_block (env : round_env) (c : NinjaHunt)
  : NinjaHunt * result SleepingPhase :=
  match SleepingPhase_init settings (env_entropy env) (env_sleep_start env) with
  | Raise e => (c, Raise e)
  | Ok phase =>
      match env_sleeping env with
      | Undisturbed =>
          let phase := fst (run (fst (SleepingPhase_wake phase)) (AwaitResult None)) in
          (c, Ok (SleepingPhase_aexit phase))
      | StopRequested =>
          let c := game_stop false c in
          let phase := fst (run phase AwaitCancelled) in
          (c, Ok (SleepingPhase_aexit phase))
      end
  end.

(** [async with HuntingPhase(bot=self._bot) as hunting_phase:
     target_message = await hunting_phase.run()] *)
Definition hunting_block (env : round_env) (c : NinjaHunt)
  : NinjaHunt * option Message :=
  let phase := HuntingPhase_init (env_hunt_start env) in
  match env_hunting env with
  | Some message => (c, snd (run phase (AwaitResult (Some message))))
  | None => (game_stop false c, snd (run phase AwaitCancelled))
  end.

(** The reaction phase from the end of [__aenter__] to the reading of its
    scores: the listener is fed while [run()] waits, [run()] returns with
    the result of the timer or is cancelled by a stop request, and the
    listener is fed again until the scores are read. *)
Definition reaction_run (env : round_env) (entered : ReactionPhase)
    (c : NinjaHunt) : NinjaHunt * ReactionPhase :=
  let st := listen_all settings (env_reactions env) (listening_to entered) in
  let '(c, phase) :=
    match env_reaction env with
    | Undisturbed =>
        (c, fst (run (fst (reaction_wait (listening_phase st))) (AwaitResult None)))
    | StopRequested =>
        (game_stop false c, fst (run (listening_phase st) AwaitCancelled))
    end in
  let st := listen_all settings (env_late_reactions env)
              {| listening_phase := phase; fetching := fetching st |} in
  (c, listening_phase st).

(** [async with ReactionPhase(...) as reaction_phase: await reaction_phase.run()] *)
Definition reaction_block (env : round_env) (target_message : option Message)
    (c : NinjaHunt) : NinjaHunt * result ReactionPhase :=
  match target_message with
  | None => (c, Raise AttributeError)
  | Some message =>
      let phase := ReactionPhase_init (env_bot_user env) message
                     (cog_fallback_emoji c) (env_reaction_start env) in
      match env_entering env with
      | StopRequested => (game_stop false c, Raise CancelledError)
      | Undisturbed =>
          match ReactionPhase_aenter phase (env_created_emoji env) (env_reacted env) with
          | (_, Raise e) => (c, Raise e)
          | (phase, Ok _) =>
              let '(c, phase) := reaction_run env phase c in
              match env_exiting env with
              | StopRequested => (game_stop false c, Raise CancelledError)
              | Undisturbed => (c, Ok phase)
              end
          end
      end
  end.

(** [await self._process_results(scores=..., target_channel=...)] in the
    game task. *)
Definition process_results_step (env : round_env)
    (scores : list (Z * ReactionPoints)) (c : NinjaHunt) : NinjaHunt * result unit :=
  match env_processing env with
  | ResultsUndisturbed => (_process_results scores c, Ok ())
  | StopWhileFiltering => (game_stop false c, Raise CancelledError)
  | StopWhileScoring applied =>
      let scores := _filter_blocked_users scores c in
      (game_stop false (_process_scores (take applied scores) c),
       Raise CancelledError)
  | StopWhileSending =>
      (game_stop false (_process_results scores c), Raise CancelledError)
  end.

(** [NinjaHunt._game_loop] *)
Definition _game_loop (env : round_env) (c : NinjaHunt) : NinjaHunt * result unit :=
  let c := with_state SLEEPING c in
  match sleeping_block env c with
  | (c, Raise e) => (c, Raise e)
  | (c, Ok _) =>
      if negb (_running c) then (c, Ok ())
      else
        match env_syncing env with
        | StopRequested => (game_stop false c, Raise CancelledError)
        | Undisturbed =>
            match env_sync_allowdeny env with
            | Raise e => (c, Raise e)
            | Ok _ =>
                let c := with_state HUNTING c in
                let '(c, target_message) := hunting_block env c in
                if negb (_running c) then (c, Ok ())
                else
                  let c := with_state ACTIVE_REACTION c in
                  match reaction_block env target_message c with
                  | (c, Raise e) => (c, Raise e)
                  | (c, Ok reaction_phase) =>
                      process_results_step env (awarded_points reaction_phase) c
                  end
            end
        end
  end.

(** [NinjaHunt.game] after the guild is ready, over the passes described by
    [envs]: [while self._running: try: await self._game_loop()
    except Exception: log].  A [CancelledError] is no [Exception]: it ends
    the game task. *)
Fixpoint NinjaHunt_game (envs : list round_env) (c : NinjaHunt) : NinjaHunt :=
  match envs with
  | [] => c
  | env :: envs' =>
      if _running c then
        match _game_loop env c with
        | (c', Raise CancelledError) => c'
        | (c', _) => NinjaHunt_game envs' c'
        end
      else c
  end.

End Cog.

(* ===================================================================== *)
(** * Auxiliary definitions used by the statements                        *)
(* ===================================================================== *)

(** The length of one scoring interval, [T / P], as a rational. *)
Definition seconds_per_point (settings : Settings) : Q :=
  (inject_Z (TIMEOUT settings) / inject_Z (MAX_POINTS settings))%Q.

(** The time elapsed since the start of a reaction phase, as a rational. *)
Definition time_passed (p : ReactionPhase) (now : Q) : Q :=
  (now - _timestamp (reaction_base p))%Q.

(** The float [(TIMEOUT - self.time_remaining) / SECONDS_PER_POINT] of
    [_calculate_win_points], for a window and a number of points that are
    not zero. *)
Definition lost_quotient (settings : Settings) (p : ReactionPhase) (now : Q) : Q :=
  round64
    (py_sub (py_float (TIMEOUT settings))
            (ReactionPhase_time_remaining settings p now)
     / round64 (seconds_per_point settings)).

(** A configuration with the given game settings, the default permission
    groups and guild 1. *)
Definition settings_with (g : Game) : Settings :=
  {| permissions := {| categories := AllowDenyGroup_default;
                       channels := AllowDenyGroup_default |};
     game := g;
     guild := {| guild_id := 1; emoji_id := 2 |} |}.

(** [reaction_timeout = T], [max_points = P], everything else fixed. *)
Definition scoring_settings (T P : Z) : Settings :=
  settings_with {| public_only := false; cooldown := 5; max_time_jitter := 10;
                   probability_multiplier := 1; max_points := P;
                   reaction_timeout := T; auto_start := true |}.

(** [cooldown] and [max_time_jitter] as given, everything else fixed. *)
Definition sleeping_settings (cooldown max_jitter : Z) : Settings :=
  settings_with {| public_only := false; cooldown := cooldown;
                   max_time_jitter := max_jitter;
                   probability_multiplier := 1; max_points := 10;
                   reaction_timeout := 60; auto_start := true |}.

(** [public_only] and [probability_multiplier] as given, everything else
    fixed (default permission groups: every channel is allowed). *)
Definition hunting_settings (public : bool) (multiplier : Z) : Settings :=
  settings_with {| public_only := public; cooldown := 5; max_time_jitter := 10;
                   probability_multiplier := multiplier; max_points := 10;
                   reaction_timeout := 60; auto_start := true |}.

(** [min(k / 100, 1.0)], the value of [ninja_probability] at counter [k]. *)
Definition capped_probability (k : Z) : Q :=
  py_min_Q (round64 (inject_Z k / 100)) 1.

(** The value that [random.random()] is compared with when the counter of
    the hunting phase stands at [k]: the float
    [P_MULTIPLIER * min(k / 100, 1.0)]. *)
Definition selection_threshold (settings : Settings) (k : Z) : Q :=
  py_mul (py_float (P_MULTIPLIER settings)) (capped_probability k).


(** A running cog with the given scoreboard, nobody blocked, and the
    fallback emoji 2. *)
Definition running_cog (sb : gmap Z Z) : NinjaHunt :=
  {| _running := true; _state := NOT_RUNNING;
     cog_fallback_emoji := Some 2; scoreboard := sb; blocked_users := ∅;
     config_running := Some true |}.

(** Member [u] adds the marker emoji 2 to [example_message]; the event
    carries the member. *)
Definition marker_reaction (u : Z) : RawReactionActionEvent :=
  {| user_id := u; reaction_message_id := 100; reaction_emoji_id := Some 2;
     member := Some {| member_ident := u |} |}.

(** Member [u] adds the marker emoji 2 to [example_message]; the event
    carries no member, so that the listener fetches it. *)
Definition bare_marker_reaction (u : Z) : RawReactionActionEvent :=
  {| user_id := u; reaction_message_id := 100; reaction_emoji_id := Some 2;
     member := None |}.

(** The points of a round applied to a score mapping, one
    [scoreboard.increment] per member. *)
Definition apply_scores (scores : list (Z * ReactionPoints)) (sb : gmap Z Z)
  : gmap Z Z :=
  fold_left
    (fun sb' (item : Z * ReactionPoints) =>
       RedisCache_increment item.1 (points item.2) sb')
    scores sb.

(** The reaction phase of a pass on [message], after [__aenter__]. *)
Definition entered_reaction_phase (env : round_env) (message : Message)
    (c : NinjaHunt) : ReactionPhase * result unit :=
  ReactionPhase_aenter
    (ReactionPhase_init (env_bot_user env) message (cog_fallback_emoji c)
       (env_reaction_start env))
    (env_created_emoji env) (env_reacted env).

(** The points that the reactions of a pass are awarded. *)
Definition round_scores (settings : Settings) (env : round_env)
    (message : Message) (c : NinjaHunt) : list (Z * ReactionPoints) :=
  awarded_points
    (snd (reaction_run settings env
            (fst (entered_reaction_phase env message c)) c)).

(** A message of guild 1 in channel 10 of category 20. *)
Definition example_message : Message :=
  {| message_id := 100; message_guild := Some 1; author_bot := false;
     channel_id := 10; category_id := Some 20;
     everyone_read_messages := true; everyone_send_messages := true |}.

(** A message of guild 1 in a channel that members with only the default
    role cannot read. *)
Definition private_channel_message : Message :=
  {| message_id := 101; message_guild := Some 1; author_bot := false;
     channel_id := 11; category_id := Some 20;
     everyone_read_messages := false; everyone_send_messages := true |}.

(** A reaction phase on [example_message], started at instant 0, with the
    fallback emoji 2 in use. *)
Definition example_reaction_phase : ReactionPhase :=
  with_used_emoji (Some 2) (ReactionPhase_init 9 example_message (Some 2) 0).

(** A pass in which [example_message] is hunted, member 7 reacts with the
    marker 6 seconds into the reaction phase, and the three phases end as
    [sleeping], [hunting_stopped] and [reaction] say. *)
Definition example_round (sleeping : disturbance) (hunting_stopped : bool)
    (reaction : disturbance) : round_env :=
  {| env_entropy := 0;
     env_sleep_start := 0;
     env_sleeping := sleeping;
     env_syncing := Undisturbed;
     env_sync_allowdeny := Ok ();
     env_hunt_start := 20;
     env_hunting := if hunting_stopped then None else Some example_message;
     env_bot_user := 9;
     env_reaction_start := 30;
     env_entering := Undisturbed;
     env_created_emoji := None;
     env_reacted := true;
     env_reactions := [ReactionAdded (marker_reaction 7) 36];
     env_reaction := reaction;
     env_late_reactions := [];
     env_exiting := Undisturbed;
     env_processing := ResultsUndisturbed |}.

(** [example_round] with no stop request during [run()] of a phase, a stop
    request during [__aexit__] of the reaction phase if [exiting] says so,
    and [processing] for [_process_results]. *)
Definition example_round_end (exiting : disturbance)
    (processing : results_disturbance) : round_env :=
  {| env_entropy := 0;
     env_sleep_start := 0;
     env_sleeping := Undisturbed;
     env_syncing := Undisturbed;
     env_sync_allowdeny := Ok ();
     env_hunt_start := 20;
     env_hunting := Some example_message;
     env_bot_user := 9;
     env_reaction_start := 30;
     env_entering := Undisturbed;
     env_created_emoji := None;
     env_reacted := true;
     env_reactions := [ReactionAdded (marker_reaction 7) 36];
     env_reaction := Undisturbed;
     env_late_reactions := [];
     env_exiting := exiting;
     env_processing := processing |}.

(** The order of a list sorted descending by score: [a] may stand before
    [b]. *)
Definition score_ge (a b : Z * Z) : Prop := b.2 <= a.2.

(** Groups of strictly decreasing score, none empty, each of one score. *)
Inductive desc_groups : list (Z * list (Z * Z)) -> Prop :=
| desc_groups_nil : desc_groups []
| desc_groups_cons k g gs :
    g <> [] ->
    Forall (fun e : Z * Z => e.2 = k) g ->
    Forall (fun kg : Z * list (Z * Z) => kg.1 < k) gs ->
    desc_groups gs ->
    desc_groups ((k, g) :: gs).

(* ===================================================================== *)
(** * game.py and cog.py: the functions around the phases and the scores  *)
(* ===================================================================== *)

(** The calls that [ReactionPhase.__aexit__] makes to Discord, in order. *)
Inductive discord_call : Type :=
| ClearReaction (message : Z) (emoji : option Z)
| DeleteEmoji (emoji : Z).

(** [ReactionPhase.__aexit__]: clear the reaction of [_used_emoji] on the
    message, then delete [_new_emoji] if there is one (both through
    [safe_discord_action]); the listener is removed after the delay. *)
Definition ReactionPhase_aexit (p : ReactionPhase) : list discord_call :=
  ClearReaction (message_id (_message p)) (_used_emoji p)
  :: match _new_emoji p with
     | Some e => [DeleteEmoji e]
     | None => []
     end.

(** [NinjaHunt.game_status]: the value of [is_running]. *)
Definition game_status (game_done : bool) (c : NinjaHunt) : bool :=
  _running c && negb game_done.

(** [NinjaHunt.game] from its first line: the running flag is read from the
    ["running"] key of [config], with [auto_start] as the default, and the
    passes follow while it is set. *)
Definition NinjaHunt_game_task (settings : Settings) (envs : list round_env)
    (c : NinjaHunt) : NinjaHunt :=
  let c := with_running (default (auto_start (game settings)) (config_running c)) c in
  NinjaHunt_game settings envs c.

(** [top_ten] of [NinjaHunt.leaderboard]: [list(leaderboard.items())[:11]]. *)
Definition top_ten (scores : list (Z * Z)) : list (Z * LeaderboardEntry) :=
  take 11 (_get_sorted_leaderboard scores).

(** [discord.Embed], as far as the summaries differ: title, description and
    colour. *)
Record Embed : Type := {
  embed_title : string;
  embed_description : string;
  embed_colour : Z * Z * Z
}.

(** The line feed of a Python string literal. *)
Definition newline : string := String (Ascii.ascii_of_nat 10) EmptyString.

Section Summary.
(** [channel.mention] of the target channel, [u.mention] of a member and
    [str] of an integer, as the f-strings render them. *)
Variable channel_mention : string.
Variable member_mention : Member -> string.
Variable str : Z -> string.
(** [NINJA_EMOJI = settings.guild.emoji_full] *)
Variable NINJA_EMOJI : string.

(** [NinjaHunt._undetected_appearance] *)
Definition _undetected_appearance : Embed :=
  let undetected :=
    ("No one noticed " ++ NINJA_EMOJI ++ " when "
     ++ "it appeared in " ++ channel_mention ++ ".")%string in
  {| embed_title := "Ninja Duck sneaked by undetected!";
     embed_description := undetected;
     embed_colour := (45, 45, 45) |}.

(** [rewarded_users] of [_detected_appearance], before the cut. *)
Definition rewarded_users_joined (scores : list (Z * ReactionPoints)) : string :=
  String.concat ", "
    (map (fun rp : ReactionPoints =>
            (member_mention (rp_member rp) ++ " (+" ++ str (points rp) ++ ")")%string)
         (map snd scores)).

(** [if len(rewarded_users) >= 1800: rewarded_users = rewarded_users[:1800] + "..."] *)
Definition cut_rewarded_users (rewarded_users : string) : string :=
  if (1800 <=? String.length rewarded_users)%nat
  then (String.substring 0 1800 rewarded_users ++ "...")%string
  else rewarded_users.

(** [NinjaHunt._detected_appearance] *)
Definition _detected_appearance (scores : list (Z * ReactionPoints)) : Embed :=
  let '(pronoun, noun) :=
    if (length scores =? 1)%nat then ("This", "member")%string
    else ("These", "members")%string in
  let rewarded_users := cut_rewarded_users (rewarded_users_joined scores) in
  let description :=
    ("Ninja Duck appeared in " ++ channel_mention ++ "." ++ newline ++ newline
     ++ pronoun ++ " " ++ noun ++ " earned points: " ++ rewarded_users)%string in
  {| embed_title := ("Ninja Duck was detected by " ++ str (len scores) ++ " "
                     ++ noun ++ "!")%string;
     embed_description := description;
     embed_colour := (214, 40, 24) |}.

(** [NinjaHunt._send_embed]: the embed that is sent to the summary channel,
    or [None] when there is no summary channel. *)
Definition _send_embed (summary_channel : option Z)
    (scores : list (Z * ReactionPoints)) : option Embed :=
  match summary_channel with
  | None => None
  | Some _ =>
      match scores with
      | [] => Some _undetected_appearance
      | _ => Some (_detected_appearance scores)
      end
  end.

(** The embed of [NinjaHunt._process_results]: [_send_embed] on the scores
    that [_filter_blocked_users] left. *)
Definition round_summary (summary_channel : option Z)
    (scores : list (Z * ReactionPoints)) (c : NinjaHunt) : option Embed :=
  _send_embed summary_channel (_filter_blocked_users scores c).

End Summary.

(* ===================================================================== *)
(** * cog.py: the allow and deny sets in the [config] cache               *)
(* ===================================================================== *)

(** The comma. *)
Definition comma : Ascii.ascii := Ascii.ascii_of_nat 44.

(** [s.split(",")]: the pieces between the commas, at least one. *)
Fixpoint split_comma (s : string) : list string :=
  match s with
  | EmptyString => [EmptyString]
  | String ch s' =>
      if Ascii.eqb ch comma then EmptyString :: split_comma s'
      else match split_comma s' with
           | piece :: pieces => String ch piece :: pieces
           | [] => [String ch EmptyString]
           end
  end.

(** [",".join(pieces)] *)
Definition join_comma (pieces : list string) : string :=
  String.concat (String comma EmptyString) pieces.

(** Whether a string holds a comma. *)
Fixpoint has_comma (s : string) : bool :=
  match s with
  | EmptyString => false
  | String ch s' => Ascii.eqb ch comma || has_comma s'
  end.

(** [if e]: a string is true when it is not empty. *)
Definition nonempty (s : string) : bool :=
  match s with EmptyString => false | _ => true end.

(** The two groups of [settings.permissions] and the two sets of a group. *)
Inductive group_name : Type := Categories | Channels.
Inductive set_type : Type := Allow | Deny.

Global Instance group_name_eq_dec : EqDecision group_name.
Proof. solve_decision. Defined.

Global Instance set_type_eq_dec : EqDecision set_type.
Proof. solve_decision. Defined.

(** [f"{group_name}_{set_type}"] *)
Definition cache_key (g : group_name) (t : set_type) : string :=
  match g, t with
  | Categories, Allow => "categories_allow"
  | Categories, Deny => "categories_deny"
  | Channels, Allow => "channels_allow"
  | Channels, Deny => "channels_deny"
  end.

(** [getattr(settings.permissions, group_name)] and [getattr(group, set_type)] *)
Definition get_group (g : group_name) (p : Permissions) : AllowDenyGroup :=
  match g with Categories => categories p | Channels => channels p end.

Definition get_set (t : set_type) (grp : AllowDenyGroup) : AllowDenySet :=
  match t with Allow => allow grp | Deny => deny grp end.

(** [setattr(group, set_type, value)] on the group [group_name] of the
    permissions. *)
Definition set_set (g : group_name) (t : set_type) (v : AllowDenySet)
    (p : Permissions) : Permissions :=
  let grp := get_group g p in
  let grp' := match t with
              | Allow => {| allow := v; deny := deny grp |}
              | Deny => {| allow := allow grp; deny := v |}
              end in
  match g with
  | Categories => {| categories := grp'; channels := channels p |}
  | Channels => {| categories := categories p; channels := grp' |}
  end.

(** The permissions in memory and the [config] cache, which the
    synchronisation reads and writes. *)
Record sync_state : Type := {
  sync_permissions : Permissions;
  sync_config : gmap string string
}.

Section Sync.
(** [str] on an integer and [int] on a string ([None]: [ValueError]). *)
Variable str : Z -> string.
Variable int : string -> option Z.

(** [str(e)] for an element of an allow or deny set. *)
Definition str_element (e : AllowDenyElement) : string :=
  match e with EInt z => str z | EStr s => s end.

(** [[int(e) for e in pieces]] *)
Fixpoint int_all (pieces : list string) : result (list Z) :=
  match pieces with
  | [] => Ok []
  | e :: pieces' =>
      match int e with
      | None => Raise ValueError
      | Some z => zs ← int_all pieces'; mret (z :: zs)
      end
  end.

(** [[int(e) for e in cached_set.split(",") if e]] *)
Definition parse_cached (cached_set : string) : result (list Z) :=
  int_all (filter (fun e => nonempty e = true) (split_comma cached_set)).

(** [NinjaHunt._sync_set] *)
Definition _sync_set (g : group_name) (t : set_type) (st : sync_state)
  : sync_state * result unit :=
  let key := cache_key g t in
  match sync_config st !! key with
  | Some cached_set =>
      match parse_cached cached_set with
      | Ok ids =>
          ({| sync_permissions :=
                set_set g t {| _set := map EInt ids |} (sync_permissions st);
              sync_config := sync_config st |}, Ok ())
      | Raise e => (st, Raise e)
      end
  | None =>
      let config_set := get_set t (get_group g (sync_permissions st)) in
      ({| sync_permissions := sync_permissions st;
          sync_config :=
            <[key := join_comma (map str_element (_set config_set))]>
              (sync_config st) |}, Ok ())
  end.

(** Two steps in a row; the second is skipped when the first raises. *)
Definition and_then (first second : sync_state -> sync_state * result unit)
    (st : sync_state) : sync_state * result unit :=
  match first st with
  | (st', Ok _) => second st'
  | (st', Raise e) => (st', Raise e)
  end.

(** [NinjaHunt._sync_allowdeny] *)
Definition _sync_allowdeny : sync_state -> sync_state * result unit :=
  and_then (_sync_set Categories Allow)
    (and_then (_sync_set Categories Deny)
       (and_then (_sync_set Channels Allow) (_sync_set Channels Deny))).

(** [config.set(list_type, value)] as a step *)
Definition config_set (list_type value : string) (st : sync_state)
  : sync_state * result unit :=
  ({| sync_permissions := sync_permissions st;
      sync_config := <[list_type := value]> (sync_config st) |}, Ok ()).

(** [f"{cached_permissions}"], [None] being rendered as ["None"]. *)
Definition format_cached (cached_permissions : option string) : string :=
  match cached_permissions with Some s => s | None => "None" end.

(** [NinjaHunt.add_permission].  The test
    [if not self._valid_add_remove_params(...)] is made on a coroutine that
    is not awaited, which is true as any object, so its branch is never
    taken. *)
Definition add_permission (list_type snowflake : string)
  : sync_state -> sync_state * result unit :=
  and_then _sync_allowdeny
    (and_then
       (fun st =>
          let cached_permissions := sync_config st !! list_type in
          let new_permissions :=
            (format_cached cached_permissions ++ String comma EmptyString
             ++ snowflake)%string in
          config_set list_type new_permissions st)
       _sync_allowdeny).

End Sync.

(* ===================================================================== *)
(** * utils/checks.py: where a command may be used                       *)
(* ===================================================================== *)

(** What the check reads of a command context: the id of the channel and
    the ids of the roles of the author; [None] when the author has no
    attribute [roles] (a user in a direct message). *)
Record Context : Type := {
  ctx_channel_id : Z;
  ctx_author_roles : option (list Z)
}.

Section Checks.
(** [BYPASS_ROLES = settings.guild.bypass_roles] and
    [settings.guild.commands_channels] *)
Variable BYPASS_ROLES : list Z.
Variable commands_channels : list Z.

(** [in_channel_check] *)
Definition in_channel_check (ctx : Context) (channels : list Z)
    (staff_bypass : bool) : bool :=
  if match channels with
     | [] => false
     | _ => bool_decide (ctx_channel_id ctx ∈ channels)
     end
  then true
  else
    let role_checks :=
      map (fun r => bool_decide (r ∈ BYPASS_ROLES))
          (match ctx_author_roles ctx with Some roles => roles | None => [] end) in
    if staff_bypass && existsb (fun b => b) role_checks then true
    else false.

(** The predicate of [in_commands_channel(staff_bypass=...)] *)
Definition in_commands_channel (staff_bypass : bool) (ctx : Context) : bool :=
  in_channel_check ctx commands_channels staff_bypass.

End Checks.

(** [str] and [int] agree on [z]: [int(str(z))] is [z], and [str(z)] is
    not empty and holds no comma. *)
Definition renders (str : Z -> string) (int : string -> option Z) (z : Z) : Prop :=
  int (str z) = Some z /\ has_comma (str z) = false /\ nonempty (str z) = true.

(** Decimal numerals, the strings that [str] gives for integers, and their
    reading. *)
Definition decimal_str (z : Z) : string :=
  DecimalString.NilZero.string_of_int (Z.to_int z).

Definition decimal_int (s : string) : option Z :=
  option_map Z.of_int (DecimalString.NilZero.int_of_string s).

(** Permissions with the default categories (everything allowed) and the
    channels 12 and 345 allowed, before anything was cached. *)
Definition example_sync_state : sync_state :=
  {| sync_permissions :=
       {| categories := AllowDenyGroup_default;
          channels := {| allow := {| _set := [EInt 12; EInt 345] |};
                         deny := {| _set := [] |} |} |};
     sync_config := ∅ |}.

(** The default permissions with a list cached for each of the four sets. *)
Definition example_cached_state : sync_state :=
  {| sync_permissions :=
       {| categories := AllowDenyGroup_default;
          channels := AllowDenyGroup_default |};
     sync_config :=
       <["categories_allow" := "7"%string]>
         (<["categories_deny" := EmptyString]>
            (<["channels_allow" := "12,345"%string]>
               (<["channels_deny" := "9"%string]> ∅))) |}.

(** The integers of the lists of [example_cached_state]. *)
Definition example_cached_ids (g : group_name) (t : set_type) : list Z :=
  match g, t with
  | Categories, Allow => [7]
  | Categories, Deny => []
  | Channels, Allow => [12; 345]
  | Channels, Deny => [9]
  end.

(* ===================================================================== *)
(** * Facts about the Python primitives                                   *)
(* ===================================================================== *)

(** ** Rounding to the nearest double *)

Lemma round_half_even_bounds (t : Q) :
  Qfloor t <= round_half_even t <= Qfloor t + 1.
Proof.
  unfold round_half_even. cbv zeta.
  destruct (t - inject_Z (Qfloor t) ?= 1 # 2)%Q; [destruct (Z.even _) | |]; lia.
Qed.

Lemma round_half_even_mono (t u : Q) :
  (t <= u)%Q -> round_half_even t <= round_half_even u.
Proof.
  intros H. pose proof (Qfloor_resp_le _ _ H) as Hf.
  pose proof (round_half_even_bounds t) as Ht.
  pose proof (round_half_even_bounds u) as Hu.
  destruct (Z.eq_dec (Qfloor t) (Qfloor u)) as [E | E]; [| lia].
  unfold round_half_even in *. cbv zeta in *. rewrite <- E in *.
  destruct (Qcompare_spec (t - inject_Z (Qfloor t)) (1 # 2)) as [H1 | H1 | H1];
    destruct (Qcompare_spec (u - inject_Z (Qfloor t)) (1 # 2)) as [H2 | H2 | H2];
    try lia; try (exfalso; lra); destruct (Z.even (Qfloor t)); lia.
Qed.

Lemma round_half_even_comp (t u : Q) :
  (t == u)%Q -> round_half_even t = round_half_even u.
Proof.
  intros H. apply Z.le_antisymm; apply round_half_even_mono; lra.
Qed.

Lemma round_half_even_Z (n : Z) : round_half_even (inject_Z n) = n.
Proof.
  unfold round_half_even. cbv zeta. rewrite Qfloor_Z.
  destruct (Qcompare_spec (inject_Z n - inject_Z n) (1 # 2)) as [H1 | H1 | H1];
    try (exfalso; lra). reflexivity.
Qed.

Lemma two_pow_pos (k : Z) : (0 < 2 ^ k)%Q.
Proof. apply Qpower_0_lt. reflexivity. Qed.

Lemma two_pow_plus (a b : Z) : (2 ^ (a + b) == 2 ^ a * 2 ^ b)%Q.
Proof. apply Qpower_plus. discriminate. Qed.

Lemma two_pow_minus (a b : Z) : (2 ^ (a - b) == 2 ^ a / 2 ^ b)%Q.
Proof. apply Qpower_minus. discriminate. Qed.

Lemma two_pow_le (a b : Z) : a <= b -> (2 ^ a <= 2 ^ b)%Q.
Proof. intros H. apply Qpower_le_compat_l; [assumption | lra]. Qed.

Lemma two_pow_lt_inv (a b : Z) : (2 ^ a < 2 ^ b)%Q -> a < b.
Proof. intros H. apply (Qpower_lt_compat_l_inv 2); [assumption | lra]. Qed.

Lemma two_pow_inject (a : Z) : 0 <= a -> (inject_Z (2 ^ a) == 2 ^ a)%Q.
Proof. intros H. rewrite Zpower_Qpower by assumption; reflexivity. Qed.

Lemma Qlog2_spec (x : Q) :
  (0 < x)%Q -> (2 ^ Qlog2 x <= x)%Q /\ (x < 2 ^ (Qlog2 x + 1))%Q.
Proof.
  intros Hx. destruct x as [n d]. unfold Qlog2. cbn [Qnum Qden].
  assert (0 < n) as Hn by (unfold Qlt in Hx; simpl in Hx; lia).
  destruct (Z.log2_spec n Hn) as [Hn1 Hn2].
  destruct (Z.log2_spec (Zpos d) (Pos2Z.is_pos d)) as [Hd1 Hd2].
  pose proof (Z.log2_nonneg n) as Ha. pose proof (Z.log2_nonneg (Zpos d)) as Hb.
  set (a := Z.log2 n) in *. set (b := Z.log2 (Zpos d)) in *.
  assert (n # d == inject_Z n / inject_Z (Zpos d))%Q as Hq by apply Qmake_Qdiv.
  assert (0 < inject_Z (Zpos d))%Q as Hdq by (unfold Qlt; simpl; lia).
  pose proof (two_pow_pos a) as Pa. pose proof (two_pow_pos b) as Pb.
  pose proof (two_pow_pos (a + 1)) as Pa1. pose proof (two_pow_pos (b + 1)) as Pb1.
  assert (2 ^ a <= inject_Z n)%Q as Qn1.
  { rewrite <- two_pow_inject by lia. by rewrite <- Zle_Qle. }
  assert (inject_Z n < 2 ^ (a + 1))%Q as Qn2.
  { rewrite <- two_pow_inject by lia. rewrite <- Zlt_Qlt.
    by replace (a + 1) with (Z.succ a) by lia. }
  assert (2 ^ b <= inject_Z (Zpos d))%Q as Qd1.
  { rewrite <- two_pow_inject by lia. by rewrite <- Zle_Qle. }
  assert (inject_Z (Zpos d) < 2 ^ (b + 1))%Q as Qd2.
  { rewrite <- two_pow_inject by lia. rewrite <- Zlt_Qlt.
    by replace (b + 1) with (Z.succ b) by lia. }
  destruct (Qle_bool (2 ^ (a - b)) (n # d)) eqn:E.
  - apply Qle_bool_iff in E. split; [exact E |].
    replace (a - b + 1) with (a + 1 - b) by lia.
    rewrite two_pow_minus, Hq.
    apply Qlt_shift_div_l; [done |].
    assert (inject_Z n / inject_Z (Zpos d) * 2 ^ b
            == inject_Z n * (2 ^ b / inject_Z (Zpos d)))%Q as -> by (field; lra).
    assert (2 ^ b / inject_Z (Zpos d) <= 1)%Q
      by (apply Qle_shift_div_r; [done | lra]).
    assert (0 < inject_Z n)%Q by (unfold Qlt; simpl; lia).
    nra.
  - assert (n # d < 2 ^ (a - b))%Q as E'.
    { apply Qnot_le_lt. intros H. apply Qle_bool_iff in H. congruence. }
    replace (a - b - 1 + 1) with (a - b) by lia. split; [| exact E'].
    replace (a - b - 1) with (a - (b + 1)) by lia.
    rewrite two_pow_minus, Hq.
    apply Qle_shift_div_r; [done |].
    assert (inject_Z n / inject_Z (Zpos d) * 2 ^ (b + 1)
            == inject_Z n * (2 ^ (b + 1) / inject_Z (Zpos d)))%Q as ->
        by (field; lra).
    assert (1 <= 2 ^ (b + 1) / inject_Z (Zpos d))%Q
      by (apply Qle_shift_div_l; [done | lra]).
    nra.
Qed.

Lemma Qlog2_unique (x : Q) (k : Z) :
  (2 ^ k <= x)%Q -> (x < 2 ^ (k + 1))%Q -> Qlog2 x = k.
Proof.
  intros H1 H2.
  assert (0 < x)%Q as Hx by (pose proof (two_pow_pos k); lra).
  destruct (Qlog2_spec x Hx) as [H3 H4].
  assert (k < Qlog2 x + 1) by (apply two_pow_lt_inv; lra).
  assert (Qlog2 x < k + 1) by (apply two_pow_lt_inv; lra).
  lia.
Qed.

Lemma Qlog2_mono (x y : Q) : (0 < x)%Q -> (x <= y)%Q -> Qlog2 x <= Qlog2 y.
Proof.
  intros Hx Hxy.
  destruct (Qlog2_spec x Hx) as [H1 _].
  destruct (Qlog2_spec y ltac:(lra)) as [_ H2].
  assert (Qlog2 x < Qlog2 y + 1) by (apply two_pow_lt_inv; lra). lia.
Qed.

Lemma two_52 : (2 ^ 52 == inject_Z (2 ^ 52))%Q.
Proof. symmetry. by apply two_pow_inject. Qed.

Lemma two_53 : (2 ^ 53 == inject_Z (2 ^ 53))%Q.
Proof. symmetry. by apply two_pow_inject. Qed.

(** The scaled significand of a positive number lies in [2^52, 2^53). *)
Lemma scaled_bounds (x : Q) :
  (0 < x)%Q ->
  (2 ^ 52 <= x / 2 ^ (Qlog2 x - 52))%Q /\ (x / 2 ^ (Qlog2 x - 52) < 2 ^ 53)%Q.
Proof.
  intros Hx. destruct (Qlog2_spec x Hx) as [H1 H2].
  pose proof (two_pow_pos (Qlog2 x - 52)) as Hs.
  split.
  - apply Qle_shift_div_l; [done |]. rewrite <- two_pow_plus.
    by replace (52 + (Qlog2 x - 52)) with (Qlog2 x) by lia.
  - apply Qlt_shift_div_r; [done |]. rewrite <- two_pow_plus.
    by replace (53 + (Qlog2 x - 52)) with (Qlog2 x + 1) by lia.
Qed.

Lemma significand_bounds (x : Q) :
  (0 < x)%Q ->
  2 ^ 52 <= round_half_even (x / 2 ^ (Qlog2 x - 52)) <= 2 ^ 53.
Proof.
  intros Hx. destruct (scaled_bounds x Hx) as [H1 H2]. split.
  - rewrite <- (round_half_even_Z (2 ^ 52)).
    apply round_half_even_mono. by rewrite <- two_52.
  - rewrite <- (round_half_even_Z (2 ^ 53)).
    apply round_half_even_mono. rewrite <- two_53. lra.
Qed.

Lemma round64_pos_bounds (x : Q) :
  (0 < x)%Q ->
  (2 ^ Qlog2 x <= round64_pos x)%Q /\ (round64_pos x <= 2 ^ (Qlog2 x + 1))%Q.
Proof.
  intros Hx. unfold round64_pos. cbv zeta.
  destruct (significand_bounds x Hx) as [H1 H2].
  pose proof (two_pow_pos (Qlog2 x - 52)) as Hs.
  set (m := round_half_even _) in *.
  assert (2 ^ 52 <= inject_Z m)%Q as Q1 by (rewrite two_52; by rewrite <- Zle_Qle).
  assert (inject_Z m <= 2 ^ 53)%Q as Q2 by (rewrite two_53; by rewrite <- Zle_Qle).
  split.
  - replace (Qlog2 x) with (52 + (Qlog2 x - 52)) at 1 by lia.
    rewrite two_pow_plus. nra.
  - replace (Qlog2 x + 1) with (53 + (Qlog2 x - 52)) by lia.
    rewrite two_pow_plus. nra.
Qed.

Lemma round64_pos_pos (x : Q) : (0 < x)%Q -> (0 < round64_pos x)%Q.
Proof.
  intros Hx. destruct (round64_pos_bounds x Hx) as [H _].
  pose proof (two_pow_pos (Qlog2 x)). lra.
Qed.

Lemma round64_pos_mono (x y : Q) :
  (0 < x)%Q -> (x <= y)%Q -> (round64_pos x <= round64_pos y)%Q.
Proof.
  intros Hx Hxy. assert (0 < y)%Q as Hy by lra.
  pose proof (Qlog2_mono x y Hx Hxy) as Hk.
  destruct (Z.eq_dec (Qlog2 x) (Qlog2 y)) as [E | E].
  - unfold round64_pos. cbv zeta. rewrite E.
    pose proof (two_pow_pos (Qlog2 y - 52)) as Hs.
    apply Qmult_le_compat_r; [| lra].
    rewrite <- Zle_Qle. apply round_half_even_mono.
    unfold Qdiv. apply Qmult_le_compat_r; [done |].
    apply Qlt_le_weak, Qinv_lt_0_compat, Hs.
  - destruct (round64_pos_bounds x Hx) as [_ H1].
    destruct (round64_pos_bounds y Hy) as [H2 _].
    assert (2 ^ (Qlog2 x + 1) <= 2 ^ Qlog2 y)%Q by (apply two_pow_le; lia).
    lra.
Qed.

Lemma round64_pos_comp (x y : Q) :
  (0 < x)%Q -> (x == y)%Q -> (round64_pos x == round64_pos y)%Q.
Proof.
  intros Hx Hxy. apply Qle_antisym; apply round64_pos_mono; lra.
Qed.

Lemma round64_mono (x y : Q) : (x <= y)%Q -> (round64 x <= round64 y)%Q.
Proof.
  intros Hxy. unfold round64.
  destruct (Qcompare_spec x 0) as [Hx | Hx | Hx],
           (Qcompare_spec y 0) as [Hy | Hy | Hy]; try lra.
  - pose proof (round64_pos_pos y Hy). lra.
  - pose proof (round64_pos_pos (- x) ltac:(lra)). lra.
  - pose proof (round64_pos_mono (- y) (- x) ltac:(lra) ltac:(lra)). lra.
  - pose proof (round64_pos_pos (- x) ltac:(lra)).
    pose proof (round64_pos_pos y Hy). lra.
  - by apply round64_pos_mono.
Qed.

Global Instance round64_comp : Proper (Qeq ==> Qeq) round64.
Proof. intros x y H. apply Qle_antisym; apply round64_mono; lra. Qed.

Lemma round64_0 : (round64 0 == 0)%Q.
Proof. reflexivity. Qed.


Lemma round64_nonpos (x : Q) : (x <= 0)%Q -> (round64 x <= 0)%Q.
Proof. intros H. rewrite <- round64_0. by apply round64_mono. Qed.



(** A number with a significand of at most 53 bits is not changed. *)
Lemma round64_pos_fixed (m s : Z) :
  2 ^ 52 <= m <= 2 ^ 53 ->
  (round64_pos (inject_Z m * 2 ^ s) == inject_Z m * 2 ^ s)%Q.
Proof.
  intros [H1 H2].
  pose proof (two_pow_pos s) as Hs.
  assert (2 ^ 52 <= inject_Z m)%Q as Q1 by (rewrite two_52; by rewrite <- Zle_Qle).
  assert (inject_Z m <= 2 ^ 53)%Q as Q2 by (rewrite two_53; by rewrite <- Zle_Qle).
  destruct (Z.eq_dec m (2 ^ 53)) as [-> | Hne].
  - assert (Qlog2 (inject_Z (2 ^ 53) * 2 ^ s) = 53 + s) as Hk.
    { apply Qlog2_unique.
      - rewrite two_pow_plus, <- two_53. lra.
      - replace (53 + s + 1) with (54 + s) by lia.
        rewrite two_pow_plus, <- two_53.
        assert (2 ^ 53 < 2 ^ 54)%Q by reflexivity. nra. }
    unfold round64_pos. cbv zeta. rewrite Hk.
    replace (53 + s - 52) with (1 + s) by lia.
    assert (2 ^ (1 + s) == 2 * 2 ^ s)%Q as Ep by (by rewrite two_pow_plus).
    assert (inject_Z (2 ^ 53) == 2 * inject_Z (2 ^ 52))%Q as E2 by reflexivity.
    assert (inject_Z (2 ^ 53) * 2 ^ s / 2 ^ (1 + s) == inject_Z (2 ^ 52))%Q as E.
    { rewrite Ep, E2. field. lra. }
    rewrite (round_half_even_comp _ _ E), round_half_even_Z.
    rewrite Ep, E2. ring.
  - assert (Qlog2 (inject_Z m * 2 ^ s) = 52 + s) as Hk.
    { apply Qlog2_unique.
      - rewrite two_pow_plus. nra.
      - replace (52 + s + 1) with (53 + s) by lia.
        rewrite two_pow_plus.
        assert (inject_Z m < 2 ^ 53)%Q.
        { rewrite two_53. rewrite <- Zlt_Qlt. lia. }
        nra. }
    unfold round64_pos. cbv zeta. rewrite Hk.
    replace (52 + s - 52) with s by lia.
    assert (inject_Z m * 2 ^ s / 2 ^ s == inject_Z m)%Q as E by (field; lra).
    by rewrite (round_half_even_comp _ _ E), round_half_even_Z.
Qed.


(** Integers of at most 53 bits are floats. *)
Lemma round64_Z (n : Z) : Z.abs n <= 2 ^ 53 -> (round64 (inject_Z n) == inject_Z n)%Q.
Proof.
  assert (forall p, 0 < p <= 2 ^ 53 ->
            (round64_pos (inject_Z p) == inject_Z p)%Q) as Hpos.
  { intros p [Hp1 Hp2].
    destruct (Z.log2_spec p Hp1) as [L1 L2].
    pose proof (Z.log2_nonneg p) as L0.
    assert (Z.log2 p <= 53) by (apply (Z.pow_le_mono_r_iff 2); lia).
    destruct (Z.eq_dec p (2 ^ 53)) as [-> | Hne].
    - rewrite (round64_pos_comp (inject_Z (2 ^ 53)) (inject_Z (2 ^ 53) * 2 ^ 0))
        by (reflexivity || (change (2 ^ 0)%Q with 1%Q; lra)).
      rewrite round64_pos_fixed by lia. change (2 ^ 0)%Q with 1%Q. lra.
    - assert (Z.log2 p <= 52).
      { assert (Z.log2 p < 53); [| lia].
        apply (Z.pow_lt_mono_r_iff 2); lia. }
      set (j := Z.log2 p) in *.
      assert (inject_Z p == inject_Z (p * 2 ^ (52 - j)) * 2 ^ (j - 52))%Q as E.
      { rewrite inject_Z_mult, two_pow_inject by lia.
        rewrite <- Qmult_assoc, <- two_pow_plus.
        replace (52 - j + (j - 52)) with 0 by lia. by rewrite Qmult_1_r. }
      assert (0 < inject_Z p)%Q as Hp by (unfold Qlt; simpl; lia).
      rewrite (round64_pos_comp _ _ Hp E).
      rewrite round64_pos_fixed; [by rewrite <- E |].
      split.
        * replace 52 with (j + (52 - j)) at 1 by lia.
          rewrite Z.pow_add_r by lia. apply Z.mul_le_mono_nonneg_r; lia.
        * replace 53 with (Z.succ j + (52 - j)) by lia.
          rewrite Z.pow_add_r by lia. apply Z.mul_le_mono_nonneg_r; lia. }
  intros Hn. unfold round64.
  destruct (Qcompare_spec (inject_Z n) 0) as [H | H | H].
  - by rewrite H.
  - assert (n < 0) by (rewrite Zlt_Qlt; exact H).
    rewrite (round64_pos_comp (- inject_Z n) (inject_Z (- n))).
    + rewrite Hpos by lia. rewrite inject_Z_opp. lra.
    + lra.
    + by rewrite inject_Z_opp.
  - assert (0 < n) by (rewrite Zlt_Qlt; exact H).
    apply Hpos. lia.
Qed.

Lemma round64_le_1 (x : Q) : (x <= 1)%Q -> (round64 x <= 1)%Q.
Proof.
  intros H. rewrite <- (round64_Z 1) by (vm_compute; discriminate).
  by apply round64_mono.
Qed.

(** ** The other primitives *)


Lemma py_max_Q_spec (a b : Q) :
  ((b <= a)%Q /\ py_max_Q a b = a) \/ ((a < b)%Q /\ py_max_Q a b = b).
Proof.
  unfold py_max_Q. destruct (Qle_bool b a) eqn:E.
  - left. split; [by apply Qle_bool_iff | done].
  - right. split; [| done]. apply Qnot_le_lt. intros H.
    apply Qle_bool_iff in H. congruence.
Qed.






(* ===================================================================== *)
(** * ReactionPhase: the scoring rule                                     *)
(* ===================================================================== *)

Section Scoring.
Variable settings : Settings.
Variable p : ReactionPhase.
Hypothesis T_pos : 0 < TIMEOUT settings.
Hypothesis P_pos : 0 < MAX_POINTS settings.

Local Abbreviation Tf := (py_float (TIMEOUT settings)).
Local Abbreviation P := (inject_Z (MAX_POINTS settings)).
Local Abbreviation spp := (round64 (seconds_per_point settings)).




(** [self.time_remaining] is a float between 0 and [TIMEOUT], and it does
    not grow with the clock. *)
Lemma time_remaining_nonneg (now : Q) :
  (0 <= ReactionPhase_time_remaining settings p now)%Q.
Proof.
  unfold ReactionPhase_time_remaining. cbv zeta.
  destruct (py_max_Q_spec
              (py_sub Tf (total_seconds (now - _timestamp (reaction_base p)))) 0)
    as [[H ->] | [H ->]]; lra.
Qed.


Lemma time_remaining_mono (now1 now2 : Q) :
  (now1 <= now2)%Q ->
  (ReactionPhase_time_remaining settings p now2
   <= ReactionPhase_time_remaining settings p now1)%Q.
Proof.
  unfold ReactionPhase_time_remaining, total_seconds, py_sub. cbv zeta.
  intros Hle.
  assert (round64 (now1 - _timestamp (reaction_base p))
          <= round64 (now2 - _timestamp (reaction_base p)))%Q as Hp
      by (apply round64_mono; lra).
  assert (round64 (Tf - round64 (now2 - _timestamp (reaction_base p)))
          <= round64 (Tf - round64 (now1 - _timestamp (reaction_base p))))%Q
      by (apply round64_mono; lra).
  destruct (py_max_Q_spec
              (round64 (Tf - round64 (now1 - _timestamp (reaction_base p)))) 0)
    as [[H1 ->] | [H1 ->]],
    (py_max_Q_spec
              (round64 (Tf - round64 (now2 - _timestamp (reaction_base p)))) 0)
    as [[H2 ->] | [H2 ->]]; lra.
Qed.







End Scoring.




(** The float quotient is not the exact one.  With a window of 60 seconds
    and 25 points a reaction after 2.4 seconds is at the end of the first
    interval, [e = T / P], and the exact rule gives [25 - floor(1) = 24]
    points; the code awards 25, since [60 - (60 - 2.4)] comes out below
    2.4 and the quotient below 1. *)
Example calculate_win_points_rounding :
  (time_passed example_reaction_phase (24 # 10)
   == seconds_per_point (scoring_settings 60 25))%Q
  /\ Qfloor (time_passed example_reaction_phase (24 # 10)
             / seconds_per_point (scoring_settings 60 25)) = 1
  /\ (lost_quotient (scoring_settings 60 25) example_reaction_phase (24 # 10)
      == 9007199254740987 # 9007199254740992)%Q
  /\ _calculate_win_points (scoring_settings 60 25) example_reaction_phase (24 # 10)
     = Ok 25.
Proof. split_and!; vm_compute; reflexivity. Qed.

(** [round64] against the doubles of the kernel, on the operations of the
    example above, [(60 - (60 - 24 / 10)) / (60 / 25)], and on a selection
    threshold of the hunting phase, [1 * (55 / 100)]. *)
Example round64_agrees_with_doubles :
  option_map Qred
    (float_value
       (PrimFloat.div
          (PrimFloat.sub (float_of_Z 60)
             (PrimFloat.sub (float_of_Z 60)
                (PrimFloat.div (float_of_Z 24) (float_of_Z 10))))
          (PrimFloat.div (float_of_Z 60) (float_of_Z 25))))
  = Some (Qred (lost_quotient (scoring_settings 60 25) example_reaction_phase
                  (24 # 10)))
  /\ option_map Qred
       (float_value
          (PrimFloat.mul (float_of_Z 1)
             (PrimFloat.div (float_of_Z 55) (float_of_Z 100))))
     = Some (Qred (selection_threshold (hunting_settings false 1) 55)).
Proof. split; vm_compute; reflexivity. Qed.

(* ===================================================================== *)
(** * SleepingPhase: the duration of the pause                            *)
(* ===================================================================== *)



Lemma randint_empty (a b entropy : Z) :
  b < a -> randint a b entropy = Raise ValueError.
Proof.
  intros H. unfold randint. cbv zeta.
  destruct (Z.ltb_spec 0 (b + 1 - a)); [lia | done].
Qed.


Lemma SleepingPhase_init_inv (settings : Settings) (entropy : Z) (now : Q)
    (p : SleepingPhase) :
  SleepingPhase_init settings entropy now = Ok p ->
  exists jitter,
    randint 1 (MAX_TIME_JITTER settings) entropy = Ok jitter
    /\ p = {| sleeping_base := NinjaPhase_init now;
              _sleep_duration := COOLDOWN settings + jitter;
              sleeping_task := TaskPending |}.
Proof.
  unfold SleepingPhase_init. cbv zeta.
  destruct (randint 1 (MAX_TIME_JITTER settings) entropy) as [j | e];
    cbn [mbind result_bind mret result_ret]; [| done].
  intros [= <-]. eauto.
Qed.





(** C10: when [maxJitter <= 0], constructing a sleeping phase raises
    [ValueError], whatever the random source and the clock; a pass of the
    game loop then ends with that exception right after the state was set to
    [SLEEPING], before any phase runs. *)
Theorem SleepingPhase_requires_positive_jitter (settings : Settings) :
  MAX_TIME_JITTER settings <= 0 ->
  (forall entropy now,
      SleepingPhase_init settings entropy now = Raise ValueError)
  /\ (forall env c,
        _game_loop settings env c = (with_state SLEEPING c, Raise ValueError)).
Proof.
  intros H.
  assert (forall entropy now,
             SleepingPhase_init settings entropy now = Raise ValueError) as Hinit.
  { intros entropy now. unfold SleepingPhase_init. cbv zeta.
    by rewrite randint_empty by lia. }
  split; [exact Hinit |].
  intros env c. unfold _game_loop, sleeping_block. by rewrite Hinit.
Qed.

(** [cooldown = 5], [maxJitter = 0]: the construction raises. *)
Lemma SleepingPhase_requires_positive_jitter_witness :
  SleepingPhase_init (sleeping_settings 5 0) 0 0 = Raise ValueError.
Proof.
  apply (proj1 (SleepingPhase_requires_positive_jitter (sleeping_settings 5 0)
                  ltac:(vm_compute; discriminate))).
Defined.

(* ===================================================================== *)
(** * NinjaPhase: the life cycle                                          *)
(* ===================================================================== *)

Lemma hunt_for_messages_base (settings : Settings) (h : HuntingPhase)
    (message : Message) (draw : Q) :
  let h' := fst (hunt_for_messages settings h message draw) in
  _cancelled (hunting_base h') = _cancelled (hunting_base h)
  /\ _finished (hunting_base h') = _finished (hunting_base h)
  /\ _timestamp (hunting_base h') = _timestamp (hunting_base h).
Proof.
  cbv zeta. unfold hunt_for_messages.
  destruct (negb (active (hunting_base h)) || _ignored_message settings message);
    [done |].
  cbn [ninja_probability].
  destruct (negb (Qle_bool draw _)); [done |].
  cbn [hunting_base].
  destruct (set_result (_future (hunting_base h)) (Some message)); done.
Qed.

(** Rewarding a member changes the rewarded members only. *)
Lemma reward_fields (settings : Settings) (r : ReactionPhase) (user : Z)
    (m : Member) (now : Q) :
  let r' := fst (reward settings r user m now) in
  reaction_base r' = reaction_base r
  /\ _new_emoji r' = _new_emoji r
  /\ _used_emoji r' = _used_emoji r
  /\ _message r' = _message r
  /\ bot_user_id r' = bot_user_id r.
Proof.
  cbv zeta. unfold reward.
  by destruct (_calculate_win_points settings r now).
Qed.

Lemma listen_for_reactions_fields (settings : Settings) (r : ReactionPhase)
    (raw : RawReactionActionEvent) (now : Q) :
  let r' := fst (_listen_for_reactions settings r raw now) in
  reaction_base r' = reaction_base r
  /\ _new_emoji r' = _new_emoji r
  /\ _used_emoji r' = _used_emoji r
  /\ _message r' = _message r
  /\ bot_user_id r' = bot_user_id r.
Proof.
  cbv zeta. unfold _listen_for_reactions.
  destruct (negb (_relevant_reaction r raw)); [done |].
  destruct (member raw) as [m |]; [| done].
  pose proof (reward_fields settings r (user_id raw) m now) as H.
  by destruct (reward settings r (user_id raw) m now).
Qed.

Lemma listen_for_reactions_resumed_fields (settings : Settings)
    (r : ReactionPhase) (user : Z) (fetched : result Member) (now : Q) :
  let r' := fst (_listen_for_reactions_resumed settings r user fetched now) in
  reaction_base r' = reaction_base r
  /\ _new_emoji r' = _new_emoji r
  /\ _used_emoji r' = _used_emoji r
  /\ _message r' = _message r
  /\ bot_user_id r' = bot_user_id r.
Proof.
  cbv zeta. unfold _listen_for_reactions_resumed.
  destruct fetched as [m | e]; [| done]. apply reward_fields.
Qed.

Lemma ReactionPhase_aenter_base (r : ReactionPhase) (created : option Z)
    (reacted : bool) :
  reaction_base (fst (ReactionPhase_aenter r created reacted)) = reaction_base r.
Proof.
  destruct r as [b u m fallback e t rewarded used].
  destruct created, fallback, reacted; done.
Qed.

(** No step of a phase clears a flag. *)
Lemma phase_step_flags (settings : Settings) (p p' : Phase) :
  phase_step settings p p' ->
  (cancelled p = true -> cancelled p' = true)
  /\ (finished p = true -> finished p' = true).
Proof.
  unfold cancelled, finished.
  destruct 1 as [p [v |] | s | s | h message draw | r created reacted | r
                 | r raw now | r user fetched now].
  - destruct p; done.
  - destruct p; done.
  - unfold SleepingPhase_wake.
    destruct (set_result (_future (sleeping_base s)) None); done.
  - done.
  - cbn [phase_base Phase_methods HuntingPhase_methods].
    destruct (hunt_for_messages_base settings h message draw) as (-> & -> & _).
    done.
  - cbn [phase_base Phase_methods ReactionPhase_methods].
    by rewrite ReactionPhase_aenter_base.
  - unfold reaction_wait.
    destruct (set_result (_future (reaction_base r)) None); done.
  - cbn [phase_base Phase_methods ReactionPhase_methods].
    by rewrite (proj1 (listen_for_reactions_fields settings r raw now)).
  - cbn [phase_base Phase_methods ReactionPhase_methods].
    by rewrite (proj1 (listen_for_reactions_resumed_fields settings r user
                         fetched now)).
Qed.

Lemma phase_steps_flags (settings : Settings) (p p' : Phase) :
  rtc (phase_step settings) p p' ->
  (cancelled p = true -> cancelled p' = true)
  /\ (finished p = true -> finished p' = true).
Proof.
  induction 1 as [| p q p' Hstep _ IH]; [done |].
  apply phase_step_flags in Hstep. tauto.
Qed.

(** C4 (amended): a phase starts active, with both flags clear; no sequence
    of steps ever clears a flag; a [run()] that returns the result of the
    future sets [finished] and leaves [cancelled] as it was; a [run()] that is
    cancelled sets [cancelled] and [finished]; [active] holds exactly while
    both flags are clear. *)
Theorem phase_lifecycle (settings : Settings) :
  (forall entropy now s,
      SleepingPhase_init settings entropy now = Ok s ->
      phase_active (PSleeping s) = true)
  /\ (forall now, phase_active (PHunting (HuntingPhase_init now)) = true)
  /\ (forall bot message fallback now,
        phase_active (PReaction (ReactionPhase_init bot message fallback now)) = true)
  /\ (forall p : Phase,
        phase_active p = true <-> finished p = false /\ cancelled p = false)
  /\ (forall p p' : Phase,
        rtc (phase_step settings) p p' ->
        (cancelled p = true -> cancelled p' = true)
        /\ (finished p = true -> finished p' = true))
  /\ (forall (p : Phase) v,
        finished (fst (run p (AwaitResult v))) = true
        /\ cancelled (fst (run p (AwaitResult v))) = cancelled p
        /\ snd (run p (AwaitResult v)) = v)
  /\ (forall p : Phase,
        cancelled (fst (run p AwaitCancelled)) = true
        /\ finished (fst (run p AwaitCancelled)) = true
        /\ phase_active (fst (run p AwaitCancelled)) = false
        /\ snd (run p AwaitCancelled) = None).
Proof.
  split_and!.
  - intros entropy now s H.
    by apply SleepingPhase_init_inv in H as (j & _ & ->).
  - done.
  - done.
  - intros p. unfold phase_active, finished, cancelled, active.
    destruct (_finished (phase_base p)), (_cancelled (phase_base p));
      cbn; intuition congruence.
  - apply phase_steps_flags.
  - by destruct p.
  - intros p. split_and!; by destruct p.
Qed.

(** A hunting phase whose [run()] was cancelled stays cancelled and finished
    when a later message is delivered to its listener. *)
Lemma phase_lifecycle_witness :
  let h := fst (run (HuntingPhase_init 0) AwaitCancelled) in
  let p' := PHunting (fst (hunt_for_messages (scoring_settings 60 10)
                             h example_message 0)) in
  cancelled p' = true /\ finished p' = true.
Proof.
  cbv zeta.
  pose proof (phase_lifecycle (scoring_settings 60 10))
    as (_ & _ & _ & _ & Hkeep & _ & Hcancel).
  destruct (Hcancel (PHunting (HuntingPhase_init 0))) as (Hc & Hf & _).
  destruct (Hkeep (fst (run (PHunting (HuntingPhase_init 0)) AwaitCancelled))
              (PHunting (fst (hunt_for_messages (scoring_settings 60 10)
                                (fst (run (HuntingPhase_init 0) AwaitCancelled))
                                example_message 0))))
    as [Hc' Hf'].
  - apply rtc_once.
    apply (step_hunt (scoring_settings 60 10)
             (fst (run (HuntingPhase_init 0) AwaitCancelled))).
  - split; [exact (Hc' Hc) | exact (Hf' Hf)].
Defined.

(** C4 as stated fails: a fresh hunting phase whose [run()] is cancelled ends
    with [cancelled] and [finished] both set. *)
Lemma run_cancelled_is_also_finished :
  cancelled (fst (run (PHunting (HuntingPhase_init 0)) AwaitCancelled)) = true
  /\ finished (fst (run (PHunting (HuntingPhase_init 0)) AwaitCancelled)) = true.
Proof. split; reflexivity. Qed.

(* ===================================================================== *)
(** * HuntingPhase: eligibility and selection                             *)
(* ===================================================================== *)

(** [x in s]: everything is in a wildcard set; otherwise an integer is in the
    set when it is one of its elements, and [None] is not. *)
Lemma contains_spec (s : AllowDenySet) (x : option Z) :
  contains s x = true
  <-> wildcard_set s = true \/ exists z, x = Some z /\ EInt z ∈ _set s.
Proof.
  unfold contains. destruct (wildcard_set s); [intuition |].
  destruct x as [z |]; cbn.
  - rewrite bool_decide_eq_true. split.
    + intros H. right. by exists z.
    + intros [H | (z' & [= ->] & H)]; [discriminate | done].
  - split; [discriminate |]. intros [H | (z' & H & _)]; discriminate.
Qed.

(** C3 (amended): a message is eligible exactly when it comes from the
    configured guild, its author is not a bot, its channel is readable and
    writable by an ordinary member whenever the "public-only" setting is on
    (also for a channel of the allow set), its channel is not in the channel
    deny set, and either its channel is in the channel allow set or its
    category is in the category allow set and not in the category deny set. *)
Theorem ignored_message_spec (settings : Settings) (message : Message) :
  _ignored_message settings message = false
  <-> message_guild message = Some (guild_id (guild settings))
      /\ author_bot message = false
      /\ (public_only (game settings) = true ->
          everyone_read_messages message = true
          /\ everyone_send_messages message = true)
      /\ contains (deny (channels (permissions settings)))
                  (Some (channel_id message)) = false
      /\ (contains (allow (channels (permissions settings)))
                   (Some (channel_id message)) = true
          \/ (contains (deny (categories (permissions settings)))
                       (category_id message) = false
              /\ contains (allow (categories (permissions settings)))
                          (category_id message) = true)).
Proof.
  unfold _ignored_message.
  destruct (bool_decide_reflect
              (message_guild message = Some (guild_id (guild settings))))
    as [Hg | Hg]; cbn [negb]; [| intuition congruence].
  destruct (author_bot message); [intuition congruence |].
  destruct (public_only (game settings)), (everyone_read_messages message),
    (everyone_send_messages message); cbn [negb andb orb];
    try (split; [discriminate | intuition congruence]);
    destruct (contains (deny (channels (permissions settings))) _),
      (contains (allow (channels (permissions settings))) _),
      (contains (deny (categories (permissions settings))) _),
      (contains (allow (categories (permissions settings))) _);
    intuition congruence.
Qed.

(** C3 as stated fails: with the "public-only" setting on, a message in a
    channel of the allow set (here the wildcard default) that an ordinary
    member cannot read is ignored. *)
Lemma allowed_channel_ignored_when_not_public :
  contains (allow (channels (permissions (hunting_settings true 1))))
           (Some (channel_id private_channel_message)) = true
  /\ contains (deny (channels (permissions (hunting_settings true 1))))
              (Some (channel_id private_channel_message)) = false
  /\ message_guild private_channel_message
     = Some (guild_id (guild (hunting_settings true 1)))
  /\ author_bot private_channel_message = false
  /\ _ignored_message (hunting_settings true 1) private_channel_message = true.
Proof. split_and!; reflexivity. Qed.









(** What the listener of an active hunting phase does with an eligible
    message whose draw selects it when the future already has its result. *)
Lemma hunt_for_messages_resolved (settings : Settings) (h : HuntingPhase)
    (message : Message) (draw : Q) :
  _future (hunting_base h) <> FPending ->
  _future (hunting_base (fst (hunt_for_messages settings h message draw)))
  = _future (hunting_base h)
  /\ (active (hunting_base h) = true ->
      _ignored_message settings message = false ->
      (draw <= selection_threshold settings (_probability h))%Q ->
      hunt_for_messages settings h message draw
      = ({| hunting_base := hunting_base h; _probability := _probability h + 1 |},
         Raise InvalidStateError)).
Proof.
  intros Hf. unfold hunt_for_messages.
  destruct (active (hunting_base h)), (_ignored_message settings message);
    cbn [negb orb]; try (split; [done | intros; congruence]).
  cbn [ninja_probability].
  fold (capped_probability (_probability h)).
  fold (selection_threshold settings (_probability h)).
  destruct (Qle_bool draw (selection_threshold settings (_probability h))) eqn:E;
    cbn [negb hunting_base _probability].
  - destruct (_future (hunting_base h)) eqn:Ef; [done | |]; cbn; by rewrite ?Ef.
  - split; [done |]. intros _ _ H. apply Qle_bool_iff in H. congruence.
Qed.




(** With multiplier 1, the first eligible message is selected by the draw
    1/100 and passed over by the draw 2/100; a message of a bot leaves the
    counter at 1. *)
Example hunt_first_message :
  _future (hunting_base (fst (hunt_for_messages (hunting_settings false 1)
                                (HuntingPhase_init 0) example_message (1 # 100))))
  = FResult (Some example_message)
  /\ fst (hunt_for_messages (hunting_settings false 1)
            (HuntingPhase_init 0) example_message (2 # 100))
     = {| hunting_base := NinjaPhase_init 0; _probability := 2 |}.
Proof. split; vm_compute; reflexivity. Qed.

(** The threshold is a float: at counter 55 with multiplier 1 it is the
    double nearest to 0.55, which is above 55/100, and a draw that equals it
    selects the message. *)
Example hunt_rounded_threshold :
  (55 # 100 < 4953959590107546 # 9007199254740992)%Q
  /\ _future (hunting_base
       (fst (hunt_for_messages (hunting_settings false 1)
               {| hunting_base := NinjaPhase_init 0; _probability := 55 |}
               example_message (4953959590107546 # 9007199254740992))))
     = FResult (Some example_message).
Proof. split; vm_compute; reflexivity. Qed.

(* ===================================================================== *)
(** * Dictionaries                                                        *)
(* ===================================================================== *)

Section DictFacts.
Context {V : Type}.
Implicit Types (d : list (Z * V)) (k : Z) (v : V).


Lemma dict_get_set_ne d k k' v :
  k <> k' -> dict_get k' (dict_set k v d) = dict_get k' d.
Proof.
  intros Hne. induction d as [| [k0 v0] d IH]; simpl.
  - by rewrite decide_False.
  - destruct (decide (k = k0)) as [-> | Hne0]; simpl.
    + by rewrite !decide_False.
    + by rewrite IH.
Qed.

Lemma dict_get_None d k : dict_get k d = None <-> k ∉ dict_keys d.
Proof.
  unfold dict_keys. induction d as [| [k' v'] d IH]; simpl.
  - split; [intros _; apply not_elem_of_nil | done].
  - rewrite not_elem_of_cons. destruct (decide (k = k')); [| tauto].
    split; [discriminate | tauto].
Qed.

Lemma dict_get_Some_elem d k v : dict_get k d = Some v -> (k, v) ∈ d.
Proof.
  induction d as [| [k' v'] d IH]; simpl; [done |].
  destruct (decide (k = k')) as [-> | Hne].
  - intros [= ->]. apply list_elem_of_here.
  - intros H. apply list_elem_of_further. auto.
Qed.

Lemma dict_get_elem d k v : NoDup (dict_keys d) -> (k, v) ∈ d -> dict_get k d = Some v.
Proof.
  unfold dict_keys. induction d as [| [k' v'] d IH]; simpl.
  - intros _ H. by apply not_elem_of_nil in H.
  - rewrite NoDup_cons. intros [Hk Hd] H.
    apply elem_of_cons in H as [[= -> ->] | H].
    + by rewrite decide_True.
    + destruct (decide (k = k')) as [-> | Hne]; [| auto].
      exfalso. apply Hk. apply list_elem_of_fmap. by exists (k', v).
Qed.

Lemma dict_set_fresh d k v : k ∉ dict_keys d -> dict_set k v d = d ++ [(k, v)].
Proof.
  unfold dict_keys. induction d as [| [k' v'] d IH]; simpl; [done |].
  rewrite not_elem_of_cons. intros [Hne Hd].
  rewrite decide_False by done. by rewrite IH.
Qed.



End DictFacts.

(* ===================================================================== *)
(** * ReactionPhase: one reward per member                                *)
(* ===================================================================== *)


(** What rewarding a member does to the rewarded members. *)
Lemma reward_rewarded (settings : Settings) (p : ReactionPhase) (user : Z)
    (m : Member) (now : Q) :
  (exists e, reward settings p user m now = (p, Raise e))
  \/ (exists pts,
         _calculate_win_points settings p now = Ok pts
         /\ reward settings p user m now
            = (with_rewarded_users
                 (dict_set user {| rp_member := m; points := pts |}
                           (_rewarded_users p)) p, Ok ())).
Proof.
  unfold reward. destruct (_calculate_win_points settings p now) as [pts | e].
  - right. by exists pts.
  - left. by exists e.
Qed.


Lemma reward_other (settings : Settings) (p : ReactionPhase) (user : Z)
    (m : Member) (now : Q) (u : Z) :
  u <> user ->
  dict_get u (_rewarded_users (fst (reward settings p user m now)))
  = dict_get u (_rewarded_users p).
Proof.
  intros Hne.
  destruct (reward_rewarded settings p user m now) as [[e ->] | (pts & _ & ->)];
    [done |].
  cbn. by rewrite dict_get_set_ne.
Qed.


Lemma resume_one_subset (user u : Z) (suspended : list Z) :
  u ∈ resume_one user suspended -> u ∈ suspended.
Proof.
  induction suspended as [| v suspended IH]; cbn; [done |].
  destruct (decide (v = user)).
  - apply list_elem_of_further.
  - intros [-> | H]%elem_of_cons; [apply list_elem_of_here |].
    apply list_elem_of_further. auto.
Qed.










(** A window of 60 seconds and 10 points: member 7 reacts after 6 and after
    12 seconds, member 8 after 30 seconds, each reaction with its member; 7
    keeps the 9 points of the first reaction and 8 gets 5. *)
Example round_of_three_reactions :
  awarded_points (listening_phase
    (listen_all (scoring_settings 60 10)
       [ReactionAdded (marker_reaction 7) 6;
        ReactionAdded (marker_reaction 7) 12;
        ReactionAdded (marker_reaction 8) 30]
       (listening_to example_reaction_phase)))
  = [(7, {| rp_member := {| member_ident := 7 |}; points := 9 |});
     (8, {| rp_member := {| member_ident := 8 |}; points := 5 |})].
Proof. vm_compute. reflexivity. Qed.

(* ===================================================================== *)
(** * The leaderboard                                                     *)
(* ===================================================================== *)

Lemma insert_desc_perm (x : Z * Z) (l : list (Z * Z)) : insert_desc x l ≡ₚ x :: l.
Proof.
  induction l as [| y l IH]; simpl; [done |].
  destruct (x.2 <? y.2); [| done].
  rewrite IH. apply Permutation_swap.
Qed.

Lemma sorted_desc_perm (l : list (Z * Z)) : sorted_desc l ≡ₚ l.
Proof.
  induction l as [| x l IH]; simpl; [done |].
  by rewrite insert_desc_perm, IH.
Qed.

Lemma insert_desc_sorted (x : Z * Z) (l : list (Z * Z)) :
  StronglySorted score_ge l -> StronglySorted score_ge (insert_desc x l).
Proof.
  induction 1 as [| y l Hl IH Hy]; simpl.
  - repeat constructor.
  - destruct (Z.ltb_spec x.2 y.2) as [Hlt | Hge].
    + constructor; [done |].
      rewrite insert_desc_perm. constructor; [unfold score_ge; lia | done].
    + constructor; [by constructor |].
      constructor; [done |].
      eapply Forall_impl; [exact Hy |]. unfold score_ge. intros z Hz. lia.
Qed.

Lemma sorted_desc_sorted (l : list (Z * Z)) : StronglySorted score_ge (sorted_desc l).
Proof.
  induction l as [| x l IH]; simpl; [constructor |].
  by apply insert_desc_sorted.
Qed.

(** The sort is stable: the entries of any one score keep their order. *)
Lemma insert_desc_stable (s : Z) (x : Z * Z) (l : list (Z * Z)) :
  filter (fun e : Z * Z => e.2 = s) (insert_desc x l)
  = filter (fun e : Z * Z => e.2 = s) (x :: l).
Proof.
  induction l as [| y l IH]; simpl; [done |].
  destruct (Z.ltb_spec x.2 y.2) as [Hlt | Hge]; [| done].
  rewrite filter_cons, IH, !filter_cons.
  destruct (decide (y.2 = s)), (decide (x.2 = s)); try done. lia.
Qed.

Lemma sorted_desc_stable (s : Z) (l : list (Z * Z)) :
  filter (fun e : Z * Z => e.2 = s) (sorted_desc l)
  = filter (fun e : Z * Z => e.2 = s) l.
Proof.
  induction l as [| x l IH]; simpl; [done |].
  by rewrite insert_desc_stable, !filter_cons, IH.
Qed.

(** The groups of [groupby], put back together, are the list. *)
Lemma groupby_concat (l : list (Z * Z)) : concat (map snd (groupby l)) = l.
Proof.
  induction l as [| x l IH]; simpl; [done |].
  destruct (groupby l) as [| [k g] gs]; simpl in *.
  - by rewrite <- IH.
  - destruct (decide (x.2 = k)); simpl; by rewrite <- IH.
Qed.

Lemma groupby_desc_groups (l : list (Z * Z)) :
  StronglySorted score_ge l -> desc_groups (groupby l).
Proof.
  induction 1 as [| x l Hl IH Hx]; simpl; [constructor |].
  destruct (groupby l) as [| [k g] gs] eqn:EG.
  - constructor; [done | by constructor | constructor | constructor].
  - inversion IH as [| k' g' gs' Hne Hg Hgs Hrest]; subst.
    destruct (decide (x.2 = k)) as [Hk | Hk].
    + constructor; [done | by constructor | done | done].
    + assert (k < x.2) as Hlt.
      { destruct g as [| e g]; [done |].
        apply Forall_cons in Hg as [He _].
        rewrite Forall_forall in Hx.
        assert (e ∈ l) as Hin.
        { rewrite <- (groupby_concat l), EG. simpl. left. }
        apply Hx in Hin. unfold score_ge in Hin. lia. }
      constructor; [done | by constructor | | done].
      constructor; [done |].
      eapply Forall_impl; [exact Hgs |]. simpl. intros kg Hkg. lia.
Qed.

Lemma desc_groups_scores_lt (k : Z) (gs : list (Z * list (Z * Z))) :
  desc_groups gs ->
  Forall (fun kg : Z * list (Z * Z) => kg.1 < k) gs ->
  Forall (fun e : Z * Z => e.2 < k) (concat (map snd gs)).
Proof.
  induction 1 as [| k' g gs Hne Hg Hgs Hrest IH]; simpl; [constructor |].
  intros Hk. apply Forall_cons in Hk as [Hk' Hk]. simpl in Hk'.
  apply Forall_app. split; [| auto].
  eapply Forall_impl; [exact Hg |]. simpl. intros e He. lia.
Qed.

Lemma len_app {A : Type} (l1 l2 : list A) : len (l1 ++ l2) = len l1 + len l2.
Proof. unfold len. rewrite length_app. lia. Qed.

Lemma len_nonneg {A : Type} (l : list A) : 0 <= len l.
Proof. unfold len. lia. Qed.

(** The inner loop, on members that are new to the leaderboard, appends one
    entry per member. *)
Lemma rank_members_fresh (counter : Z) (group members : list (Z * Z))
    (leaderboard : list (Z * LeaderboardEntry)) :
  NoDup (dict_keys leaderboard ++ map fst members) ->
  fold_left
    (fun lb (member : Z * Z) =>
       let '(member_id, score) := member in
       let tied := 1 <? len group in
       dict_set member_id {| rank := counter; score := score; tied := tied |} lb)
    members leaderboard
  = leaderboard
    ++ map (fun m : Z * Z =>
              (m.1, {| rank := counter; score := m.2;
                       tied := bool_decide (1 < len group) |})) members.
Proof.
  revert leaderboard.
  induction members as [| [m s] members IH]; intros leaderboard Hnd; simpl.
  - by rewrite app_nil_r.
  - assert (m ∉ dict_keys leaderboard) as Hfresh.
    { apply NoDup_app in Hnd as (_ & Hdisj & _). intros Hin.
      apply (Hdisj m Hin). simpl. left. }
    rewrite dict_set_fresh by done.
    rewrite IH.
    + rewrite <- app_assoc. simpl. do 4 f_equal.
      destruct (Z.ltb_spec 1 (len group)).
      * by rewrite bool_decide_eq_true_2.
      * rewrite bool_decide_eq_false_2; [done | lia].
    + unfold dict_keys in *. rewrite map_app, <- app_assoc. exact Hnd.
Qed.

Lemma assign_ranks_keys (counter : Z) (groups : list (list (Z * Z))) :
  dict_keys (assign_ranks counter groups) = map fst (concat groups).
Proof.
  unfold dict_keys. revert counter.
  induction groups as [| g gs IH]; intros counter; simpl; [done |].
  rewrite !map_app, IH, map_map. done.
Qed.

(** The outer loop, on members that are new to the leaderboard. *)
Lemma rank_groups_fresh (grouped : list (Z * list (Z * Z)))
    (leaderboard : list (Z * LeaderboardEntry)) (counter : Z) :
  NoDup (dict_keys leaderboard ++ map fst (concat (map snd grouped))) ->
  fold_left
    (fun (st : list (Z * LeaderboardEntry) * Z) (kg : Z * list (Z * Z)) =>
       let '(leaderboard, rank) := st in
       let group := kg.2 in
       (rank_group rank group leaderboard, rank + len group))
    grouped (leaderboard, counter)
  = (leaderboard ++ assign_ranks counter (map snd grouped),
     counter + len (concat (map snd grouped))).
Proof.
  revert leaderboard counter.
  induction grouped as [| [k g] gs IH]; intros leaderboard counter Hnd; simpl.
  - rewrite app_nil_r. f_equal. unfold len. simpl. lia.
  - simpl in Hnd. rewrite map_app, app_assoc in Hnd.
    unfold rank_group. rewrite rank_members_fresh.
    + rewrite IH.
      * rewrite <- app_assoc, len_app. f_equal. lia.
      * unfold dict_keys in *. rewrite map_app, map_map. exact Hnd.
    + by apply NoDup_app in Hnd as (Hnd & _ & _).
Qed.

(** The code computes the ranking that the specification describes. *)
Lemma get_sorted_leaderboard_refines (scores : list (Z * Z)) :
  NoDup (dict_keys scores) ->
  _get_sorted_leaderboard scores = leaderboard_spec scores.
Proof.
  intros Hnd.
  assert (NoDup (map fst (sorted_desc scores))) as Hs.
  { unfold dict_keys in Hnd. by rewrite sorted_desc_perm. }
  unfold _get_sorted_leaderboard, leaderboard_spec.
  destruct scores as [| x scores]; [done |].
  cbv zeta. rewrite rank_groups_fresh; [done |].
  by rewrite groupby_concat.
Qed.

Lemma count_scores_app (P : Z -> bool) (l1 l2 : list (Z * Z)) :
  count_scores P (l1 ++ l2) = count_scores P l1 + count_scores P l2.
Proof. unfold count_scores. by rewrite filter_app, len_app. Qed.

Lemma count_scores_all (P : Z -> bool) (l : list (Z * Z)) :
  Forall (fun e : Z * Z => P e.2 = true) l -> count_scores P l = len l.
Proof.
  unfold count_scores. induction 1 as [| e l He Hl IH]; [done |].
  rewrite filter_cons_True by done. unfold len in *. simpl. lia.
Qed.

Lemma count_scores_none (P : Z -> bool) (l : list (Z * Z)) :
  Forall (fun e : Z * Z => P e.2 = false) l -> count_scores P l = 0.
Proof.
  unfold count_scores. induction 1 as [| e l He Hl IH]; [done |].
  rewrite filter_cons_False by congruence. done.
Qed.

Lemma count_scores_perm (P : Z -> bool) (l1 l2 : list (Z * Z)) :
  l1 ≡ₚ l2 -> count_scores P l1 = count_scores P l2.
Proof. intros H. unfold count_scores, len. by rewrite H. Qed.

Lemma dict_get_app {V : Type} (k : Z) (d1 d2 : list (Z * V)) :
  dict_get k (d1 ++ d2)
  = match dict_get k d1 with Some v => Some v | None => dict_get k d2 end.
Proof.
  induction d1 as [| [k' v'] d1 IH]; simpl; [done |].
  by destruct (decide (k = k')).
Qed.

(** The entry of a member under [assign_ranks], in terms of counts: the rank
    is the counter plus the number of entries with a greater score, and the
    member is tied when more than one entry has its score. *)
Lemma assign_ranks_lookup (grouped : list (Z * list (Z * Z))) :
  desc_groups grouped ->
  forall counter m s,
    NoDup (map fst (concat (map snd grouped))) ->
    (m, s) ∈ concat (map snd grouped) ->
    dict_get m (assign_ranks counter (map snd grouped))
    = Some {| rank := counter
                      + count_scores (fun x => s <? x) (concat (map snd grouped));
              score := s;
              tied := bool_decide
                        (1 < count_scores (fun x => x =? s)
                               (concat (map snd grouped))) |}.
Proof.
  induction 1 as [| k g gs Hne Hg Hgs Hrest IH]; intros counter m s Hnd Hin.
  - simpl in Hin. by apply not_elem_of_nil in Hin.
  - simpl in *. rewrite map_app in Hnd.
    apply NoDup_app in Hnd as (Hnd_g & Hdisj & Hnd_gs).
    pose proof (desc_groups_scores_lt k gs Hrest Hgs) as Hlt.
    rewrite dict_get_app, !count_scores_app.
    apply elem_of_app in Hin as [Hin | Hin].
    + assert (s = k) as ->.
      { rewrite Forall_forall in Hg. by apply Hg in Hin. }
      rewrite (dict_get_elem _ m {| rank := counter; score := k;
                                    tied := bool_decide (1 < len g) |}).
      * rewrite (count_scores_none (fun x => k <? x) g),
          (count_scores_none (fun x => k <? x) (concat (map snd gs))),
          (count_scores_all (fun x => x =? k) g),
          (count_scores_none (fun x => x =? k) (concat (map snd gs))).
        -- by rewrite !Z.add_0_r.
        -- eapply Forall_impl; [exact Hlt |]. simpl. intros e He.
           apply Z.eqb_neq. lia.
        -- eapply Forall_impl; [exact Hg |]. simpl. intros e He.
           by apply Z.eqb_eq.
        -- eapply Forall_impl; [exact Hlt |]. simpl. intros e He.
           apply Z.ltb_ge. lia.
        -- eapply Forall_impl; [exact Hg |]. simpl. intros e He.
           apply Z.ltb_ge. lia.
      * unfold dict_keys. by rewrite map_map.
      * apply list_elem_of_fmap. by exists (m, k).
    + assert (s < k) as Hs.
      { rewrite Forall_forall in Hlt. by apply Hlt in Hin. }
      assert (m ∉ map fst g) as Hm.
      { intros Hmg. apply (Hdisj m Hmg). apply list_elem_of_fmap. by exists (m, s). }
      destruct (dict_get m (map _ g)) as [e |] eqn:E.
      { exfalso. apply Hm. apply dict_get_Some_elem in E.
        apply list_elem_of_fmap in E as ([m' s'] & [= -> _] & Hin').
        apply list_elem_of_fmap. by exists (m', s'). }
      rewrite (IH (counter + len g) m s Hnd_gs Hin).
      rewrite (count_scores_all (fun x => s <? x) g),
        (count_scores_none (fun x => x =? s) g).
      * rewrite Z.add_0_l. do 2 f_equal. lia.
      * eapply Forall_impl; [exact Hg |]. simpl. intros e' He.
        apply Z.eqb_neq. lia.
      * eapply Forall_impl; [exact Hg |]. simpl. intros e' He.
        apply Z.ltb_lt. lia.
Qed.

(** C2: for every score mapping, the leaderboard is the ranking of the
    groups of equal score of the mapping sorted descending by score (a
    permutation of the mapping, every entry at least as high as the later
    ones, split into runs of one score each, of strictly decreasing score):
    every member of a group gets the rank counter and
    [tied = (group size > 1)], and the counter advances by the size of the
    group.  So a member with score [s] has rank one plus the number of
    entries with a greater score, and is tied when another entry has score
    [s]; a member without score has no entry.  For [{1: 10, 2: 10, 3: 5}]
    the leaderboard is [{1: (1, 10, tied), 2: (1, 10, tied), 3: (3, 5, not tied)}]. *)
Theorem get_sorted_leaderboard_ranks (scores : list (Z * Z)) :
  NoDup (dict_keys scores) ->
  _get_sorted_leaderboard scores = leaderboard_spec scores
  /\ sorted_desc scores ≡ₚ scores
  /\ StronglySorted score_ge (sorted_desc scores)
  /\ concat (map snd (groupby (sorted_desc scores))) = sorted_desc scores
  /\ desc_groups (groupby (sorted_desc scores))
  /\ (forall m,
        dict_get m (_get_sorted_leaderboard scores)
        = match dict_get m scores with
          | Some s =>
              Some {| rank := 1 + count_scores (fun x => s <? x) scores;
                      score := s;
                      tied := bool_decide
                                (1 < count_scores (fun x => x =? s) scores) |}
          | None => None
          end)
  /\ _get_sorted_leaderboard [(1, 10); (2, 10); (3, 5)]
     = [(1, {| rank := 1; score := 10; tied := true |});
        (2, {| rank := 1; score := 10; tied := true |});
        (3, {| rank := 3; score := 5; tied := false |})].
Proof.
  intros Hnd.
  pose proof (sorted_desc_perm scores) as Hperm.
  pose proof (sorted_desc_sorted scores) as Hsorted.
  pose proof (groupby_concat (sorted_desc scores)) as Hcat.
  pose proof (groupby_desc_groups _ Hsorted) as Hgroups.
  split_and!; try done.
  - by apply get_sorted_leaderboard_refines.
  - intros m. rewrite get_sorted_leaderboard_refines by done.
    unfold leaderboard_spec.
    assert (NoDup (map fst (sorted_desc scores))) as Hnd'.
    { unfold dict_keys in Hnd. by rewrite Hperm. }
    destruct (dict_get m scores) as [s |] eqn:E.
    + apply dict_get_Some_elem in E. rewrite <- Hperm in E.
      rewrite (assign_ranks_lookup _ Hgroups 1 m s); rewrite Hcat; try done.
      by rewrite !(count_scores_perm _ _ _ Hperm).
    + apply dict_get_None. rewrite assign_ranks_keys, Hcat.
      apply dict_get_None in E. unfold dict_keys in E. by rewrite Hperm.
Qed.

(** The scores [{1: 7, 2: 9, 3: 7}]: member 2 is first, members 1 and 3 are
    tied for the second place. *)
Lemma get_sorted_leaderboard_ranks_witness :
  _get_sorted_leaderboard [(1, 7); (2, 9); (3, 7)]
  = [(2, {| rank := 1; score := 9; tied := false |});
     (1, {| rank := 2; score := 7; tied := true |});
     (3, {| rank := 2; score := 7; tied := true |})].
Proof.
  assert (NoDup (dict_keys [(1, 7); (2, 9); (3, 7)])) as Hnd.
  { unfold dict_keys. simpl. compute_done. }
  rewrite (proj1 (get_sorted_leaderboard_ranks [(1, 7); (2, 9); (3, 7)] Hnd)).
  vm_compute. reflexivity.
Defined.

(* ===================================================================== *)
(** * The game loop and the scoreboard                                    *)
(* ===================================================================== *)

Lemma process_scores_scoreboard (scores : list (Z * ReactionPoints)) (c : NinjaHunt) :
  scoreboard (_process_scores scores c) = apply_scores scores (scoreboard c)
  /\ blocked_users (_process_scores scores c) = blocked_users c
  /\ _running (_process_scores scores c) = _running c
  /\ _state (_process_scores scores c) = _state c.
Proof.
  unfold _process_scores, apply_scores. revert c.
  induction scores as [| [u rp] scores IH]; intros c; [done |].
  cbn [fold_left]. destruct (IH (with_scoreboard
    (RedisCache_increment u (points rp) (scoreboard c)) c)) as (-> & -> & -> & ->).
  done.
Qed.

(** The scoreboard after [_process_results] depends on the scoreboard and
    the blocked members only. *)
Lemma process_results_scoreboard (scores : list (Z * ReactionPoints))
    (c c' : NinjaHunt) :
  scoreboard c' = scoreboard c ->
  blocked_users c' = blocked_users c ->
  scoreboard (_process_results scores c') = scoreboard (_process_results scores c).
Proof.
  intros Hs Hb. unfold _process_results, _filter_blocked_users.
  rewrite !(proj1 (process_scores_scoreboard _ _)). by rewrite Hs, Hb.
Qed.

(** Members without points in a round keep their score. *)
Lemma apply_scores_other (scores : list (Z * ReactionPoints)) (sb : gmap Z Z)
    (u : Z) :
  u ∉ dict_keys scores -> apply_scores scores sb !! u = sb !! u.
Proof.
  unfold apply_scores, dict_keys. revert sb.
  induction scores as [| [u' rp] scores IH]; intros sb Hu; [done |].
  simpl in Hu. apply not_elem_of_cons in Hu as [Hne Hu].
  cbn [fold_left fst snd]. rewrite IH by done.
  unfold RedisCache_increment. by rewrite lookup_insert_ne.
Qed.

Lemma filter_blocked_users_ext (scores : list (Z * ReactionPoints))
    (c c' : NinjaHunt) :
  blocked_users c' = blocked_users c ->
  _filter_blocked_users scores c' = _filter_blocked_users scores c.
Proof. intros H. unfold _filter_blocked_users. by rewrite H. Qed.

Lemma game_stop_task_alive (c : NinjaHunt) :
  game_stop false c
  = with_state NOT_RUNNING (with_config_running (Some false) (with_running false c)).
Proof. unfold game_stop. by rewrite andb_false_r. Qed.

Lemma game_not_running (settings : Settings) (envs : list round_env)
    (c : NinjaHunt) :
  _running c = false -> NinjaHunt_game settings envs c = c.
Proof. intros H. destruct envs; cbn [NinjaHunt_game]; by rewrite ?H. Qed.

(** The cog after [run()] of the reaction phase: a stop request has cleared
    the flag, or nothing has changed; the phase does not depend on the cog. *)
Lemma reaction_run_cog (settings : Settings) (env : round_env)
    (entered : ReactionPhase) (c : NinjaHunt) :
  fst (reaction_run settings env entered c)
  = match env_reaction env with
    | Undisturbed => c
    | StopRequested => game_stop false c
    end.
Proof. unfold reaction_run. by destruct (env_reaction env). Qed.

Lemma reaction_run_phase (settings : Settings) (env : round_env)
    (entered : ReactionPhase) (c c' : NinjaHunt) :
  snd (reaction_run settings env entered c)
  = snd (reaction_run settings env entered c').
Proof. unfold reaction_run. by destruct (env_reaction env). Qed.

(** What [_process_results] in the game task leaves of the scoreboard. *)
Lemma process_results_step_scoreboard (env : round_env)
    (scores : list (Z * ReactionPoints)) (c : NinjaHunt) :
  let after := process_results_step env scores c in
  match env_processing env with
  | ResultsUndisturbed =>
      snd after = Ok ()
      /\ scoreboard (fst after) = scoreboard (_process_results scores c)
      /\ _running (fst after) = _running c
  | StopWhileFiltering =>
      snd after = Raise CancelledError
      /\ scoreboard (fst after) = scoreboard c
      /\ _running (fst after) = false
  | StopWhileScoring applied =>
      snd after = Raise CancelledError
      /\ scoreboard (fst after)
         = apply_scores (take applied (_filter_blocked_users scores c))
                        (scoreboard c)
      /\ _running (fst after) = false
  | StopWhileSending =>
      snd after = Raise CancelledError
      /\ scoreboard (fst after) = scoreboard (_process_results scores c)
      /\ _running (fst after) = false
  end.
Proof.
  cbv zeta. unfold process_results_step.
  destruct (env_processing env) as [| | applied |]; cbn [fst snd];
    rewrite ?game_stop_task_alive; cbn [scoreboard _running with_state
      with_config_running with_running]; split_and!; try done.
  - unfold _process_results.
    by rewrite (proj1 (proj2 (proj2 (process_scores_scoreboard _ _)))).
  - by rewrite (proj1 (process_scores_scoreboard _ _)).
Qed.

Section GameLoop.
Variable settings : Settings.
Variable env : round_env.
Variable c : NinjaHunt.
Variable sleeping_phase : SleepingPhase.
Hypothesis Hconstructed :
  SleepingPhase_init settings (env_entropy env) (env_sleep_start env)
  = Ok sleeping_phase.

(** A stop request during the sleeping phase ends the pass after that phase. *)
Lemma game_loop_stop_while_sleeping :
  env_sleeping env = StopRequested ->
  _game_loop settings env c = (game_stop false (with_state SLEEPING c), Ok ()).
Proof.
  intros Hs. unfold _game_loop, sleeping_block.
  rewrite Hconstructed, Hs. unfold game_stop.
  rewrite andb_false_r. reflexivity.
Qed.

(** A stop request during the synchronisation of the permissions ends the
    game task. *)
Lemma game_loop_stop_while_syncing :
  _running c = true ->
  env_sleeping env = Undisturbed ->
  env_syncing env = StopRequested ->
  _game_loop settings env c
  = (game_stop false (with_state SLEEPING c), Raise CancelledError).
Proof.
  intros Hr Hs Hsync. unfold _game_loop, sleeping_block.
  rewrite Hconstructed, Hs. cbn [_running with_state negb].
  by rewrite Hr, Hsync.
Qed.

(** A stop request during the hunting phase ends the pass after that phase. *)
Lemma game_loop_stop_while_hunting :
  _running c = true ->
  env_sleeping env = Undisturbed ->
  env_syncing env = Undisturbed ->
  env_sync_allowdeny env = Ok () ->
  env_hunting env = None ->
  _game_loop settings env c
  = (game_stop false (with_state HUNTING (with_state SLEEPING c)), Ok ()).
Proof.
  intros Hr Hs Hsyncing Hsync Hh. unfold _game_loop, sleeping_block, hunting_block.
  rewrite Hconstructed, Hs. cbn [_running with_state negb].
  rewrite Hr, Hsyncing, Hsync, Hh. unfold game_stop. cbn [negb].
  rewrite andb_false_r. reflexivity.
Qed.

(** A stop request during [__aenter__] of the reaction phase ends the game
    task. *)
Lemma game_loop_stop_while_entering (message : Message) :
  _running c = true ->
  env_sleeping env = Undisturbed ->
  env_syncing env = Undisturbed ->
  env_sync_allowdeny env = Ok () ->
  env_hunting env = Some message ->
  env_entering env = StopRequested ->
  _game_loop settings env c
  = (game_stop false
       (with_state ACTIVE_REACTION (with_state HUNTING (with_state SLEEPING c))),
     Raise CancelledError).
Proof.
  intros Hr Hs Hsyncing Hsync Hh He.
  unfold _game_loop, sleeping_block, hunting_block, reaction_block.
  rewrite Hconstructed, Hs. cbn [_running with_state negb].
  rewrite Hr, Hsyncing, Hsync, Hh.
  cbn [negb run snd _running with_state cog_fallback_emoji].
  rewrite Hr. cbn [negb]. by rewrite He.
Qed.

(** A pass that has entered the reaction phase goes on to [__aexit__] and to
    [_process_results], however [run()] of that phase ends. *)
Lemma game_loop_reaches_scoring (message : Message) :
  _running c = true ->
  env_sleeping env = Undisturbed ->
  env_syncing env = Undisturbed ->
  env_sync_allowdeny env = Ok () ->
  env_hunting env = Some message ->
  env_entering env = Undisturbed ->
  snd (entered_reaction_phase env message c) = Ok () ->
  let c' := with_state ACTIVE_REACTION (with_state HUNTING (with_state SLEEPING c)) in
  let c'' := match env_reaction env with
             | Undisturbed => c'
             | StopRequested => game_stop false c'
             end in
  _game_loop settings env c
  = match env_exiting env with
    | StopRequested => (game_stop false c'', Raise CancelledError)
    | Undisturbed =>
        process_results_step env (round_scores settings env message c) c''
    end.
Proof.
  intros Hr Hs Hsyncing Hsync Hh He Henter. cbv zeta.
  unfold _game_loop, sleeping_block, hunting_block, reaction_block.
  rewrite Hconstructed, Hs. cbn [_running with_state negb].
  rewrite Hr, Hsyncing, Hsync, Hh.
  cbn [negb run snd _running with_state cog_fallback_emoji].
  rewrite Hr. cbn [negb]. rewrite He.
  unfold round_scores. unfold entered_reaction_phase in *.
  destruct (ReactionPhase_aenter _ _ _) as [phase [[] | e]]; [| done].
  cbn [fst].
  set (c' := with_state ACTIVE_REACTION (with_state HUNTING (with_state SLEEPING c))).
  rewrite (surjective_pairing (reaction_run settings env phase c')).
  rewrite reaction_run_cog, (reaction_run_phase settings env phase c' c).
  by destruct (env_exiting env).
Qed.

End GameLoop.

(** C5 (amended): in a pass of the game loop that is entered with the running
    flag set, a stop request during [run()] of the sleeping phase or of the
    hunting phase ends the pass right after that phase, with the scoreboard
    untouched; after the reaction phase the flag is not looked at: a stop
    request during [run()] of the reaction phase is swallowed there, and the
    points of the round are applied to the scoreboard all the same; a stop
    request that finds the game task anywhere else ends it with
    [CancelledError] on the spot: during the synchronisation of the
    permissions, during [__aenter__] or [__aexit__] of the reaction phase or
    while the blocked members are read nothing is applied, while the scores
    are applied only the increments already made remain, and while the
    summary is sent all points are applied.  Only the loop around the passes
    looks at the flag again: it starts no further pass once the flag is
    cleared. *)
Theorem game_loop_running_checks (settings : Settings) (env : round_env)
    (c : NinjaHunt) (sleeping_phase : SleepingPhase) :
  SleepingPhase_init settings (env_entropy env) (env_sleep_start env)
  = Ok sleeping_phase ->
  _running c = true ->
  let after := _game_loop settings env c in
  (env_sleeping env = StopRequested ->
   snd after = Ok ()
   /\ scoreboard (fst after) = scoreboard c
   /\ _running (fst after) = false
   /\ _state (fst after) = NOT_RUNNING)
  /\ (env_sleeping env = Undisturbed ->
      env_syncing env = StopRequested ->
      snd after = Raise CancelledError
      /\ scoreboard (fst after) = scoreboard c
      /\ _running (fst after) = false)
  /\ (env_sleeping env = Undisturbed ->
      env_syncing env = Undisturbed ->
      env_sync_allowdeny env = Ok () ->
      env_hunting env = None ->
      snd after = Ok ()
      /\ scoreboard (fst after) = scoreboard c
      /\ _running (fst after) = false
      /\ _state (fst after) = NOT_RUNNING)
  /\ (forall message,
        env_sleeping env = Undisturbed ->
        env_syncing env = Undisturbed ->
        env_sync_allowdeny env = Ok () ->
        env_hunting env = Some message ->
        (env_entering env = StopRequested ->
         snd after = Raise CancelledError
         /\ scoreboard (fst after) = scoreboard c
         /\ _running (fst after) = false)
        /\ (env_entering env = Undisturbed ->
            snd (entered_reaction_phase env message c) = Ok () ->
            (env_exiting env = StopRequested
             \/ env_processing env = StopWhileFiltering ->
             snd after = Raise CancelledError
             /\ scoreboard (fst after) = scoreboard c
             /\ _running (fst after) = false)
            /\ (env_exiting env = Undisturbed ->
                env_processing env = ResultsUndisturbed ->
                snd after = Ok ()
                /\ scoreboard (fst after)
                   = scoreboard (_process_results
                                   (round_scores settings env message c) c)
                /\ _running (fst after)
                   = match env_reaction env with
                     | Undisturbed => true
                     | StopRequested => false
                     end)
            /\ (forall applied,
                  env_exiting env = Undisturbed ->
                  env_processing env = StopWhileScoring applied ->
                  snd after = Raise CancelledError
                  /\ scoreboard (fst after)
                     = apply_scores
                         (take applied
                            (_filter_blocked_users
                               (round_scores settings env message c) c))
                         (scoreboard c)
                  /\ _running (fst after) = false)
            /\ (env_exiting env = Undisturbed ->
                env_processing env = StopWhileSending ->
                snd after = Raise CancelledError
                /\ scoreboard (fst after)
                   = scoreboard (_process_results
                                   (round_scores settings env message c) c)
                /\ _running (fst after) = false)))
  /\ (forall envs,
        _running (fst after) = false ->
        NinjaHunt_game settings (env :: envs) c = fst after).
Proof.
  intros Hinit Hr after. subst after. split_and!.
  - intros Hs.
    rewrite (game_loop_stop_while_sleeping settings env c _ Hinit Hs).
    by rewrite game_stop_task_alive.
  - intros Hs Hsyncing.
    rewrite (game_loop_stop_while_syncing settings env c _ Hinit Hr Hs Hsyncing).
    by rewrite game_stop_task_alive.
  - intros Hs Hsyncing Hsync Hh.
    rewrite (game_loop_stop_while_hunting settings env c _ Hinit Hr Hs Hsyncing
               Hsync Hh).
    by rewrite game_stop_task_alive.
  - intros message Hs Hsyncing Hsync Hh. split.
    { intros He.
      rewrite (game_loop_stop_while_entering settings env c _ Hinit message
                 Hr Hs Hsyncing Hsync Hh He).
      by rewrite game_stop_task_alive. }
    intros He Henter.
    rewrite (game_loop_reaches_scoring settings env c _ Hinit message
               Hr Hs Hsyncing Hsync Hh He Henter).
    set (c' := with_state ACTIVE_REACTION
                 (with_state HUNTING (with_state SLEEPING c))).
    set (c'' := match env_reaction env with
                | Undisturbed => c'
                | StopRequested => game_stop false c'
                end).
    assert (scoreboard c'' = scoreboard c /\ blocked_users c'' = blocked_users c
            /\ _running c'' = match env_reaction env with
                              | Undisturbed => true
                              | StopRequested => false
                              end) as (Hsb & Hbl & Hrun).
    { subst c'' c'. destruct (env_reaction env);
        rewrite ?game_stop_task_alive; cbn; by rewrite ?Hr. }
    pose proof (process_results_step_scoreboard env
                  (round_scores settings env message c) c'') as Hstep.
    cbv zeta in Hstep.
    split_and!.
    + intros [Hx | Hp].
      * rewrite Hx, game_stop_task_alive. cbn. by rewrite Hsb.
      * destruct (env_exiting env).
        -- rewrite Hp in Hstep. destruct Hstep as (-> & -> & ->). by rewrite Hsb.
        -- rewrite game_stop_task_alive. cbn. by rewrite Hsb.
    + intros Hx Hp. rewrite Hx. rewrite Hp in Hstep.
      destruct Hstep as (-> & -> & ->). split_and!; [done | | done].
      by apply process_results_scoreboard.
    + intros applied Hx Hp. rewrite Hx. rewrite Hp in Hstep.
      destruct Hstep as (-> & -> & ->). split_and!; [done | | done].
      by rewrite Hsb, (filter_blocked_users_ext _ c c'').
    + intros Hx Hp. rewrite Hx. rewrite Hp in Hstep.
      destruct Hstep as (-> & -> & ->). split_and!; [done | | done].
      by apply process_results_scoreboard.
  - intros envs Hstop. cbn [NinjaHunt_game]. rewrite Hr.
    destruct (_game_loop settings env c) as [c' [u | e]]; cbn [fst] in *;
      [| destruct e]; by rewrite ?game_not_running.
Qed.

(** A window of 60 seconds and 10 points; member 7 reacts 6 seconds into the
    reaction phase, and a stop request arrives during [run()] of that phase:
    the pass ends with the points of the round applied. *)
Lemma game_loop_running_checks_witness :
  let after := _game_loop (scoring_settings 60 10)
                 (example_round Undisturbed false StopRequested) (running_cog ∅) in
  snd after = Ok ()
  /\ scoreboard (fst after)
     = scoreboard (_process_results
                     (round_scores (scoring_settings 60 10)
                        (example_round Undisturbed false StopRequested)
                        example_message (running_cog ∅))
                     (running_cog ∅))
  /\ _running (fst after) = false.
Proof.
  cbv zeta.
  pose proof (game_loop_running_checks (scoring_settings 60 10)
                (example_round Undisturbed false StopRequested) (running_cog ∅)
                _ eq_refl eq_refl) as H.
  cbv zeta in H. destruct H as (_ & _ & _ & H & _).
  destruct (H example_message eq_refl eq_refl eq_refl eq_refl) as [_ H'].
  destruct (H' eq_refl eq_refl) as (_ & H'' & _).
  exact (H'' eq_refl eq_refl).
Defined.

(** C5 as stated fails: a stop request during [run()] of the reaction phase
    clears the running flag, and the 9 points that member 7 earned in that
    round are applied to the scoreboard all the same. *)
Lemma stop_during_reaction_still_scores :
  env_reaction (example_round Undisturbed false StopRequested) = StopRequested
  /\ scoreboard (running_cog ∅) !! 7 = None
  /\ _running (fst (_game_loop (scoring_settings 60 10)
                      (example_round Undisturbed false StopRequested)
                      (running_cog ∅))) = false
  /\ scoreboard (fst (_game_loop (scoring_settings 60 10)
                        (example_round Undisturbed false StopRequested)
                        (running_cog ∅))) !! 7 = Some 9.
Proof. split_and!; vm_compute; reflexivity. Qed.

(** A stop request during [__aexit__] of the reaction phase: the game task
    ends with [CancelledError] and the 9 points of member 7 are not applied. *)
Example stop_during_exit_does_not_score :
  _game_loop (scoring_settings 60 10)
    (example_round_end StopRequested ResultsUndisturbed) (running_cog ∅)
  = (game_stop false (with_state ACTIVE_REACTION (running_cog ∅)),
     Raise CancelledError)
  /\ scoreboard (fst (_game_loop (scoring_settings 60 10)
                        (example_round_end StopRequested ResultsUndisturbed)
                        (running_cog ∅))) !! 7 = None.
Proof. split; vm_compute; reflexivity. Qed.

(** Whatever a pass of the game loop does, its scoreboard is the one it
    started with, or that one with points of the round applied: all of them
    or, when a stop request ends the game task while they are applied, the
    first of them. *)
Lemma game_loop_scoreboard (settings : Settings) (env : round_env) (c : NinjaHunt) :
  scoreboard (fst (_game_loop settings env c)) = scoreboard c
  \/ exists message applied,
       env_hunting env = Some message
       /\ scoreboard (fst (_game_loop settings env c))
          = apply_scores
              (take applied
                 (_filter_blocked_users (round_scores settings env message c) c))
              (scoreboard c)
       /\ (env_processing env = ResultsUndisturbed ->
           scoreboard (fst (_game_loop settings env c))
           = scoreboard (_process_results
                           (round_scores settings env message c) c)).
Proof.
  destruct (SleepingPhase_init settings (env_entropy env) (env_sleep_start env))
    as [sp | e] eqn:Hinit.
  2:{ left. unfold _game_loop, sleeping_block. by rewrite Hinit. }
  destruct (_running c) eqn:Hr.
  2:{ left. unfold _game_loop, sleeping_block. rewrite Hinit.
      destruct (env_sleeping env); rewrite ?game_stop_task_alive;
        cbn [_running with_state with_config_running with_running negb fst];
        by rewrite ?Hr. }
  pose proof (game_loop_running_checks settings env c sp Hinit Hr) as H.
  cbv zeta in H. destruct H as (H1 & H2 & H3 & H4 & _).
  destruct (env_sleeping env); [| left; by apply H1].
  destruct (env_syncing env); [| left; by apply H2].
  destruct (env_sync_allowdeny env) as [[] | e] eqn:Hsync.
  2:{ left. unfold _game_loop, sleeping_block. rewrite Hinit.
      destruct (env_sleeping env) eqn:Hs.
      - cbn [_running with_state negb]. rewrite Hr.
        destruct (env_syncing env); [by rewrite Hsync |].
        by rewrite game_stop_task_alive.
      - by rewrite !game_stop_task_alive. }
  destruct (env_hunting env) as [message |] eqn:Hh; [| left; by apply H3].
  destruct (H4 message eq_refl eq_refl eq_refl eq_refl) as [He Hentered].
  destruct (env_entering env); [| left; by apply He].
  destruct (snd (entered_reaction_phase env message c)) as [[] | e] eqn:Henter.
  2:{ left. unfold _game_loop, sleeping_block, hunting_block, reaction_block.
      rewrite Hinit.
      destruct (env_sleeping env) eqn:Hs.
      2:{ by rewrite !game_stop_task_alive. }
      cbn [_running with_state negb]. rewrite Hr.
      destruct (env_syncing env); [| by rewrite game_stop_task_alive].
      rewrite Hsync, Hh.
      cbn [negb run snd _running with_state cog_fallback_emoji]. rewrite Hr.
      cbn [negb].
      destruct (env_entering env); [| by rewrite game_stop_task_alive].
      unfold entered_reaction_phase in Henter.
      destruct (ReactionPhase_aenter _ _ _) as [phase [[] | e']]; [done |].
      done. }
  destruct (Hentered eq_refl eq_refl) as (Hx & Hok & Hpart & Hsend).
  destruct (env_exiting env); [| left; apply Hx; by left].
  assert (forall scores : list (Z * ReactionPoints),
             scoreboard (_process_results scores c)
             = apply_scores
                 (take (length (_filter_blocked_users scores c))
                       (_filter_blocked_users scores c))
                 (scoreboard c)) as Hfull.
  { intros scores. rewrite firstn_all. unfold _process_results.
    apply process_scores_scoreboard. }
  destruct (env_processing env) as [| | applied |].
  - right. exists message, (length (_filter_blocked_users
                                       (round_scores settings env message c) c)).
    destruct (Hok eq_refl eq_refl) as (_ & Hs & _).
    split_and!; [done | by rewrite Hs | done].
  - left. apply Hx. by right.
  - right. exists message, applied.
    destruct (Hpart applied eq_refl eq_refl) as (_ & Hs & _).
    split_and!; [done | done | done].
  - right. exists message, (length (_filter_blocked_users
                                       (round_scores settings env message c) c)).
    destruct (Hsend eq_refl eq_refl) as (_ & Hs & _).
    split_and!; [done | by rewrite Hs | done].
Qed.

(** C7 (amended): the scoreboard is written by the application of a round's
    points, by the [block] command, which deletes the score of the blocked
    member, and by the [clear] command once it is confirmed, which empties
    the scoreboard; nothing else changes a stored score: no other command,
    neither [cog_unload] nor [on_guild_ready], and a pass of the game loop
    only through the application of its round's points, which leaves the
    members without points in that round as they are. *)
Theorem scoreboard_writers (settings : Settings) :
  (forall cmd c,
      scoreboard (run_command cmd c)
      = match cmd with
        | CmdBlock user => delete user (scoreboard c)
        | CmdGameClear ReactedConfirm => ∅
        | _ => scoreboard c
        end)
  /\ (forall c, scoreboard (cog_unload c) = scoreboard c)
  /\ (forall fallback c, scoreboard (on_guild_ready fallback c) = scoreboard c)
  /\ (forall env c,
        env_processing env = ResultsUndisturbed ->
        scoreboard (fst (_game_loop settings env c)) = scoreboard c
        \/ exists message,
             env_hunting env = Some message
             /\ scoreboard (fst (_game_loop settings env c))
                = scoreboard (_process_results
                                (round_scores settings env message c) c))
  /\ (forall env c,
        scoreboard (fst (_game_loop settings env c)) = scoreboard c
        \/ exists message applied,
             env_hunting env = Some message
             /\ scoreboard (fst (_game_loop settings env c))
                = apply_scores
                    (take applied
                       (_filter_blocked_users
                          (round_scores settings env message c) c))
                    (scoreboard c))
  /\ (forall scores c,
        scoreboard (_process_results scores c)
        = apply_scores (_filter_blocked_users scores c) (scoreboard c))
  /\ (forall scores c u,
        u ∉ dict_keys scores ->
        scoreboard (_process_results scores c) !! u = scoreboard c !! u).
Proof.
  split_and!.
  - intros cmd c. destruct cmd as [| | | | | | | | | | g | g | [] | | | |];
      try reflexivity.
    + unfold run_command, game_stop. by destruct (negb (_running c) && g).
    + unfold run_command, game_start. by destruct (_running c && negb g).
  - done.
  - done.
  - intros env c Hp.
    destruct (game_loop_scoreboard settings env c)
      as [H | (message & applied & Hh & _ & H)]; [by left |].
    right. exists message. split; [done | by apply H].
  - intros env c.
    destruct (game_loop_scoreboard settings env c)
      as [H | (message & applied & Hh & H & _)]; [by left |].
    right. by exists message, applied.
  - intros scores c. unfold _process_results.
    apply process_scores_scoreboard.
  - intros scores c u Hu. unfold _process_results.
    rewrite (proj1 (process_scores_scoreboard _ _)).
    apply apply_scores_other. unfold _filter_blocked_users, dict_keys in *.
    intros Hin. apply Hu.
    apply list_elem_of_fmap in Hin as (x & -> & Hx).
    apply list_elem_of_filter in Hx as [_ Hx].
    apply list_elem_of_fmap. by exists x.
Qed.

(** C7 as stated fails: [block] removes the stored score of the blocked
    member, and a confirmed [clear] removes every stored score. *)
Lemma block_and_clear_change_scores :
  scoreboard (running_cog {[ 7 := 9 ]}) !! 7 = Some 9
  /\ scoreboard (run_command (CmdBlock 7) (running_cog {[ 7 := 9 ]})) !! 7 = None
  /\ scoreboard (run_command (CmdGameClear ReactedConfirm)
                   (running_cog {[ 7 := 9 ]})) !! 7 = None.
Proof. split_and!; vm_compute; reflexivity. Qed.

(* ===================================================================== *)
(** * Further properties of the phases                                    *)
(* ===================================================================== *)

(** X1: the time that a sleeping phase or a reaction phase has left is never
    negative, never grows as the clock advances, and is zero from the
    deadline on, whatever the configured durations are. *)
Theorem time_remaining_bounds (settings : Settings) (s : SleepingPhase)
    (r : ReactionPhase) :
  (forall now, (0 <= SleepingPhase_time_remaining s now)%Q)
  /\ (forall now1 now2,
        (now1 <= now2)%Q ->
        (SleepingPhase_time_remaining s now2
         <= SleepingPhase_time_remaining s now1)%Q)
  /\ (forall now,
        (_timestamp (sleeping_base s) + inject_Z (_sleep_duration s) <= now)%Q ->
        (SleepingPhase_time_remaining s now == 0)%Q)
  /\ (forall now, (0 <= ReactionPhase_time_remaining settings r now)%Q)
  /\ (forall now1 now2,
        (now1 <= now2)%Q ->
        (ReactionPhase_time_remaining settings r now2
         <= ReactionPhase_time_remaining settings r now1)%Q)
  /\ (forall now,
        (_timestamp (reaction_base r) + inject_Z (TIMEOUT settings) <= now)%Q ->
        (ReactionPhase_time_remaining settings r now == 0)%Q).
Proof.
  unfold SleepingPhase_time_remaining, ReactionPhase_time_remaining. cbv zeta.
  split_and!.
  - intros now.
    destruct (py_max_Q_spec
      (inject_Z (_sleep_duration s) - (now - _timestamp (sleeping_base s))) 0)
      as [[H ->] | [H ->]]; lra.
  - intros now1 now2 Hle.
    destruct (py_max_Q_spec
      (inject_Z (_sleep_duration s) - (now1 - _timestamp (sleeping_base s))) 0)
      as [[H1 ->] | [H1 ->]],
      (py_max_Q_spec
      (inject_Z (_sleep_duration s) - (now2 - _timestamp (sleeping_base s))) 0)
      as [[H2 ->] | [H2 ->]]; lra.
  - intros now Hle.
    destruct (py_max_Q_spec
      (inject_Z (_sleep_duration s) - (now - _timestamp (sleeping_base s))) 0)
      as [[H ->] | [H ->]]; lra.
  - apply time_remaining_nonneg.
  - apply time_remaining_mono.
  - intros now Hle. unfold total_seconds, py_sub, py_float.
    assert (round64 (inject_Z (TIMEOUT settings))
            <= round64 (now - _timestamp (reaction_base r)))%Q
      by (apply round64_mono; lra).
    assert (round64 (round64 (inject_Z (TIMEOUT settings))
                     - round64 (now - _timestamp (reaction_base r))) <= 0)%Q
      by (apply round64_nonpos; lra).
    destruct (py_max_Q_spec
      (round64 (round64 (inject_Z (TIMEOUT settings))
                - round64 (now - _timestamp (reaction_base r)))) 0)
      as [[H' ->] | [H' ->]]; lra.
Qed.

(** X2: the result of a hunting phase is set at most once.  Once a message is
    the result, no later message replaces it, however many messages the
    listener still sees; an eligible message that is selected then makes
    [set_result] raise [InvalidStateError] and only advances the counter. *)
Theorem hunt_result_set_once (settings : Settings) (h : HuntingPhase) :
  _future (hunting_base h) <> FPending ->
  (forall messages,
      _future (hunting_base (hunt_all settings messages h))
      = _future (hunting_base h))
  /\ (forall message draw,
        active (hunting_base h) = true ->
        _ignored_message settings message = false ->
        (draw <= selection_threshold settings (_probability h))%Q ->
        hunt_for_messages settings h message draw
        = ({| hunting_base := hunting_base h;
              _probability := _probability h + 1 |},
           Raise InvalidStateError)).
Proof.
  intros Hf. split.
  - intros messages. revert h Hf.
    induction messages as [| [m d] messages IH]; intros h Hf; [done |].
    unfold hunt_all in *. cbn [fold_left fst snd].
    destruct (hunt_for_messages_resolved settings h m d Hf) as [Hkeep _].
    rewrite IH by (rewrite Hkeep; done). exact Hkeep.
  - intros message draw. by apply hunt_for_messages_resolved.
Qed.

(** The first eligible message is selected by the draw 0; a second message
    with the draw 0 does not replace it. *)
Lemma hunt_result_set_once_witness :
  _future (hunting_base
     (hunt_all (hunting_settings false 1)
        [(private_channel_message, 0%Q)]
        (fst (hunt_for_messages (hunting_settings false 1)
                (HuntingPhase_init 0) example_message 0))))
  = FResult (Some example_message).
Proof.
  apply (proj1 (hunt_result_set_once (hunting_settings false 1)
                  (fst (hunt_for_messages (hunting_settings false 1)
                          (HuntingPhase_init 0) example_message 0))
                  ltac:(vm_compute; discriminate))).
Defined.

Lemma listen_for_reactions_inactive (settings : Settings) (p : ReactionPhase)
    (raw : RawReactionActionEvent) (now : Q) :
  active (reaction_base p) = false ->
  _listen_for_reactions settings p raw now = (p, Returned (Ok ())).
Proof.
  intros Ha. unfold _listen_for_reactions, _relevant_reaction. by rewrite Ha.
Qed.

(** On a phase that is not active the listener starts nothing; what is left
    to happen is the end of the fetches that are pending. *)
Lemma listen_inactive (settings : Settings) (st : listening) (ev : reaction_event) :
  active (reaction_base (listening_phase st)) = false ->
  active (reaction_base (listening_phase (listen settings st ev))) = false
  /\ (forall u, u ∈ fetching (listen settings st ev) -> u ∈ fetching st)
  /\ (forall u, u ∉ fetching st ->
        dict_get u (_rewarded_users (listening_phase (listen settings st ev)))
        = dict_get u (_rewarded_users (listening_phase st))).
Proof.
  intros Ha. destruct ev as [raw now | user fetched now]; cbn [listen].
  - by rewrite listen_for_reactions_inactive.
  - destruct (bool_decide_reflect (user ∈ fetching st)) as [Hin | Hin]; [| done].
    cbn [listening_phase fetching]. split_and!.
    + by rewrite (proj1 (listen_for_reactions_resumed_fields settings
                           (listening_phase st) user fetched now)).
    + intros u. apply resume_one_subset.
    + intros u Hu. unfold _listen_for_reactions_resumed.
      destruct fetched as [m | e]; [| done].
      apply reward_other. congruence.
Qed.

Lemma listen_all_inactive (settings : Settings) (events : list reaction_event)
    (st : listening) :
  active (reaction_base (listening_phase st)) = false ->
  (forall u, u ∉ fetching st ->
     dict_get u (_rewarded_users (listening_phase (listen_all settings events st)))
     = dict_get u (_rewarded_users (listening_phase st)))
  /\ (fetching st = [] -> listen_all settings events st = st).
Proof.
  revert st. induction events as [| ev events IH]; intros st Ha; [done |].
  unfold listen_all in *. cbn [fold_left].
  destruct (listen_inactive settings st ev Ha) as (Ha' & Hsub & Hget).
  destruct (IH _ Ha') as [IH1 IH2]. split.
  - intros u Hu. rewrite IH1 by (intros H; by apply Hu, Hsub). by apply Hget.
  - intros Hnone.
    assert (listen settings st ev = st) as Hsame.
    { destruct ev as [raw now | user fetched now]; cbn [listen].
      - rewrite listen_for_reactions_inactive by done. by destruct st.
      - rewrite Hnone. rewrite bool_decide_eq_false_2; [done |].
        apply not_elem_of_nil. }
    rewrite Hsame in *. by apply IH2.
Qed.

(** X3: once [run()] of a reaction phase has returned, with the result of the
    timer or after a cancellation, a reaction that is delivered rewards
    nobody and starts no fetch; from then on an entry can change only for a
    member whose fetch was pending when [run()] returned; with no fetch
    pending, the reactions delivered while [__aexit__] waits before it
    removes the listener change nothing, and the points of the round are
    those recorded before [run()] returned. *)
Theorem late_reactions_ignored (settings : Settings) (st : listening)
    (a : awaited) (events : list reaction_event) :
  let returned :=
    {| listening_phase := fst (run (listening_phase st) a);
       fetching := fetching st |} in
  (forall raw now,
      _listen_for_reactions settings (listening_phase returned) raw now
      = (listening_phase returned, Returned (Ok ())))
  /\ (forall u,
        u ∉ fetching st ->
        dict_get u (awarded_points
                      (listening_phase (listen_all settings events returned)))
        = dict_get u (awarded_points (listening_phase st)))
  /\ (fetching st = [] ->
      listen_all settings events returned = returned
      /\ awarded_points (listening_phase (listen_all settings events returned))
         = awarded_points (listening_phase st)).
Proof.
  cbv zeta.
  assert (active (reaction_base (fst (run (listening_phase st) a))) = false) as Ha.
  { destruct a; cbn; unfold active; cbn; done. }
  assert (awarded_points (fst (run (listening_phase st) a))
          = awarded_points (listening_phase st)) as Hsame by by destruct a.
  destruct (listen_all_inactive settings events
              {| listening_phase := fst (run (listening_phase st) a);
                 fetching := fetching st |} Ha) as [Hget Hidle].
  split_and!.
  - intros raw now. by apply listen_for_reactions_inactive.
  - intros u Hu. unfold awarded_points in *. rewrite (Hget u Hu). cbn.
    by rewrite Hsame.
  - intros Hnone. rewrite (Hidle Hnone). by split.
Qed.

(** A fetch that is pending when [run()] returns still rewards its member:
    member 7 reacts without member data 6 seconds into a window of 60
    seconds, the timer ends the phase, and the fetch that ends after 65
    seconds records member 7 with 1 point. *)
Example pending_fetch_rewards_after_run :
  awarded_points (listening_phase
    (listen_all (scoring_settings 60 10)
       [ReactionAdded (bare_marker_reaction 7) 6]
       (listening_to example_reaction_phase)))
  = []
  /\ awarded_points (listening_phase
       (listen_all (scoring_settings 60 10)
          [MemberFetched 7 (Ok {| member_ident := 7 |}) 65]
          {| listening_phase :=
               fst (run (fst (reaction_wait example_reaction_phase))
                        (AwaitResult None));
             fetching := [7] |}))
     = [(7, {| rp_member := {| member_ident := 7 |}; points := 1 |})].
Proof. split; vm_compute; reflexivity. Qed.

(** X4: the marker of a reaction phase.  [__aenter__] uses the emoji that
    was created for the round, else the fallback emoji; it raises
    [NinjaError] exactly when neither exists, and never sets [_used_emoji]
    then; [_new_emoji] records the created emoji only, also when the
    reaction could not be added. *)
Theorem reaction_marker_choice (p : ReactionPhase) (created : option Z)
    (reacted : bool) :
  let after := ReactionPhase_aenter p created reacted in
  _new_emoji (fst after) = created
  /\ (snd after = Raise NinjaError
      <-> created = None /\ _fallback_emoji p = None)
  /\ (snd after = Raise NinjaError -> _used_emoji (fst after) = _used_emoji p)
  /\ (snd after <> Raise NinjaError ->
      _used_emoji (fst after)
      = match created with
        | Some e => Some e
        | None => _fallback_emoji p
        end)
  /\ (snd after = Ok () <-> snd after <> Raise NinjaError /\ reacted = true)
  /\ _rewarded_users (fst after) = _rewarded_users p
  /\ reaction_base (fst after) = reaction_base p.
Proof.
  cbv zeta. destruct p as [b u m fallback e t rewarded used].
  destruct created, fallback, reacted; cbn; split_and!;
    (done || (split; intros; (done || (destruct_and?; congruence)))).
Qed.

(* ===================================================================== *)
(** * Further properties of the score keeping                             *)
(* ===================================================================== *)

Lemma apply_scores_member (scores : list (Z * ReactionPoints)) (sb : gmap Z Z)
    (u : Z) (rp : ReactionPoints) :
  NoDup (dict_keys scores) ->
  dict_get u scores = Some rp ->
  apply_scores scores sb !! u = Some (default 0 (sb !! u) + points rp).
Proof.
  unfold apply_scores, dict_keys. revert sb.
  induction scores as [| [u' rp'] scores IH]; intros sb Hnd Hget; [done |].
  simpl in Hnd, Hget. apply NoDup_cons in Hnd as [Hu' Hnd].
  cbn [fold_left fst snd].
  destruct (decide (u = u')) as [<- | Hne].
  - injection Hget as ->.
    fold (apply_scores scores (RedisCache_increment u (points rp) sb)).
    rewrite apply_scores_other by done.
    unfold RedisCache_increment. by rewrite lookup_insert_eq.
  - rewrite IH by done. unfold RedisCache_increment.
    by rewrite lookup_insert_ne.
Qed.

Lemma filter_blocked_get (scores : list (Z * ReactionPoints)) (c : NinjaHunt)
    (u : Z) :
  dict_get u (_filter_blocked_users scores c)
  = match blocked_users c !! u with
    | Some _ => None
    | None => dict_get u scores
    end.
Proof.
  unfold _filter_blocked_users. cbv zeta.
  induction scores as [| [u' rp] scores IH]; simpl.
  - by destruct (blocked_users c !! u).
  - rewrite filter_cons. cbn [fst].
    destruct (decide (blocked_users c !! u' = None)) as [Hb | Hb]; simpl.
    + destruct (decide (u = u')) as [-> | Hne]; [by rewrite Hb | exact IH].
    + destruct (decide (u = u')) as [-> | Hne]; [| exact IH].
      rewrite IH. by destruct (blocked_users c !! u').
Qed.

Lemma filter_blocked_NoDup (scores : list (Z * ReactionPoints)) (c : NinjaHunt) :
  NoDup (dict_keys scores) -> NoDup (dict_keys (_filter_blocked_users scores c)).
Proof.
  unfold _filter_blocked_users, dict_keys. cbv zeta.
  induction scores as [| [u rp] scores IH]; simpl; [done |].
  rewrite NoDup_cons. intros [Hu Hnd]. rewrite filter_cons.
  destruct (decide _); [| auto]. simpl. apply NoDup_cons. split; [| auto].
  intros Hin. apply Hu.
  apply list_elem_of_fmap in Hin as (x & -> & Hx).
  apply list_elem_of_filter in Hx as [_ Hx].
  apply list_elem_of_fmap. by exists x.
Qed.

(** X5: what a round does to the score of a member.  With the points of the
    round keyed by member, a member that is blocked when the round is
    processed keeps the score it had, even if it reacted; so does a member
    that earned nothing; every other member's score grows by exactly the
    points it earned, a member without a score starting from 0. *)
Theorem process_results_member (scores : list (Z * ReactionPoints))
    (c : NinjaHunt) (u : Z) :
  NoDup (dict_keys scores) ->
  scoreboard (_process_results scores c) !! u
  = match blocked_users c !! u, dict_get u scores with
    | None, Some rp => Some (default 0 (scoreboard c !! u) + points rp)
    | _, _ => scoreboard c !! u
    end.
Proof.
  intros Hnd. unfold _process_results. cbv zeta.
  rewrite (proj1 (process_scores_scoreboard _ _)).
  pose proof (filter_blocked_get scores c u) as Hget.
  pose proof (filter_blocked_NoDup scores c Hnd) as Hnd'.
  destruct (blocked_users c !! u) as [b |] eqn:Hb.
  - apply apply_scores_other. by apply dict_get_None.
  - destruct (dict_get u scores) as [rp |] eqn:Hs.
    + by apply apply_scores_member.
    + apply apply_scores_other. by apply dict_get_None.
Qed.

(** Member 7 has 4 points and earns 9: it has 13 afterwards. *)
Lemma process_results_member_witness :
  scoreboard
    (_process_results
       [(7, {| rp_member := {| member_ident := 7 |}; points := 9 |})]
       (running_cog {[ 7 := 4 ]})) !! 7
  = Some 13.
Proof.
  rewrite process_results_member by (unfold dict_keys; simpl; compute_done).
  vm_compute. reflexivity.
Defined.


(* ===================================================================== *)
(** * Further properties of the reaction phase, the game and its commands *)
(* ===================================================================== *)

Lemma listen_all_marker (settings : Settings) (events : list reaction_event)
    (st : listening) :
  let p' := listening_phase (listen_all settings events st) in
  _new_emoji p' = _new_emoji (listening_phase st)
  /\ _used_emoji p' = _used_emoji (listening_phase st)
  /\ _message p' = _message (listening_phase st).
Proof.
  cbv zeta. revert st. induction events as [| ev events IH]; intros st; [done |].
  unfold listen_all in *. cbn [fold_left].
  destruct (IH (listen settings st ev)) as (-> & -> & ->).
  destruct ev as [raw now | user fetched now]; cbn [listen].
  - pose proof (listen_for_reactions_fields settings (listening_phase st) raw now)
      as (_ & Hn & Hu & Hm & _).
    by destruct (_listen_for_reactions settings (listening_phase st) raw now)
      as [p [r | user]].
  - destruct (bool_decide (user ∈ fetching st)); [| done].
    by destruct (listen_for_reactions_resumed_fields settings
                   (listening_phase st) user fetched now)
      as (_ & Hn & Hu & Hm & _).
Qed.

(** X7: what the exit of a reaction phase asks of Discord, whatever happened
    between its enter and its exit.  It clears the reaction of the marker
    that the enter chose on the hunted message, and it deletes an emoji
    exactly when one was created for the round, namely that one: the
    fallback emoji is never deleted. *)
Theorem reaction_exit_calls (settings : Settings)
    (bot : Z) (message : Message) (fallback created : option Z) (now : Q)
    (reacted : bool) (events : list reaction_event) (a : awaited) :
  let entered :=
    fst (ReactionPhase_aenter (ReactionPhase_init bot message fallback now)
           created reacted) in
  let phase :=
    fst (run (listening_phase
                (listen_all settings events (listening_to entered))) a) in
  ReactionPhase_aexit phase
  = ClearReaction (message_id message) (_used_emoji entered)
    :: match created with
       | Some e => [DeleteEmoji e]
       | None => []
       end
  /\ (forall e, DeleteEmoji e ∈ ReactionPhase_aexit phase <-> created = Some e)
  /\ (snd (ReactionPhase_aenter (ReactionPhase_init bot message fallback now)
             created reacted) = Ok () ->
      _used_emoji entered
      = match created with Some e => Some e | None => fallback end
      /\ _used_emoji entered <> None).
Proof.
  cbv zeta.
  set (entered := fst (ReactionPhase_aenter
                         (ReactionPhase_init bot message fallback now)
                         created reacted)).
  assert (ReactionPhase_aexit
            (fst (run (listening_phase
                         (listen_all settings events (listening_to entered))) a))
          = ClearReaction (message_id message) (_used_emoji entered)
            :: match created with
               | Some e => [DeleteEmoji e]
               | None => []
               end) as Hcalls.
  { unfold ReactionPhase_aexit.
    destruct (listen_all_marker settings events (listening_to entered))
      as (Hn & Hu & Hm).
    destruct a; cbn [run fst _finish _cancel ReactionPhase_methods
                       ReactionPhase_finish ReactionPhase_cancel
                       with_reaction_base with_reaction_task
                       _message _used_emoji _new_emoji];
      rewrite Hn, Hu, Hm; subst entered;
      destruct created, fallback, reacted; reflexivity. }
  split_and!.
  - exact Hcalls.
  - intros e. rewrite Hcalls. rewrite elem_of_cons. destruct created as [e' |].
    + rewrite list_elem_of_singleton. split.
      * intros [H | H]; [discriminate | congruence].
      * intros [= ->]. by right.
    + split; [| discriminate].
      intros [H | H]; [discriminate | by apply not_elem_of_nil in H].
  - subst entered. destruct created, fallback, reacted; cbn; intros H;
      (discriminate || done).
Qed.

Lemma game_loop_no_sleeping_phase (settings : Settings) (env : round_env)
    (c : NinjaHunt) :
  MAX_TIME_JITTER settings <= 0 ->
  _game_loop settings env c = (with_state SLEEPING c, Raise ValueError).
Proof.
  intros H. unfold _game_loop, sleeping_block, SleepingPhase_init. cbv zeta.
  by rewrite randint_empty by lia.
Qed.

(** X8: with [max_time_jitter <= 0] the game never gets past the state
    [SLEEPING]: every pass raises at once, [game] logs the exception and
    starts the next pass, and so on; whatever the number of passes, the
    running flag stays set and the scoreboard is never written. *)
Theorem game_spins_without_jitter (settings : Settings) (envs : list round_env)
    (c : NinjaHunt) :
  MAX_TIME_JITTER settings <= 0 ->
  _running c = true ->
  NinjaHunt_game settings envs c
  = match envs with [] => c | _ :: _ => with_state SLEEPING c end
  /\ _running (NinjaHunt_game settings envs c) = true
  /\ scoreboard (NinjaHunt_game settings envs c) = scoreboard c.
Proof.
  intros Hj Hr.
  assert (forall envs' c', _running c' = true ->
            NinjaHunt_game settings envs' (with_state SLEEPING c')
            = with_state SLEEPING c') as Hspin.
  { induction envs' as [| env envs' IH]; intros c' Hr'; [done |].
    cbn [NinjaHunt_game _running with_state]. rewrite Hr'.
    rewrite game_loop_no_sleeping_phase by done. cbn [fst].
    change (with_state SLEEPING (with_state SLEEPING c'))
      with (with_state SLEEPING c').
    by apply IH. }
  destruct envs as [| env envs].
  - done.
  - cbn [NinjaHunt_game]. rewrite Hr.
    rewrite game_loop_no_sleeping_phase by done. cbn [fst].
    rewrite Hspin by done. done.
Qed.

(** [max_time_jitter = 0]: three passes leave the game in [SLEEPING]. *)
Lemma game_spins_without_jitter_witness :
  NinjaHunt_game (sleeping_settings 5 0)
    [example_round Undisturbed false Undisturbed;
     example_round Undisturbed false Undisturbed;
     example_round Undisturbed false Undisturbed]
    (running_cog ∅)
  = with_state SLEEPING (running_cog ∅).
Proof.
  apply (proj1 (game_spins_without_jitter (sleeping_settings 5 0)
                  [example_round Undisturbed false Undisturbed;
                   example_round Undisturbed false Undisturbed;
                   example_round Undisturbed false Undisturbed]
                  (running_cog ∅) ltac:(vm_compute; discriminate) eq_refl)).
Defined.


(** X10: a game task starts from the persisted running flag, not from the
    flag in memory: with a persisted [False] it makes no pass at all, also
    when [auto_start] is set; [auto_start] decides only when nothing is
    persisted.  So a game task started after a [stop] command that took
    effect (as after a restart of the bot) makes no pass, and one started
    after a [start] command that took effect makes its passes. *)
Theorem game_task_persisted_flag (settings : Settings) (envs : list round_env)
    (c : NinjaHunt) :
  (config_running c = Some false
   \/ (config_running c = None /\ auto_start (game settings) = false) ->
   NinjaHunt_game_task settings envs c = with_running false c)
  /\ (config_running c = Some true
      \/ (config_running c = None /\ auto_start (game settings) = true) ->
      NinjaHunt_game_task settings envs c
      = NinjaHunt_game settings envs (with_running true c))
  /\ (forall game_done,
        _running c = true \/ game_done = false ->
        NinjaHunt_game_task settings envs (game_stop game_done c)
        = game_stop game_done c)
  /\ (forall game_done,
        game_status game_done c = false ->
        NinjaHunt_game_task settings envs (game_start game_done c)
        = NinjaHunt_game settings envs (game_start game_done c)).
Proof.
  unfold NinjaHunt_game_task. cbv zeta. split_and!.
  - intros [H | [H Ha]]; rewrite H; cbn [default]; rewrite ?Ha;
      by apply game_not_running.
  - intros [H | [H Ha]]; rewrite H; cbn [default]; by rewrite ?Ha.
  - intros game_done H.
    assert (game_stop game_done c
            = with_state NOT_RUNNING
                (with_config_running (Some false) (with_running false c))) as ->.
    { unfold game_stop. destruct (_running c), game_done, H; done. }
    cbn [config_running with_state with_config_running default].
    by apply game_not_running.
  - intros game_done H.
    assert (game_start game_done c
            = with_config_running (Some true) (with_running true c)) as ->.
    { unfold game_start, game_status in *. by rewrite H. }
    reflexivity.
Qed.

(* ===================================================================== *)
(** * The summary of a round                                              *)
(* ===================================================================== *)

Lemma string_length_append (s1 s2 : string) :
  String.length (s1 ++ s2) = (String.length s1 + String.length s2)%nat.
Proof. induction s1 as [| a s1 IH]; simpl; [done | by rewrite IH]. Qed.

Lemma string_length_prefix (n : nat) (s : string) :
  (n <= String.length s)%nat ->
  String.length (String.substring 0 n s) = n.
Proof.
  revert s. induction n as [| n IH]; intros s Hn.
  - by destruct s.
  - destruct s as [| a s]; simpl in *; [lia |]. rewrite IH; lia.
Qed.

Lemma string_prefix_append (n : nat) (s : string) :
  exists rest, s = (String.substring 0 n s ++ rest)%string.
Proof.
  revert s. induction n as [| n IH]; intros s.
  - exists s. by destruct s.
  - destruct s as [| a s]; simpl; [by exists EmptyString |].
    destruct (IH s) as [rest Hrest]. exists rest.
    change (String a s = String a (String.substring 0 n s ++ rest)%string).
    by f_equal.
Qed.

(** X11: the cut of the list of rewarded members in the summary.  A list of
    fewer than 1800 characters is kept as it is; a list of 1800 characters
    or more is cut to exactly 1803 characters, its first 1800 followed by
    three dots (so a list of 1800 to 1802 characters gets longer); the
    result is never longer than 1803 characters and always starts like the
    list. *)
Theorem cut_rewarded_users_length (rewarded_users : string) :
  (String.length (cut_rewarded_users rewarded_users) <= 1803)%nat
  /\ ((String.length rewarded_users < 1800)%nat ->
      cut_rewarded_users rewarded_users = rewarded_users)
  /\ ((1800 <= String.length rewarded_users)%nat ->
      String.length (cut_rewarded_users rewarded_users) = 1803%nat
      /\ exists rest,
           rewarded_users
           = (String.substring 0 1800 rewarded_users ++ rest)%string
           /\ cut_rewarded_users rewarded_users
              = (String.substring 0 1800 rewarded_users ++ "...")%string).
Proof.
  unfold cut_rewarded_users.
  destruct (Nat.leb_spec 1800 (String.length rewarded_users)) as [Hge | Hlt].
  - assert (String.length (String.substring 0 1800 rewarded_users ++ "...")
            = 1803%nat) as Hlen.
    { rewrite string_length_append, string_length_prefix by done.
      reflexivity. }
    split_and!.
    + rewrite Hlen. done.
    + intros H. lia.
    + intros _. split; [exact Hlen |].
      destruct (string_prefix_append 1800 rewarded_users) as [rest Hrest].
      by exists rest.
  - split_and!; [lia | done | lia].
Qed.

(** X12: which summary a round gets.  Nothing is sent without a summary
    channel.  Otherwise the summary is made from the reactors that are not
    blocked: the round is announced as undetected exactly when every reactor
    of the round is blocked (in particular when nobody reacted), and as
    detected, with the unblocked reactors only, in every other case. *)
Theorem round_summary_kind (channel_mention : string)
    (member_mention : Member -> string) (str : Z -> string)
    (NINJA_EMOJI : string) (summary_channel : Z)
    (scores : list (Z * ReactionPoints)) (c : NinjaHunt) :
  round_summary channel_mention member_mention str NINJA_EMOJI None scores c
  = None
  /\ (round_summary channel_mention member_mention str NINJA_EMOJI
        (Some summary_channel) scores c
      = Some (_undetected_appearance channel_mention NINJA_EMOJI)
      <-> Forall (fun item : Z * ReactionPoints =>
                    blocked_users c !! item.1 <> None) scores)
  /\ (Exists (fun item : Z * ReactionPoints =>
                blocked_users c !! item.1 = None) scores ->
      round_summary channel_mention member_mention str NINJA_EMOJI
        (Some summary_channel) scores c
      = Some (_detected_appearance channel_mention member_mention str
                (_filter_blocked_users scores c))
      /\ Forall (fun item : Z * ReactionPoints =>
                   blocked_users c !! item.1 = None)
                (_filter_blocked_users scores c)).
Proof.
  unfold round_summary, _send_embed.
  assert (_filter_blocked_users scores c = []
          <-> Forall (fun item : Z * ReactionPoints =>
                        blocked_users c !! item.1 <> None) scores) as Hnil.
  { unfold _filter_blocked_users. cbv zeta.
    induction scores as [| item scores IH]; [by split |].
    rewrite filter_cons, Forall_cons.
    destruct (decide (blocked_users c !! item.1 = None)) as [Hb | Hb].
    - split; [discriminate | intros [H _]; contradiction].
    - rewrite IH. tauto. }
  split_and!.
  - done.
  - destruct (_filter_blocked_users scores c) as [| item rest] eqn:E.
    + split; [intros _; by apply Hnil | done].
    + split.
      * intros [= H]. unfold _detected_appearance in H.
        destruct (length (item :: rest) =? 1)%nat; discriminate.
      * intros H. apply Hnil in H. discriminate.
  - intros Hex. split.
    + destruct (_filter_blocked_users scores c) as [| item rest] eqn:E; [| done].
      exfalso. pose proof (proj1 Hnil eq_refl) as Hall.
      apply Exists_exists in Hex as (x & Hx & Hb).
      rewrite Forall_forall in Hall. by apply (Hall x Hx).
    + unfold _filter_blocked_users. cbv zeta. apply Forall_forall.
      intros x Hx. by apply list_elem_of_filter in Hx as [Hx _].
Qed.

(* ===================================================================== *)
(** * The leaderboard command                                             *)
(* ===================================================================== *)

Lemma assign_ranks_scores (counter : Z) (groups : list (list (Z * Z))) :
  map (fun e : Z * LeaderboardEntry => (e.1, score e.2))
      (assign_ranks counter groups)
  = concat groups.
Proof.
  revert counter. induction groups as [| g gs IH]; intros counter; simpl;
    [done |].
  rewrite map_app, IH, map_map. f_equal.
  generalize (bool_decide (1 < len g)). intros t.
  induction g as [| [m s] g IHg]; simpl; [done | f_equal; exact IHg].
Qed.

(** The leaderboard lists the entries of the score mapping in the order of
    the sort. *)
Lemma get_sorted_leaderboard_order (scores : list (Z * Z)) :
  NoDup (dict_keys scores) ->
  map (fun e : Z * LeaderboardEntry => (e.1, score e.2))
      (_get_sorted_leaderboard scores)
  = sorted_desc scores.
Proof.
  intros Hnd. rewrite get_sorted_leaderboard_refines by done.
  unfold leaderboard_spec. by rewrite assign_ranks_scores, groupby_concat.
Qed.

Lemma sorted_app_order (l1 l2 : list (Z * Z)) (x1 x2 : Z * Z) :
  StronglySorted score_ge (l1 ++ l2) -> x1 ∈ l1 -> x2 ∈ l2 -> score_ge x1 x2.
Proof.
  induction l1 as [| y l1 IH]; simpl; intros Hs H1 H2.
  - by apply not_elem_of_nil in H1.
  - inversion Hs as [| ? ? Hs' Hy]; subst.
    apply elem_of_cons in H1 as [-> | H1]; [| by apply IH].
    rewrite Forall_forall in Hy. apply Hy. apply elem_of_app. by right.
Qed.

(** X13: the entries that the leaderboard command shows.  It shows the first
    eleven entries of the leaderboard, or all of them when there are fewer:
    with twelve or more scores it lists eleven members.  They come in the
    order of the descending sort, each with its own score, and no member
    that is left out has a higher score than a member that is shown. *)
Theorem top_ten_entries (scores : list (Z * Z)) :
  NoDup (dict_keys scores) ->
  length (top_ten scores) = Nat.min 11 (length scores)
  /\ map (fun e : Z * LeaderboardEntry => (e.1, score e.2)) (top_ten scores)
     = take 11 (sorted_desc scores)
  /\ (forall m e, (m, e) ∈ top_ten scores -> dict_get m scores = Some (score e))
  /\ (forall m e m' s',
        (m, e) ∈ top_ten scores ->
        (m', s') ∈ drop 11 (sorted_desc scores) ->
        s' <= score e).
Proof.
  intros Hnd. pose proof (get_sorted_leaderboard_order scores Hnd) as Hord.
  assert (map (fun e : Z * LeaderboardEntry => (e.1, score e.2)) (top_ten scores)
          = take 11 (sorted_desc scores)) as Htop.
  { unfold top_ten. by rewrite <- Hord, firstn_map. }
  assert (forall m e, (m, e) ∈ top_ten scores ->
                      (m, score e) ∈ take 11 (sorted_desc scores)) as Hin.
  { intros m e H. rewrite <- Htop. apply list_elem_of_fmap. by exists (m, e). }
  split_and!.
  - unfold top_ten. rewrite length_take.
    rewrite <- (length_map (fun e : Z * LeaderboardEntry => (e.1, score e.2))).
    rewrite Hord. by rewrite (Permutation_length (sorted_desc_perm scores)).
  - exact Htop.
  - intros m e H. apply dict_get_elem; [done |].
    rewrite <- (sorted_desc_perm scores).
    apply Hin in H. by apply (subseteq_take 11) in H.
  - intros m e m' s' H H'. apply Hin in H.
    pose proof (sorted_desc_sorted scores) as Hs.
    rewrite <- (take_drop 11 (sorted_desc scores)) in Hs.
    apply (sorted_app_order _ _ _ _ Hs H H').
Qed.

(** Twelve members with the scores 12, 11, ..., 1: the command shows the
    first eleven. *)
Lemma top_ten_entries_witness :
  length (top_ten [(1, 12); (2, 11); (3, 10); (4, 9); (5, 8); (6, 7); (7, 6);
                   (8, 5); (9, 4); (10, 3); (11, 2); (12, 1)]) = 11%nat.
Proof.
  assert (NoDup (dict_keys
            [(1, 12); (2, 11); (3, 10); (4, 9); (5, 8); (6, 7); (7, 6);
             (8, 5); (9, 4); (10, 3); (11, 2); (12, 1)])) as Hnd.
  { unfold dict_keys. simpl. compute_done. }
  rewrite (proj1 (top_ten_entries _ Hnd)). reflexivity.
Defined.

(* ===================================================================== *)
(** * settings.py: allow and deny sets                                    *)
(* ===================================================================== *)

Lemma wildcard_set_spec (s : AllowDenySet) :
  wildcard_set s = true <-> forall e, e ∈ _set s <-> e = EStr "*".
Proof.
  unfold wildcard_set. destruct (_set s) as [| x l] eqn:E.
  - split; [discriminate |]. intros H.
    exfalso. apply (not_elem_of_nil (EStr "*")). by apply H.
  - rewrite forallb_forall. split.
    + intros H e. split.
      * intros He. apply list_elem_of_In, H in He.
        by apply bool_decide_eq_true in He.
      * intros ->. assert (x = EStr "*") as <-; [| left].
        apply (bool_decide_eq_true_1 _ (H x (or_introl eq_refl))).
    + intros H e He. apply bool_decide_eq_true. apply H.
      by apply list_elem_of_In.
Qed.

(** X14: membership in an allow or deny set.  A set is a wildcard exactly
    when it is the set with the one element ["*"]; a wildcard contains every
    snowflake and also [None]; any other set contains exactly the integers
    that are its elements and never [None], so a ["*"] beside other elements
    matches nothing by itself, and the empty set contains nothing. *)
Theorem allow_deny_membership (s : AllowDenySet) :
  (wildcard_set s = true <-> forall e, e ∈ _set s <-> e = EStr "*")
  /\ (wildcard_set s = true -> forall x, contains s x = true)
  /\ (wildcard_set s = false ->
      contains s None = false
      /\ forall z, contains s (Some z) = true <-> EInt z ∈ _set s)
  /\ (forall z others,
        others <> [] -> Forall (fun e => e <> EStr "*") others ->
        contains {| _set := EStr "*" :: others |} (Some z) = true
        <-> EInt z ∈ others)
  /\ (forall x, contains {| _set := [] |} x = false).
Proof.
  split_and!.
  - apply wildcard_set_spec.
  - intros H x. unfold contains. by rewrite H.
  - intros H. unfold contains. rewrite H. split; [done |].
    intros z. cbn. apply bool_decide_eq_true.
  - intros z others Hne Hall.
    assert (wildcard_set {| _set := EStr "*" :: others |} = false) as Hw.
    { destruct others as [| o others]; [done |].
      apply Forall_cons in Hall as [Ho _].
      unfold wildcard_set. cbn [_set forallb].
      rewrite (bool_decide_eq_false_2 (o = EStr "*")) by done.
      by rewrite andb_false_r. }
    unfold contains. rewrite Hw. cbn. rewrite bool_decide_eq_true.
    rewrite elem_of_cons. split; [intros [H | H]; [discriminate | done] | by right].
  - intros x. unfold contains. cbn. destruct x; cbn; [| done].
    apply bool_decide_eq_false. apply not_elem_of_nil.
Qed.

(** X15: with the default allow and deny groups (allow everything, deny
    nothing) the channel and the category of a message do not matter: a
    message is hunted exactly when it comes from the configured guild, its
    author is not a bot, and, if the "public-only" setting is on, an ordinary
    member can read and write its channel. *)
Theorem default_permissions_eligibility (settings : Settings) (message : Message) :
  permissions settings
  = {| categories := AllowDenyGroup_default; channels := AllowDenyGroup_default |} ->
  _ignored_message settings message = false
  <-> message_guild message = Some (guild_id (guild settings))
      /\ author_bot message = false
      /\ (public_only (game settings) = true ->
          everyone_read_messages message = true
          /\ everyone_send_messages message = true).
Proof.
  intros Hp. unfold _ignored_message. rewrite Hp.
  destruct (bool_decide_reflect
              (message_guild message = Some (guild_id (guild settings))))
    as [Hg | Hg]; cbn [negb]; [| intuition congruence].
  destruct (author_bot message); [intuition congruence |].
  destruct (public_only (game settings)), (everyone_read_messages message),
    (everyone_send_messages message); cbn; intuition congruence.
Qed.

(** The default groups, "public-only" on: a message of the guild in a
    channel that an ordinary member cannot read is ignored. *)
Lemma default_permissions_eligibility_witness :
  _ignored_message (hunting_settings true 1) private_channel_message <> false.
Proof.
  intros H.
  apply (default_permissions_eligibility (hunting_settings true 1)
           private_channel_message eq_refl) in H as (_ & _ & H).
  destruct (H eq_refl) as [H' _]. discriminate.
Defined.

(* ===================================================================== *)
(** * The allow and deny sets in the cache                                *)
(* ===================================================================== *)

Lemma split_comma_plain (s : string) :
  has_comma s = false -> split_comma s = [s].
Proof.
  induction s as [| ch s IH]; simpl; [done |].
  destruct (Ascii.eqb ch comma); [done |]. cbn [orb].
  intros H. by rewrite IH.
Qed.

(** Splitting what was put together with a comma. *)
Lemma split_comma_append (a b : string) :
  split_comma (a ++ String comma b)%string = split_comma a ++ split_comma b.
Proof.
  induction a as [| ch a IH].
  - change (EmptyString ++ String comma b)%string with (String comma b).
    cbn [split_comma]. by rewrite Ascii.eqb_refl.
  - change (String ch a ++ String comma b)%string
      with (String ch (a ++ String comma b)).
    cbn [split_comma]. rewrite IH.
    destruct (Ascii.eqb ch comma); [done |].
    destruct (split_comma a) as [| piece pieces] eqn:E; [| done].
    exfalso. destruct a as [| ch' a]; simpl in E; [done |].
    destruct (Ascii.eqb ch' comma); [done |].
    by destruct (split_comma a).
Qed.

Lemma join_comma_cons (piece : string) (pieces : list string) :
  pieces <> [] ->
  join_comma (piece :: pieces)
  = (piece ++ String comma (join_comma pieces))%string.
Proof. intros H. unfold join_comma. by destruct pieces. Qed.

Lemma split_join_comma (pieces : list string) :
  pieces <> [] ->
  Forall (fun e => has_comma e = false) pieces ->
  split_comma (join_comma pieces) = pieces.
Proof.
  induction pieces as [| piece pieces IH]; [done |]. intros _ Hall.
  apply Forall_cons in Hall as [Hp Hall].
  destruct pieces as [| piece' pieces].
  - unfold join_comma. simpl. by apply split_comma_plain.
  - rewrite join_comma_cons by done.
    rewrite split_comma_append, split_comma_plain by done.
    by rewrite IH.
Qed.

Lemma filter_all {A : Type} (P : A -> Prop) `{forall x, Decision (P x)}
    (l : list A) :
  Forall P l -> filter P l = l.
Proof.
  induction 1 as [| x l Hx Hl IH]; [done |].
  by rewrite filter_cons_True, IH.
Qed.

Section SyncFacts.
Variable str : Z -> string.
Variable int : string -> option Z.

Lemma int_all_str (zs : list Z) :
  Forall (renders str int) zs -> int_all int (map str zs) = Ok zs.
Proof.
  induction 1 as [| z zs (Hz & _ & _) Hzs IH]; simpl; [done |].
  by rewrite Hz, IH.
Qed.


(** Reading back what [_sync_set] writes for a set of integers. *)
Lemma parse_cached_ints (zs : list Z) :
  Forall (renders str int) zs ->
  parse_cached int (join_comma (map str zs)) = Ok zs.
Proof.
  intros Hzs. unfold parse_cached. destruct zs as [| z zs]; [done |].
  assert (Forall (fun e => has_comma e = false) (map str (z :: zs))) as Hplain.
  { apply Forall_forall. intros e He.
    apply list_elem_of_fmap in He as (z' & -> & Hz').
    rewrite Forall_forall in Hzs. apply (Hzs z' Hz'). }
  assert (Forall (fun e => nonempty e = true) (map str (z :: zs))) as Hfull.
  { apply Forall_forall. intros e He.
    apply list_elem_of_fmap in He as (z' & -> & Hz').
    rewrite Forall_forall in Hzs. apply (Hzs z' Hz'). }
  rewrite split_join_comma by done.
  rewrite filter_all by done. by apply int_all_str.
Qed.

Lemma int_all_app_ok (l1 l2 : list string) (z1 z2 : list Z) :
  int_all int l1 = Ok z1 -> int_all int l2 = Ok z2 ->
  int_all int (l1 ++ l2) = Ok (z1 ++ z2).
Proof.
  revert z1. induction l1 as [| e l1 IH]; simpl; intros z1 H1 H2.
  - by injection H1 as <-.
  - destruct (int e) as [z |]; [| done].
    destruct (int_all int l1) as [zs | err] eqn:E; [| done].
    cbn [mbind result_bind mret result_ret] in H1. injection H1 as <-.
    by rewrite (IH zs eq_refl H2).
Qed.

Lemma int_all_raises (pieces : list string) (e : exn) :
  int_all int pieces = Raise e -> e = ValueError.
Proof.
  induction pieces as [| p pieces IH]; simpl; [done |].
  destruct (int p); [| congruence].
  destruct (int_all int pieces); cbn [mbind result_bind mret result_ret];
    [done | intros [= <-]; by apply IH].
Qed.

(** Reading a cached string to which [,snowflake] was appended. *)
Lemma parse_cached_append (cached snowflake : string) (ids : list Z) (z : Z) :
  parse_cached int cached = Ok ids ->
  int snowflake = Some z ->
  has_comma snowflake = false -> nonempty snowflake = true ->
  parse_cached int (cached ++ String comma snowflake) = Ok (ids ++ [z]).
Proof.
  unfold parse_cached. intros Hids Hz Hplain Hfull.
  rewrite split_comma_append, (split_comma_plain snowflake) by done.
  rewrite filter_app, (filter_cons_True _ snowflake) by done.
  apply int_all_app_ok; [done |]. simpl. by rewrite Hz.
Qed.


Lemma sync_set_cached (g : group_name) (t : set_type) (st : sync_state)
    (cached : string) (ids : list Z) :
  sync_config st !! cache_key g t = Some cached ->
  parse_cached int cached = Ok ids ->
  _sync_set str int g t st
  = ({| sync_permissions :=
          set_set g t {| _set := map EInt ids |} (sync_permissions st);
        sync_config := sync_config st |}, Ok ()).
Proof. intros Hc Hp. unfold _sync_set. by rewrite Hc, Hp. Qed.

Lemma sync_set_cached_fails (g : group_name) (t : set_type) (st : sync_state)
    (cached : string) (e : exn) :
  sync_config st !! cache_key g t = Some cached ->
  parse_cached int cached = Raise e ->
  _sync_set str int g t st = (st, Raise ValueError).
Proof.
  intros Hc Hp. unfold _sync_set. rewrite Hc, Hp.
  by rewrite (int_all_raises _ _ Hp).
Qed.

(** [_sync_set] ends normally or with a [ValueError]. *)
Lemma sync_set_result (g : group_name) (t : set_type) (st : sync_state) :
  (_sync_set str int g t st).2 = Ok ()
  \/ (_sync_set str int g t st).2 = Raise ValueError.
Proof.
  unfold _sync_set.
  destruct (sync_config st !! cache_key g t) as [cached |]; [| by left].
  destruct (parse_cached int cached) as [ids | e] eqn:E; [by left |].
  right. simpl. by rewrite (int_all_raises _ _ E).
Qed.

(** [_sync_set] never changes a value that the cache holds. *)
Lemma sync_set_keeps (g : group_name) (t : set_type) (st : sync_state)
    (k v : string) :
  sync_config st !! k = Some v ->
  sync_config (_sync_set str int g t st).1 !! k = Some v.
Proof.
  intros Hk. unfold _sync_set.
  destruct (sync_config st !! cache_key g t) as [cached |] eqn:Hc.
  - by destruct (parse_cached int cached).
  - simpl. rewrite lookup_insert_ne; [done |]. congruence.
Qed.


Lemma and_then_first_raises (first second : sync_state -> sync_state * result unit)
    (st : sync_state) (e : exn) :
  (first st).2 = Raise e -> and_then first second st = first st.
Proof.
  unfold and_then. destruct (first st) as [st' [u | e']]; simpl; [done |].
  by intros [= ->].
Qed.

Lemma and_then_first_ok (first second : sync_state -> sync_state * result unit)
    (st : sync_state) :
  (first st).2 = Ok () -> and_then first second st = second (first st).1.
Proof.
  unfold and_then. by destruct (first st) as [st' [u | e']].
Qed.






(** One set whose cached string cannot be read fails the whole
    synchronisation. *)
Lemma sync_allowdeny_unreadable (g : group_name) (t : set_type)
    (st : sync_state) (cached : string) (e : exn) :
  sync_config st !! cache_key g t = Some cached ->
  parse_cached int cached = Raise e ->
  (_sync_allowdeny str int st).2 = Raise ValueError.
Proof.
  intros Hc Hp. unfold _sync_allowdeny.
  assert (forall g' t' st', sync_config st' !! cache_key g t = Some cached ->
            forall second,
            (forall st'', sync_config st'' !! cache_key g t = Some cached ->
                          (second st'').2 = Raise ValueError) ->
            (and_then (_sync_set str int g' t') second st').2 = Raise ValueError)
    as Hstep.
  { intros g' t' st' Hc' second Hsecond.
    destruct (sync_set_result g' t' st') as [H | H].
    - rewrite and_then_first_ok by done.
      by apply Hsecond, sync_set_keeps.
    - by rewrite (and_then_first_raises _ _ _ _ H). }
  assert (forall st', sync_config st' !! cache_key g t = Some cached ->
            (_sync_set str int g t st').2 = Raise ValueError) as Hbad.
  { intros st' Hc'. by rewrite (sync_set_cached_fails g t st' cached e). }
  assert (forall st' second,
            sync_config st' !! cache_key g t = Some cached ->
            (and_then (_sync_set str int g t) second st').2 = Raise ValueError)
    as Hhere.
  { intros st' second Hc'.
    by rewrite (and_then_first_raises _ _ _ _ (Hbad st' Hc')), Hbad. }
  destruct g, t.
  - by apply Hhere.
  - apply Hstep; [done |]. intros; by apply Hhere.
  - apply Hstep; [done |]. intros; apply Hstep; [done |].
    intros; by apply Hhere.
  - apply Hstep; [done |]. intros; apply Hstep; [done |].
    intros; apply Hstep; [done |]. intros; by apply Hbad.
Qed.


(** With a readable value cached for each of the four sets, the
    synchronisation ends normally, leaves the cache alone and sets each set
    to the integers of its cached string. *)
Lemma sync_allowdeny_cached (st : sync_state)
    (ids : group_name -> set_type -> list Z) :
  (forall g t, exists cached,
      sync_config st !! cache_key g t = Some cached
      /\ parse_cached int cached = Ok (ids g t)) ->
  (_sync_allowdeny str int st).2 = Ok ()
  /\ sync_config (_sync_allowdeny str int st).1 = sync_config st
  /\ forall g t,
       get_set t (get_group g (sync_permissions (_sync_allowdeny str int st).1))
       = {| _set := map EInt (ids g t) |}.
Proof.
  intros Hall.
  destruct (Hall Categories Allow) as (c1 & Hc1 & Hp1).
  destruct (Hall Categories Deny) as (c2 & Hc2 & Hp2).
  destruct (Hall Channels Allow) as (c3 & Hc3 & Hp3).
  destruct (Hall Channels Deny) as (c4 & Hc4 & Hp4).
  unfold _sync_allowdeny, and_then.
  rewrite (sync_set_cached _ _ _ c1 _ Hc1 Hp1).
  rewrite (sync_set_cached _ _ _ c2 (ids Categories Deny)) by done.
  rewrite (sync_set_cached _ _ _ c3 (ids Channels Allow)) by done.
  rewrite (sync_set_cached _ _ _ c4 (ids Channels Deny)) by done.
  split_and!; [done | done |]. by intros [] [].
Qed.

Lemma contains_ints (zs : list Z) (x : Z) :
  contains {| _set := map EInt zs |} (Some x) = bool_decide (x ∈ zs).
Proof.
  unfold contains.
  assert (wildcard_set {| _set := map EInt zs |} = false) as ->.
  { unfold wildcard_set. by destruct zs. }
  simpl. apply bool_decide_ext. rewrite list_elem_of_fmap. split.
  - by intros (y & [= ->] & Hy).
  - intros Hx. by exists x.
Qed.

Lemma contains_ints_None (zs : list Z) :
  contains {| _set := map EInt zs |} None = false.
Proof. unfold contains, wildcard_set. by destruct zs. Qed.

(** X16: a set of integers goes into an empty cache and comes back as it
    was.  When the cache holds no value for a set whose elements are
    integers, [_sync_set] ends normally, leaves the permissions alone and
    stores the elements joined by commas; synchronising the set again ends
    normally and changes neither the permissions nor the cache. *)
Theorem sync_set_round_trip (g : group_name) (t : set_type) (st : sync_state)
    (zs : list Z) :
  Forall (renders str int) zs ->
  sync_config st !! cache_key g t = None ->
  _set (get_set t (get_group g (sync_permissions st))) = map EInt zs ->
  let st1 := (_sync_set str int g t st).1 in
  (_sync_set str int g t st).2 = Ok ()
  /\ sync_permissions st1 = sync_permissions st
  /\ sync_config st1
     = <[cache_key g t := join_comma (map str zs)]> (sync_config st)
  /\ _sync_set str int g t st1 = (st1, Ok ()).
Proof.
  intros Hzs Hc Hset st1.
  assert (_sync_set str int g t st
          = ({| sync_permissions := sync_permissions st;
                sync_config := <[cache_key g t := join_comma (map str zs)]>
                                 (sync_config st) |}, Ok ())) as E.
  { unfold _sync_set. rewrite Hc, Hset. by rewrite map_map. }
  subst st1. rewrite E. cbn [fst snd]. split_and!; try done.
  rewrite (sync_set_cached _ _ _ (join_comma (map str zs)) zs);
    [| by cbn; rewrite lookup_insert_eq | by apply parse_cached_ints].
  cbn [sync_permissions sync_config]. do 2 f_equal.
  rewrite <- Hset. destruct st as [[[ca cd] [ha hd]] cfg].
  by destruct g, t, ca, cd, ha, hd.
Qed.

(** X17: a cached list wins over the configured set.  When the cache holds
    the integers [zs] for a set, [_sync_set] ends normally and leaves the
    cache alone; afterwards the set holds exactly [zs], whatever was
    configured (also the wildcard), never [None], and the three other sets
    are as they were. *)
Theorem sync_set_cache_wins (g : group_name) (t : set_type) (st : sync_state)
    (zs : list Z) :
  Forall (renders str int) zs ->
  sync_config st !! cache_key g t = Some (join_comma (map str zs)) ->
  let st1 := (_sync_set str int g t st).1 in
  (_sync_set str int g t st).2 = Ok ()
  /\ sync_config st1 = sync_config st
  /\ (forall x : Z,
        contains (get_set t (get_group g (sync_permissions st1))) (Some x) = true
        <-> x ∈ zs)
  /\ contains (get_set t (get_group g (sync_permissions st1))) None = false
  /\ forall g' t', (g', t') <> (g, t) ->
       get_set t' (get_group g' (sync_permissions st1))
       = get_set t' (get_group g' (sync_permissions st)).
Proof.
  intros Hzs Hc st1. subst st1.
  rewrite (sync_set_cached _ _ _ _ zs Hc) by by apply parse_cached_ints.
  cbn [fst snd sync_permissions sync_config].
  assert (get_set t (get_group g
            (set_set g t {| _set := map EInt zs |} (sync_permissions st)))
          = {| _set := map EInt zs |}) as ->.
  { by destruct g, t. }
  split_and!; try done.
  - intros x. rewrite contains_ints. apply bool_decide_eq_true.
  - apply contains_ints_None.
  - intros g' t' Hne. by destruct g, t, g', t'.
Qed.

(** X18: the wildcard does not survive the cache.  When the cache holds no
    value for a set that is the wildcard [{"*"}], [_sync_set] ends normally
    and stores ["*"]; and in every state whose cache holds ["*"] for one of
    the four sets, [_sync_allowdeny] ends with a [ValueError], since
    [int("*")] raises. *)
Theorem wildcard_sync_raises (g : group_name) (t : set_type) (st : sync_state) :
  int "*" = None ->
  sync_config st !! cache_key g t = None ->
  _set (get_set t (get_group g (sync_permissions st))) = [EStr "*"] ->
  (_sync_set str int g t st).2 = Ok ()
  /\ sync_config (_sync_set str int g t st).1 !! cache_key g t = Some "*"
  /\ forall st' : sync_state,
       sync_config st' !! cache_key g t = Some "*" ->
       (_sync_allowdeny str int st').2 = Raise ValueError.
Proof.
  intros Hstar Hc Hset. split_and!.
  - unfold _sync_set. by rewrite Hc.
  - unfold _sync_set. rewrite Hc, Hset. cbn. by rewrite lookup_insert_eq.
  - intros st' Hc'.
    apply (sync_allowdeny_unreadable g t st' "*" ValueError Hc').
    unfold parse_cached.
    assert (filter (fun e => nonempty e = true) (split_comma "*") = ["*"%string])
      as -> by (vm_compute; reflexivity).
    cbn. by rewrite Hstar.
Qed.


(** X20: [add_permission] adds an integer to a set.  When the cache holds a
    readable list for each of the four sets, adding [str(z)] to the list of
    one set ends normally; afterwards that set holds the integers of its
    list followed by [z], so [z] is a member, and each other set holds the
    integers of its own list. *)
Theorem add_permission_adds (g : group_name) (t : set_type) (z : Z)
    (st : sync_state) (ids : group_name -> set_type -> list Z) :
  renders str int z ->
  (forall g' t', exists cached,
      sync_config st !! cache_key g' t' = Some cached
      /\ parse_cached int cached = Ok (ids g' t')) ->
  let r := add_permission str int (cache_key g t) (str z) st in
  r.2 = Ok ()
  /\ _set (get_set t (get_group g (sync_permissions r.1)))
     = map EInt (ids g t ++ [z])
  /\ contains (get_set t (get_group g (sync_permissions r.1))) (Some z) = true
  /\ forall g' t', (g', t') <> (g, t) ->
       _set (get_set t' (get_group g' (sync_permissions r.1)))
       = map EInt (ids g' t').
Proof.
  intros (Hz & Hplain & Hfull) Hall r. subst r. unfold add_permission.
  destruct (sync_allowdeny_cached st ids Hall) as (H1 & Hcfg1 & _).
  rewrite and_then_first_ok by done.
  set (st1 := (_sync_allowdeny str int st).1) in *.
  rewrite and_then_first_ok by done.
  unfold config_set. cbn [fst].
  destruct (Hall g t) as (cached & Hcached & Hparse).
  rewrite Hcfg1, Hcached. cbn [format_cached].
  change (cached ++ String comma EmptyString ++ str z)%string
    with (cached ++ String comma (str z))%string.
  set (st2 := {| sync_permissions := sync_permissions st1;
                 sync_config := _ |}).
  set (ids' := fun g' t' =>
                 if decide ((g', t') = (g, t)) then ids g t ++ [z]
                 else ids g' t').
  destruct (sync_allowdeny_cached st2 ids') as (H2 & _ & Hsets).
  { intros g' t'. subst st2 ids'. cbn [sync_config].
    destruct (decide ((g', t') = (g, t))) as [[= -> ->] | Hne].
    - eexists. rewrite lookup_insert_eq. split; [done |].
      by apply parse_cached_append.
    - destruct (Hall g' t') as (c' & Hc' & Hp'). exists c'.
      rewrite lookup_insert_ne; [done |].
      intros E. apply Hne. by destruct g, t, g', t'. }
  split_and!.
  - done.
  - rewrite Hsets. subst ids'. cbn. by rewrite decide_True.
  - rewrite Hsets. subst ids'. cbn beta. rewrite decide_True by done.
    rewrite contains_ints. apply bool_decide_eq_true. set_solver.
  - intros g' t' Hne. rewrite Hsets. subst ids'. cbn. by rewrite decide_False.
Qed.

End SyncFacts.

Lemma sync_set_round_trip_witness :
  sync_config
    (_sync_set decimal_str decimal_int Channels Allow example_sync_state).1
  = <["channels_allow" := "12,345"%string]> ∅.
Proof.
  assert (Forall (renders decimal_str decimal_int) [12; 345]) as Hzs
    by (repeat constructor; vm_compute; reflexivity).
  destruct (sync_set_round_trip decimal_str decimal_int Channels Allow
              example_sync_state [12; 345] Hzs eq_refl eq_refl)
    as (_ & _ & H & _).
  exact H.
Defined.

Lemma sync_set_cache_wins_witness :
  contains
    (get_set Allow (get_group Channels (sync_permissions
       (_sync_set decimal_str decimal_int Channels Allow
          example_cached_state).1)))
    (Some 345) = true.
Proof.
  assert (Forall (renders decimal_str decimal_int) [12; 345]) as Hzs
    by (repeat constructor; vm_compute; reflexivity).
  destruct (sync_set_cache_wins decimal_str decimal_int Channels Allow
              example_cached_state [12; 345] Hzs eq_refl)
    as (_ & _ & H & _).
  apply H. repeat constructor.
Defined.

Lemma wildcard_sync_raises_witness :
  (_sync_allowdeny decimal_str decimal_int
     (_sync_set decimal_str decimal_int Categories Allow
        example_sync_state).1).2
  = Raise ValueError.
Proof.
  destruct (wildcard_sync_raises decimal_str decimal_int Categories Allow
              example_sync_state eq_refl eq_refl eq_refl)
    as (_ & Hstored & H).
  exact (H _ Hstored).
Defined.


Lemma add_permission_adds_witness :
  _set (get_set Deny (get_group Channels (sync_permissions
     (add_permission decimal_str decimal_int "channels_deny" "10"
        example_cached_state).1)))
  = [EInt 9; EInt 10].
Proof.
  assert (renders decimal_str decimal_int 10) as Hz
    by (repeat split; vm_compute; reflexivity).
  assert (forall g' t', exists cached,
             sync_config example_cached_state !! cache_key g' t' = Some cached
             /\ parse_cached decimal_int cached = Ok (example_cached_ids g' t'))
    as Hall.
  { intros [] [].
    - exists "7"%string. split; vm_compute; reflexivity.
    - exists EmptyString. split; vm_compute; reflexivity.
    - exists "12,345"%string. split; vm_compute; reflexivity.
    - exists "9"%string. split; vm_compute; reflexivity. }
  destruct (add_permission_adds decimal_str decimal_int Channels Deny 10
              example_cached_state example_cached_ids Hz Hall)
    as (_ & H & _).
  exact H.
Defined.

(* ===================================================================== *)
(** * Where a command may be used                                          *)
(* ===================================================================== *)

(** X21: where a guarded command may be used.  The check of
    [in_commands_channel] passes exactly in a commands channel or, with the
    staff bypass, for an author who holds one of the bypass roles; so without
    the bypass, or for an author without roles (a direct message), it passes
    only in a commands channel, with no commands channel configured and no
    bypass it never passes, and the bypass never takes a permission away. *)
Theorem in_commands_channel_spec (BYPASS_ROLES commands_channels : list Z)
    (staff_bypass : bool) (ctx : Context) :
  (in_commands_channel BYPASS_ROLES commands_channels staff_bypass ctx = true
   <-> ctx_channel_id ctx ∈ commands_channels
       \/ (staff_bypass = true
           /\ exists (roles : list Z) (r : Z),
                ctx_author_roles ctx = Some roles
                /\ r ∈ roles /\ r ∈ BYPASS_ROLES))
  /\ (staff_bypass = false \/ ctx_author_roles ctx = None ->
      in_commands_channel BYPASS_ROLES commands_channels staff_bypass ctx
      = bool_decide (ctx_channel_id ctx ∈ commands_channels))
  /\ in_commands_channel BYPASS_ROLES [] false ctx = false
  /\ (in_commands_channel BYPASS_ROLES commands_channels false ctx = true ->
      in_commands_channel BYPASS_ROLES commands_channels true ctx = true).
Proof.
  assert (match commands_channels with
          | [] => false
          | _ => bool_decide (ctx_channel_id ctx ∈ commands_channels)
          end = bool_decide (ctx_channel_id ctx ∈ commands_channels)) as Hin.
  { destruct commands_channels; [| done].
    symmetry. apply bool_decide_eq_false. by intros ?%elem_of_nil. }
  unfold in_commands_channel, in_channel_check. rewrite Hin.
  split_and!.
  - destruct (bool_decide_reflect (ctx_channel_id ctx ∈ commands_channels))
      as [Hc | Hc]; [by intuition |].
    destruct staff_bypass; cbn [andb].
    2: { split; [done |]. by intros [? | [? _]]. }
    destruct (existsb _ _) eqn:E.
    + split; [| done]. intros _. right. split; [done |].
      apply existsb_exists in E as (b & Hb & ->).
      apply in_map_iff in Hb as (r & Hr & Hroles).
      destruct (ctx_author_roles ctx) as [roles |]; [| done].
      exists roles, r. split_and!; [done | by apply list_elem_of_In |].
      by apply bool_decide_eq_true in Hr.
    + split; [done |]. intros [? | [_ (roles & r & Hroles & Hr & Hb)]]; [done |].
      rewrite Hroles in E. exfalso.
      assert (existsb (fun b => b)
                (map (fun r => bool_decide (r ∈ BYPASS_ROLES)) roles) = true)
        as E'; [| congruence].
      apply existsb_exists. exists true. split; [| done].
      apply in_map_iff. exists r. split; [by apply bool_decide_eq_true |].
      by apply list_elem_of_In.
  - intros [-> | ->]; destruct (bool_decide _); try done; by destruct staff_bypass.
  - done.
  - by destruct (bool_decide _).
Qed.
